(** * SchemeLink OCR scanner: the text heuristics of [src/src/OcrScanner.jsx]

  The development embeds the pure helpers of the scanner ([isName],
  [smartTitle], [sanitizeDob], [extractDobFromLines], [extractGender],
  [detectDocType], [extractAadhaarFields], [extractVoterFields]), the
  orchestration of one upload ([runOcr], [handleUpload]) and the
  [localStorage] helpers ([saveLastResult], [loadLastResult]).

  JavaScript strings are sequences of UTF-16 code units; they are modelled
  as lists of [N].  Regular expressions are values of type [regex] run by a
  backtracking matcher that lists the successful continuations in the
  priority order of ECMAScript. *)

From Stdlib Require Import String Ascii.
From Stdlib Require Import List NArith ZArith Bool Arith Lia.
From stdpp Require gmap strings.
Import ListNotations.

Set Implicit Arguments.

(** ** JavaScript strings *)

Definition jsstring := list N.

(** An ASCII literal of the source as a list of code units. *)
Definition str (s : string) : jsstring :=
  List.map N_of_ascii (list_ascii_of_string s).

Definition jsstring_eqb (a b : jsstring) : bool :=
  if list_eq_dec N.eq_dec a b then true else false.

Module Chars.

Local Open Scope N_scope.

Definition in_range (lo hi c : N) : bool := (N.leb lo c && N.leb c hi)%bool.

Definition is_digit (c : N) : bool := in_range 48 57 c.
Definition is_upper (c : N) : bool := in_range 65 90 c.
Definition is_lower (c : N) : bool := in_range 97 122 c.
Definition is_alpha (c : N) : bool := (is_upper c || is_lower c)%bool.

(** [\w] without the [u] flag: [A-Za-z0-9_]. *)
Definition is_word (c : N) : bool := (is_alpha c || is_digit c || N.eqb c 95)%bool.

(** [\s], which is also what [trim] and [parseInt] skip: WhiteSpace and
    LineTerminator of ECMAScript. *)
Definition is_space (c : N) : bool :=
  (in_range 9 13 c || N.eqb c 32 || N.eqb c 160 || N.eqb c 5760
   || in_range 8192 8202 c || N.eqb c 8232 || N.eqb c 8233 || N.eqb c 8239
   || N.eqb c 8287 || N.eqb c 12288 || N.eqb c 65279)%bool.

(** LineTerminator, what [.] refuses. *)
Definition is_line_terminator (c : N) : bool :=
  (N.eqb c 10 || N.eqb c 13 || N.eqb c 8232 || N.eqb c 8233)%bool.

(** Lower-casing of one code unit.  ASCII letters are exact.  Outside ASCII
    the only characters whose lower-case form contains an ASCII code unit
    are U+0130 (to [i] followed by U+0307) and U+212A (to [k]); they are
    mapped as ECMAScript maps them.  The remaining code units are left as
    they are: their lower-case forms contain no code unit of any literal of
    the program (ASCII, Tamil and Devanagari, the last two without case),
    so every [includes] test of the program sees the same answer. *)
Definition lower (c : N) : list N :=
  if is_upper c then [c + 32]
  else if N.eqb c 304 then [105; 775]
  else if N.eqb c 8490 then [107]
  else [c].

(** Upper-casing of one code unit, exact on ASCII; the program applies it
    only to words made of ASCII letters and periods. *)
Definition upper (c : N) : list N :=
  if is_lower c then [c - 32] else [c].

(** Canonicalisation of the [i] flag (no [u] flag): a code unit at or above
    128 is never folded onto an ASCII one, so on the ASCII letters of the
    patterns the comparison is ASCII case folding. *)
Definition fold_case (c : N) : N := if is_lower c then c - 32 else c.

End Chars.

Module JsString.

Import Chars.
Local Open Scope N_scope.

Definition toLowerCase (s : jsstring) : jsstring := flat_map lower s.
Definition toUpperCase (s : jsstring) : jsstring := flat_map upper s.

Fixpoint startsWith (s p : jsstring) : bool :=
  match p, s with
  | [], _ => true
  | _ :: _, [] => false
  | b :: p', a :: s' => (N.eqb a b && startsWith s' p')%bool
  end.

Fixpoint includes (s sub : jsstring) : bool :=
  (startsWith s sub ||
   match s with
   | [] => false
   | _ :: s' => includes s' sub
   end)%bool.

Fixpoint trimStart (s : jsstring) : jsstring :=
  match s with
  | c :: s' => if is_space c then trimStart s' else s
  | [] => []
  end.

Definition trimEnd (s : jsstring) : jsstring := rev (trimStart (rev s)).

Definition trim (s : jsstring) : jsstring := trimEnd (trimStart s).

(** [s.padStart(2, "0")]. *)
Definition padStart2 (s : jsstring) : jsstring :=
  repeat 48 (2 - length s)%nat ++ s.

(** [a.join(sep)]. *)
Fixpoint join (sep : jsstring) (a : list jsstring) : jsstring :=
  match a with
  | [] => []
  | [x] => x
  | x :: rest => x ++ sep ++ join sep rest
  end.

(** [s.split(sep)] for a non-empty separator string: [cur] holds, reversed,
    the piece being read. *)
Fixpoint split_from (sep : jsstring) (cur : jsstring) (s : jsstring)
         (fuel : nat) : list jsstring :=
  match fuel with
  | O => [rev cur ++ s]
  | S fuel' =>
      match s with
      | [] => [rev cur]
      | c :: s' =>
          if startsWith s sep
          then rev cur :: split_from sep [] (skipn (length sep) s) fuel'
          else split_from sep (c :: cur) s' fuel'
      end
  end.

Definition split (s sep : jsstring) : list jsstring :=
  split_from sep [] s (S (length s)).

(** [parseInt(s, 10)]: leading white space is skipped, a sign is read, then
    the longest run of decimal digits; [None] is [NaN].  The value is the
    exact integer: the source only compares it with 1900 and 2020, which
    rounding to a double cannot cross. *)
Fixpoint digits_value (acc : Z) (s : jsstring) : Z :=
  match s with
  | c :: s' => if is_digit c then digits_value (10 * acc + (Z.of_N c - 48))%Z s' else acc
  | [] => acc
  end.

Definition parse_digits (s : jsstring) : option Z :=
  match s with
  | c :: _ => if is_digit c then Some (digits_value 0%Z s) else None
  | [] => None
  end.

Definition parseInt (s : jsstring) : option Z :=
  match trimStart s with
  | 45 :: s' => option_map Z.opp (parse_digits s')
  | 43 :: s' => parse_digits s'
  | s' => parse_digits s'
  end.

End JsString.

(** ** Regular expressions *)

Module Regex.

Import Chars.

(** The patterns of the source use: classes and literals, sequence,
    alternation, greedy quantifiers, numbered capturing groups, [^], [$]
    and [\b]. *)
Inductive regex : Type :=
| Eps
| Class (p : N -> bool)
| Cat (r1 r2 : regex)
| Alt (r1 r2 : regex)
| Rep (lo : nat) (hi : option nat) (r : regex)
| Group (n : nat) (r : regex)
| Bol
| Eol
| WordB.

(** A matcher state: the input already passed (most recent code unit
    first), the input still to read, and the captures set so far. *)
Record mstate : Type := MState {
  before : list N;
  after : list N;
  caps : list (nat * jsstring)
}.

(** What was read between state [s] and a later state [e]. *)
Definition consumed (s e : mstate) : jsstring :=
  firstn (length (after s) - length (after e)) (after s).

Definition set_cap (n : nat) (v : jsstring) (e : mstate) : mstate :=
  MState (before e) (after e) ((n, v) :: caps e).

Fixpoint get_cap (n : nat) (cs : list (nat * jsstring)) : option jsstring :=
  match cs with
  | [] => None
  | (k, v) :: cs' => if Nat.eqb k n then Some v else get_cap n cs'
  end.

Definition progressed (s e : mstate) : bool :=
  negb (Nat.eqb (length (after e)) (length (after s))).

Definition word_before (s : mstate) : bool :=
  match before s with c :: _ => is_word c | [] => false end.

Definition word_after (s : mstate) : bool :=
  match after s with c :: _ => is_word c | [] => false end.

Section Repeat.

Variable step : mstate -> list mstate.

(** The iterations a quantifier must make; an iteration may be empty. *)
Fixpoint rep_req (lo : nat) (k : mstate -> list mstate) (s : mstate)
  : list mstate :=
  match lo with
  | O => k s
  | S lo' => flat_map (rep_req lo' k) (step s)
  end.

(** At most [n] further iterations, greedy: one more iteration is tried
    before stopping, and an iteration that reads nothing is refused. *)
Fixpoint rep_opt (n : nat) (s : mstate) : list mstate :=
  match n with
  | O => [s]
  | S n' =>
      flat_map (rep_opt n') (List.filter (progressed s) (step s)) ++ [s]
  end.

End Repeat.

(** All the ways [r] matches from [s], in the order in which backtracking
    tries them: the head is the match ECMAScript reports.  Without an upper
    bound a quantifier can make no more optional iterations than there are
    code units left, each of them reading at least one. *)
Fixpoint run (r : regex) (s : mstate) : list mstate :=
  match r with
  | Eps => [s]
  | Class p =>
      match after s with
      | c :: rest => if p c then [MState (c :: before s) rest (caps s)] else []
      | [] => []
      end
  | Cat r1 r2 => flat_map (run r2) (run r1 s)
  | Alt r1 r2 => run r1 s ++ run r2 s
  | Rep lo hi r1 =>
      rep_req (run r1) lo
        (fun e => rep_opt (run r1)
                    (match hi with
                     | Some h => h - lo
                     | None => length (after e)
                     end) e) s
  | Group n r1 => List.map (fun e => set_cap n (consumed s e) e) (run r1 s)
  | Bol => match before s with [] => [s] | _ :: _ => [] end
  | Eol => match after s with [] => [s] | _ :: _ => [] end
  | WordB => if xorb (word_before s) (word_after s) then [s] else []
  end.

(** The result of a successful search: where the match starts (the input
    before it, reversed) and the state at its end. *)
Record found : Type := Found {
  f_prefix : list N;
  f_start : mstate;
  f_end : mstate
}.

(** The leftmost match at or after the position held by [(pre, rest)]. *)
Fixpoint search_from (r : regex) (pre rest : list N) : option found :=
  let s := MState pre rest [] in
  match run r s with
  | e :: _ => Some (Found pre s e)
  | [] =>
      match rest with
      | [] => None
      | c :: rest' => search_from r (c :: pre) rest'
      end
  end.

Definition search (r : regex) (s : jsstring) : option found :=
  search_from r [] s.

Definition matched (f : found) : jsstring := consumed (f_start f) (f_end f).

(** [m[n]] of a match array; group 0 is the whole match. *)
Definition group (n : nat) (f : found) : option jsstring :=
  match n with
  | O => Some (matched f)
  | _ => get_cap n (caps (f_end f))
  end.

(** [re.test(s)]. *)
Definition test (r : regex) (s : jsstring) : bool :=
  match search r s with Some _ => true | None => false end.

(** [s.replace(re, "")] for a pattern without the [g] flag. *)
Definition remove_first (r : regex) (s : jsstring) : jsstring :=
  match search r s with
  | Some f => rev (f_prefix f) ++ after (f_end f)
  | None => s
  end.

(** The loop of the [g] flag: the next search starts where the last match
    ended, one code unit further after an empty match.  [k] receives each
    match. *)
Fixpoint scan (r : regex) (pre rest : list N) (fuel : nat) : list found :=
  match fuel with
  | O => []
  | S fuel' =>
      match search_from r pre rest with
      | None => []
      | Some f =>
          let e := f_end f in
          f ::
          (if progressed (f_start f) e
           then scan r (before e) (after e) fuel'
           else match after e with
                | [] => []
                | c :: rest' => scan r (c :: before e) rest' fuel'
                end)
      end
  end.

(** [s.match(re)] for a pattern with the [g] flag: the matched strings
    ([None] is [null], when there is no match). *)
Definition match_all (r : regex) (s : jsstring) : option (list jsstring) :=
  match scan r [] s (S (length s)) with
  | [] => None
  | fs => Some (List.map matched fs)
  end.

(** The pieces of [s] between the matches: [from] is where the piece being
    read starts. *)
Fixpoint pieces (from : jsstring) (fs : list found) : list jsstring :=
  match fs with
  | [] => [from]
  | f :: fs' =>
      firstn (length from - length (after (f_start f))) from
        :: pieces (after (f_end f)) fs'
  end.

(** [s.replace(re, "")] for a pattern with the [g] flag. *)
Definition remove_all (r : regex) (s : jsstring) : jsstring :=
  concat (pieces s (scan r [] s (S (length s)))).

(** [s.split(re)] for a pattern that matches no empty string and has no
    capturing group (the two the source splits on). *)
Definition split (r : regex) (s : jsstring) : list jsstring :=
  match s with
  | [] => match run r (MState [] [] []) with [] => [[]] | _ :: _ => [] end
  | _ => pieces s (scan r [] s (S (length s)))
  end.

(** *** Building patterns *)

Definition chr (c : N) : regex := Class (N.eqb c).
Definition chr_i (c : N) : regex := Class (fun x => N.eqb (fold_case x) (fold_case c)).

Fixpoint seq (rs : list regex) : regex :=
  match rs with
  | [] => Eps
  | [r] => r
  | r :: rs' => Cat r (seq rs')
  end.

Fixpoint alt (rs : list regex) : regex :=
  match rs with
  | [] => Class (fun _ => false)
  | [r] => r
  | r :: rs' => Alt r (alt rs')
  end.

Definition lit (s : jsstring) : regex := seq (List.map chr s).
Definition lit_i (s : jsstring) : regex := seq (List.map chr_i s).

Definition star (r : regex) : regex := Rep 0 None r.
Definition plus (r : regex) : regex := Rep 1 None r.
Definition opt (r : regex) : regex := Rep 0 (Some 1) r.
Definition range (lo hi : nat) (r : regex) : regex := Rep lo (Some hi) r.

Definition digit : regex := Class is_digit.
Definition space : regex := Class is_space.
Definition any : regex := Class (fun c => negb (is_line_terminator c)).
Definition one_of (s : jsstring) : N -> bool :=
  fun c => existsb (N.eqb c) s.

End Regex.

(** ** The scanner *)

Module Scanner.

Import Chars JsString Regex.

(** *** Constants *)

(** The non-ASCII literals of the source, by code unit. *)
Definition hi_aadhaar : jsstring := [0x906; 0x927; 0x93e; 0x930]%N.
Definition ta_india : jsstring := [0xb87; 0xba8; 0xbcd; 0xba4; 0xbbf; 0xbaf]%N.
Definition ta_government : jsstring :=
  [0xb85; 0xbb0; 0xb9a; 0xbbe; 0xb99; 0xbcd; 0xb95; 0xbae; 0xbcd]%N.
Definition ta_born : jsstring := [0xbaa; 0xbbf; 0xbb1; 0xba8; 0xbcd; 0xba4]%N.
Definition ta_day : jsstring := [0xba8; 0xbbe; 0xbb3; 0xbcd]%N.
Definition ta_male : jsstring := [0xb86; 0xba3; 0xbcd]%N.
Definition ta_female : jsstring := [0xbaa; 0xbc6; 0xba3; 0xbcd]%N.
Definition ta_gender_suffix : jsstring := [0xbaa; 0xbbe; 0xbb2; 0xbcd]%N.
Definition ta_male_long : jsstring := ta_male ++ ta_gender_suffix.
Definition ta_female_long : jsstring := ta_female ++ ta_gender_suffix.

Definition BLACKLIST : list jsstring :=
  [ str "government"; str "govt"; str "aadhaar"; str "aadhar"; hi_aadhaar; str "uidai";
    str "unique identification"; str "india"; ta_india; ta_government;
    str "issue date"; str "issue"; str "enrolment"; str "enrollment"; str "address";
    str "mobile"; str "phone"; str "dob"; str "date of birth"; ta_born;
    str "male"; str "female"; ta_male; ta_female; str "help"; str "1800"; str "www"; str "http";
    str "time"; str "belated"; str "epsom"; str "solited"; str "huet"; str "ipe"; str "tan"; str "bbm";
    str "sei"; str "sam"; str "icici"; str "ligpibg"; str "sotlingd"; str "siren"; str "ipibg"; str "agsimuned";
    str "proof"; str "identity"; str "citizenship"; str "authentication"; str "election"; str "commission";
    str "elector"; str "photo"; str "birth"; str "date"; str "age"; str "father"; str "soundar" ].

Definition NOT_FOUND : jsstring := str "Not found".

(** The line feed, ["\n"] in the source. *)
Definition LF : jsstring := [10]%N.

(** *** Patterns *)

(** [/^[^A-Za-z]+/] *)
Definition re_leading_junk : regex :=
  seq [Bol; plus (Class (fun c => negb (is_alpha c)))].

(** [/\s+\d{1,2}$/] *)
Definition re_trailing_digits : regex :=
  seq [plus space; range 1 2 digit; Eol].

(** [/^[A-Za-z][A-Za-z\s.]+$/] *)
Definition is_name_char (c : N) : bool :=
  (is_alpha c || is_space c || N.eqb c 46)%bool.

Definition re_name_shape : regex :=
  seq [Bol; Class is_alpha; plus (Class is_name_char); Eol].

(** [/\s+/] *)
Definition re_spaces : regex := plus space.

(** [/\./g] *)
Definition re_period : regex := chr 46.

(** [\d{1,2}[\-\/\.]\d{1,2}[\-\/\.]\d{4}] *)
Definition is_date_sep : N -> bool := one_of (str "-/.").

Definition re_date_shape : regex :=
  seq [range 1 2 digit; Class is_date_sep; range 1 2 digit; Class is_date_sep;
       range 4 4 digit].

(** [/(?:DOB|D0B|Date\s*of\s*Birth|Age)\s*[:/\-\s]+(\d{1,2}[\-\/\.]\d{1,2}[\-\/\.]\d{4})/i] *)
Definition re_dob_label : regex :=
  seq [alt [lit_i (str "DOB"); lit_i (str "D0B");
            seq [lit_i (str "Date"); star space; lit_i (str "of"); star space;
                 lit_i (str "Birth")];
            lit_i (str "Age")];
       star space;
       plus (Class (fun c => (one_of (str ":/-") c || is_space c)%bool));
       Group 1 re_date_shape].

(** [/(?:பிறந்த\s*நாள்|பிறந்த)\s*[:/\-]?\s*(\d{1,2}[\-\/\.]\d{1,2}[\-\/\.]\d{4})/i] *)
Definition re_dob_label_ta : regex :=
  seq [alt [seq [lit_i ta_born; star space; lit_i ta_day]; lit_i ta_born];
       star space;
       opt (Class (one_of (str ":/-")));
       star space;
       Group 1 re_date_shape].

(** [/issue/i] *)
Definition re_issue : regex := lit_i (str "issue").

(** [/\b(\d{1,2}[\-\/\.]\d{1,2}[\-\/\.]\d{4})\b/g] *)
Definition re_date_word : regex := seq [WordB; Group 1 re_date_shape; WordB].

(** [/\b(Male|Female|MALE|FEMALE|ஆண்பால்|பெண்பால்|ஆண்|பெண்)\b/] *)
Definition gender_tokens : list jsstring :=
  [str "Male"; str "Female"; str "MALE"; str "FEMALE";
   ta_male_long; ta_female_long; ta_male; ta_female].

Definition re_gender : regex :=
  seq [WordB; Group 1 (alt (List.map lit gender_tokens)); WordB].

(** [[A-Z]{2,4}\d{6,10}] *)
Definition re_card_shape : regex :=
  seq [range 2 4 (Class is_upper); range 6 10 digit].

(** [/\b[A-Z]{2,4}\d{6,10}\b/] *)
Definition re_card_test : regex := seq [WordB; re_card_shape; WordB].

(** [/\b([A-Z]{2,4}\d{6,10})\b/] *)
Definition re_card : regex := seq [WordB; Group 1 re_card_shape; WordB].

(** [/\b\d{4}\s?\d{4}\s?\d{4}\b/] *)
Definition re_aadhaar_test : regex :=
  seq [WordB; range 4 4 digit; opt space; range 4 4 digit; opt space;
       range 4 4 digit; WordB].

(** [/\b(\d{4})\s{0,6}(\d{4})\s{0,6}(\d{4})\b/] *)
Definition re_aadhaar : regex :=
  seq [WordB; Group 1 (range 4 4 digit); range 0 6 space;
       Group 2 (range 4 4 digit); range 0 6 space;
       Group 3 (range 4 4 digit); WordB].

(** [/\r?\n/] *)
Definition re_newline : regex := seq [opt (chr 13); chr 10].

(** [/father|soundar/i] *)
Definition re_father_line : regex :=
  alt [lit_i (str "father"); lit_i (str "soundar")].

(** [/[Nn]ame.{0,3}([A-Z][a-z]+(?:\s+[A-Z][a-z]?)+)/] *)
Definition re_voter_name : regex :=
  seq [Class (one_of (str "Nn")); lit (str "ame"); range 0 3 any;
       Group 1 (seq [Class is_upper; plus (Class is_lower);
                     plus (seq [plus space; Class is_upper; opt (Class is_lower)])])].

(** [/Father'?s?\s*N[a-z]*\s*[;:\-]\s*([A-Za-z][A-Za-z\s]{2,30})/i]; under
    the [i] flag the classes [[a-z]] and [[A-Za-z]] both hold the ASCII
    letters of either case. *)
Definition re_father : regex :=
  seq [lit_i (str "Father"); opt (chr 39); opt (chr_i 115); star space;
       chr_i 78; star (Class is_alpha); star space;
       Class (one_of (str ";:-")); star space;
       Group 1 (seq [Class is_alpha;
                     range 2 30 (Class (fun c => (is_alpha c || is_space c)%bool))])].

(** [/[0.Q'\s]+$/], where Q stands for the double quote (code unit 34) *)
Definition is_father_noise (c : N) : bool :=
  (one_of [48; 46; 34; 39]%N c || is_space c)%bool.

Definition re_father_noise : regex := seq [plus (Class is_father_noise); Eol].

(** [/\b(Soundara[a-zA-Z]+)/] *)
Definition re_soundara : regex :=
  seq [WordB; Group 1 (seq [lit (str "Soundara"); plus (Class is_alpha)])].

(** [m[n]] of a match; the groups of the patterns above take part in
    every match, so the value is never [undefined]. *)
Definition group_str (n : nat) (f : found) : jsstring :=
  match group n f with Some v => v | None => [] end.

(** *** Pure helpers *)

(** Strip leading non-alpha and trailing digit noise, then test as a name. *)
Definition isName (line : jsstring) : bool :=
  let t := trim (remove_first re_leading_junk line) in
  let t := trim (remove_first re_trailing_digits t) in
  let low := toLowerCase t in
  if existsb (fun b => includes low b) BLACKLIST then false
  else if negb (test re_name_shape t) then false
  else if ((length t <? 4) || (50 <? length t))%bool then false
  else
    let words := Regex.split re_spaces t in
    if 2 <=? length words
    then existsb (fun w => 3 <=? length (remove_all re_period w)) words
    else 6 <=? length (hd [] words).

Definition title_word (w : jsstring) : jsstring :=
  let c := remove_all re_period w in
  if length c <=? 2 then toUpperCase w
  else toUpperCase (firstn 1 w) ++ toLowerCase (skipn 1 w).

Definition smartTitle (line : jsstring) : jsstring :=
  let t := trim (remove_first re_leading_junk line) in
  let t := trim (remove_first re_trailing_digits t) in
  join (str " ") (List.map title_word (Regex.split re_spaces t)).

(** [const sep = raw.includes("/") ? "/" : raw.includes("-") ? "-" : ".";] *)
Definition dob_separator (raw : jsstring) : jsstring :=
  if includes raw (str "/") then str "/"
  else if includes raw (str "-") then str "-" else str ".".

(** [null] is [None]. *)
Definition sanitizeDob (raw : jsstring) : option jsstring :=
  let sep := dob_separator raw in
  let parts := JsString.split raw sep in
  match parts with
  | [p0; p1; p2] =>
      let y := parseInt p2 in
      if match y with
         | Some v => ((v <? 1900) || (2020 <? v))%Z%bool
         | None => false
         end
      then None
      else Some (padStart2 p0 ++ str "/" ++ padStart2 p1 ++ str "/" ++ p2)
  | _ => None
  end.

(** [const s = sanitizeDob(d); if (s) return s;]: the value returned, if
    the test lets it through. *)
Definition accepted_dob (d : jsstring) : option jsstring :=
  match sanitizeDob d with
  | Some (c :: s) => Some (c :: s)
  | _ => None
  end.

Fixpoint first_accepted (ds : list jsstring) : option jsstring :=
  match ds with
  | [] => None
  | d :: ds' =>
      match accepted_dob d with
      | Some s => Some s
      | None => first_accepted ds'
      end
  end.

(** The loop over the lines: the first date of a line without [issue]
    that the sanitizer accepts. *)
Fixpoint scan_lines (lines : list jsstring) : option jsstring :=
  match lines with
  | [] => None
  | line :: rest =>
      if test re_issue line then scan_lines rest
      else
        match match_all re_date_word line with
        | Some dates =>
            match first_accepted dates with
            | Some s => Some s
            | None => scan_lines rest
            end
        | None => scan_lines rest
        end
  end.

Definition labelled_dob (r : regex) (text : jsstring) : option jsstring :=
  match search r text with
  | Some m => accepted_dob (group_str 1 m)
  | None => None
  end.

Definition extractDobFromLines (text : jsstring) (lines : list jsstring)
  : jsstring :=
  match labelled_dob re_dob_label text with
  | Some s => s
  | None =>
      match labelled_dob re_dob_label_ta text with
      | Some s => s
      | None =>
          match scan_lines lines with
          | Some s => s
          | None => NOT_FOUND
          end
      end
  end.

Definition extractGender (text : jsstring) : jsstring :=
  match search re_gender text with
  | None => NOT_FOUND
  | Some m =>
      if startsWith (toLowerCase (group_str 1 m)) (str "m")
      then str "Male" else str "Female"
  end.

(** *** Document type detection *)

Inductive DocKind : Type := Voter | Aadhaar | Unknown.

Definition detectDocType (text : jsstring) : DocKind :=
  let lower := toLowerCase text in
  if (includes lower (str "election") || includes lower (str "elector")
      || includes lower (str "voter"))%bool
  then Voter
  else if (includes lower (str "aadhaar") || includes lower (str "aadhar")
           || includes lower (str "uidai")
           || includes lower (str "government of india"))%bool
  then Aadhaar
  else if test re_card_test text then Voter
  else if test re_aadhaar_test text then Aadhaar
  else Unknown.

(** *** Field extractors *)

(** A field of the record: a string or [null]. *)
Inductive jsval : Type :=
| JNull
| JStr (s : jsstring).

Record ExtractedRecord : Type := {
  docType : jsval;
  name : jsval;
  dob : jsval;
  gender : jsval;
  aadhaar : jsval;
  cardNo : jsval;
  fatherName : jsval
}.

(** [text.split(re).map((l) => l.trim()).filter(Boolean)] *)
Definition nonempty (s : jsstring) : bool :=
  match s with [] => false | _ :: _ => true end.

Definition lines_of (pieces : list jsstring) : list jsstring :=
  List.filter nonempty (List.map trim pieces).

Fixpoint first_name (lines : list jsstring) : option jsstring :=
  match lines with
  | [] => None
  | line :: rest =>
      if isName line then Some (smartTitle line) else first_name rest
  end.

Definition or_not_found (o : option jsstring) : jsstring :=
  match o with Some s => s | None => NOT_FOUND end.

Definition extractAadhaarFields (r1Text r2Text : jsstring) : ExtractedRecord :=
  let lines := lines_of (Regex.split re_newline r1Text) in
  let name := or_not_found (first_name lines) in
  let dob := extractDobFromLines r1Text lines in
  let gender := extractGender r1Text in
  let am := search re_aadhaar r2Text in
  let aadhaar :=
    match am with
    | Some m => group_str 1 m ++ str " " ++ group_str 2 m ++ str " " ++ group_str 3 m
    | None => NOT_FOUND
    end in
  {| docType := JStr (str "Aadhaar Card"); name := JStr name; dob := JStr dob;
     gender := JStr gender; aadhaar := JStr aadhaar; cardNo := JNull;
     fatherName := JNull |}.

(** The loop for the voter's name: lines with [father] or [soundar] are
    skipped, the first labelled name is taken. *)
Fixpoint first_voter_name (lines : list jsstring) : option jsstring :=
  match lines with
  | [] => None
  | line :: rest =>
      if test re_father_line line then first_voter_name rest
      else
        match search re_voter_name line with
        | Some m => Some (trim (group_str 1 m))
        | None => first_voter_name rest
        end
  end.

Definition extractVoterFields (textOrig text2x : jsstring) : ExtractedRecord :=
  let combined := textOrig ++ LF ++ text2x in
  let lines := lines_of (Regex.split re_newline combined) in
  let cardM := search re_card combined in
  let cardNo := match cardM with Some m => group_str 1 m | None => NOT_FOUND end in
  let name := or_not_found (first_voter_name lines) in
  let fatherName :=
    match search re_father combined with
    | Some fM => remove_first re_father_noise (trim (group_str 1 fM))
    | None =>
        match search re_soundara combined with
        | Some sM => group_str 1 sM
        | None => NOT_FOUND
        end
    end in
  let gender :=
    if negb (jsstring_eqb (extractGender text2x) NOT_FOUND)
    then extractGender text2x
    else extractGender textOrig in
  let dob :=
    extractDobFromLines textOrig
      (lines_of (JsString.split textOrig (LF))) in
  {| docType := JStr (str "Voter ID"); name := JStr name; dob := JStr dob;
     gender := JStr gender; aadhaar := JNull; cardNo := JStr cardNo;
     fatherName := JStr fatherName |}.

End Scanner.

(** ** The result cache *)

Module Cache.

Import Scanner.
Import stdpp.base stdpp.gmap stdpp.strings.

(** [localStorage] key for persistence. *)
Definition LS_KEY : string := "schemelink_ocr_last".

(** What a key of [localStorage] holds: the JSON text of an envelope
[{ result, savedAt }], which [JSON.parse] gives back as it was written, or a
text that [JSON.parse] refuses. *)
Inductive Item : Type :=
| Envelope (result : ExtractedRecord) (savedAt : Z)
| Unreadable.

Abbreviation Storage := (gmap string Item).

(** [writable] is false when [setItem] throws (storage full or disabled); the
exception is swallowed. *)
Definition saveLastResult (writable : bool) (now : Z) (result : ExtractedRecord)
  (st : Storage) : Storage :=
  if writable then <[LS_KEY := Envelope result now]> st else st.

(** The value returned ([None] is [null]) and the storage after the call. *)
Definition loadLastResult (now : Z) (st : Storage)
  : option ExtractedRecord * Storage :=
  match st !! LS_KEY with
  | None => (None, st)
  | Some Unreadable => (None, st)
  | Some (Envelope result savedAt) =>
      if (now - savedAt >? 24 * 60 * 60 * 1000)%Z
      then (None, delete LS_KEY st)
      else (Some result, st)
  end.

End Cache.

(** ** One upload *)

Module Pipeline.

Import Chars JsString Regex Scanner.

(** A sub-image asked of the canvas helpers: [cropToBlob(file, x, y, w, h)]
with the ratios in hundredths, or [enhancedBlob(file, scale, contrast)]. *)
Inductive Blob : Type :=
| Crop (xR yR wR hR : Z)
| Enhanced (scale contrastPct : Z).

(** A value that a promise is rejected with, as far as the handler of
[handleUpload] tells such values apart: it reads [err.message].

- [ThrownError message]: an [Error], or any object, whose [message] gives
  the string [message] in a concatenation;
- [ThrownPlain text]: the string [text]; a string has no [message], and
  reading it gives [undefined] (so does any other value without that
  property);
- [ThrownNullish complaint]: [null] or [undefined]; reading a property of it
  raises a [TypeError], whose message, chosen by the engine, is
  [complaint]. *)
Inductive Thrown : Type :=
| ThrownError (message : jsstring)
| ThrownPlain (text : jsstring)
| ThrownNullish (complaint : jsstring).

(** What becomes of a promise: it is fulfilled, it is rejected, or it never
settles. *)
Inductive Outcome (A : Type) : Type :=
| Returns (a : A)
| Throws (err : Thrown)
| Pending.

Arguments Returns {A} a.
Arguments Throws {A} err.
Arguments Pending {A}.

(** What becomes of the promise of [cropToBlob] and [enhancedBlob]: the
sub-image is made; [img.onerror] rejects it; [canvas.toBlob] gives no blob
and [img.onload] rejects it; or neither happens (an exception inside
[img.onload] rejects nothing) and the promise never settles. *)
Inductive CanvasResult : Type :=
| Made
| ImageLoadFailed
| ToBlobFailed
| Stuck.

(** The collaborators of a run: the canvas, the recognition library
([recognize b] is the text read from [b], what the library rejects with, or
a call that never settles), the clock and the storage quota. *)
Record Capabilities : Type := {
  canvas : Blob -> CanvasResult;
  recognize : Blob -> Outcome jsstring;
  clock : Z;
  writable : bool
}.

(** One call of [Tesseract.recognize], as [ocrBlob] makes it. *)
Record Call : Type := {
  call_label : jsstring;
  call_blob : Blob;
  call_outcome : Outcome jsstring
}.

(** The state of the component, the storage, and what the run did to its
collaborators: the recognition calls, oldest first, and the records handed to
[onExtract]. *)
Record World : Type := {
  result : option ExtractedRecord;
  loading : bool;
  stage : jsstring;
  statusMsg : jsstring;
  storage : stdpp.gmap.gmap string Cache.Item;
  calls : list Call;
  handed : list ExtractedRecord
}.

(** Computations that read and write the world, and may throw or wait for
ever; the world of a computation that waits for ever is the one it is left
in. *)
Definition M (A : Type) : Type := World -> Outcome A * World.

Definition ret {A} (a : A) : M A := fun w => (Returns a, w).

Definition bind {A B} (m : M A) (k : A -> M B) : M B :=
  fun w =>
    match m w with
    | (Returns a, w') => k a w'
    | (Throws err, w') => (Throws err, w')
    | (Pending, w') => (Pending, w')
    end.

Definition throw {A} (err : Thrown) : M A := fun w => (Throws err, w).

(** [await] of a promise that never settles. *)
Definition pending {A} : M A := fun w => (Pending, w).

(** The outcome of an expression that leaves the world alone. *)
Definition lift {A} (o : Outcome A) : M A := fun w => (o, w).

(** [try { body } catch (err) { handler(err) } finally { cleanup }]: the
cleanup runs after the body and after the handler, also when the handler
itself throws, and what the handler threw is thrown on after it.  Nothing
runs after a computation that waits for ever. *)
Definition try_catch_finally (body : M unit) (handler : Thrown -> M unit)
  (cleanup : M unit) : M unit :=
  fun w =>
    match body w with
    | (Returns _, w') => cleanup w'
    | (Throws err, w') =>
        match handler err w' with
        | (Returns _, w'') => cleanup w''
        | (Throws err', w'') => bind cleanup (fun _ => throw err') w''
        | (Pending, w'') => (Pending, w'')
        end
    | (Pending, w') => (Pending, w')
    end.

Declare Scope upload_scope.
Delimit Scope upload_scope with upload.
Notation "x <- m ;; k" := (bind m (fun x => k))
  (at level 61, m at next level, right associativity) : upload_scope.
Notation "m ;; k" := (bind m (fun _ => k))
  (at level 61, right associativity) : upload_scope.

Local Open Scope upload_scope.

Definition modify (f : World -> World) : M unit := fun w => (Returns tt, f w).

Definition setResult (r : option ExtractedRecord) : M unit :=
  modify (fun w => Build_World r (loading w) (stage w) (statusMsg w) (storage w)
                     (calls w) (handed w)).

Definition setLoading (b : bool) : M unit :=
  modify (fun w => Build_World (result w) b (stage w) (statusMsg w) (storage w)
                     (calls w) (handed w)).

Definition setStage (s : jsstring) : M unit :=
  modify (fun w => Build_World (result w) (loading w) s (statusMsg w) (storage w)
                     (calls w) (handed w)).

Definition setStatusMsg (s : jsstring) : M unit :=
  modify (fun w => Build_World (result w) (loading w) (stage w) s (storage w)
                     (calls w) (handed w)).

Definition onExtract (r : ExtractedRecord) : M unit :=
  modify (fun w => Build_World (result w) (loading w) (stage w) (statusMsg w)
                     (storage w) (calls w) (handed w ++ [r])).

Section Run.

Variable cap : Capabilities.

Definition make_blob (b : Blob) : M Blob :=
  match canvas cap b with
  | Made => ret b
  | ImageLoadFailed => throw (ThrownError (str "Image load failed"))
  | ToBlobFailed => throw (ThrownError (str "toBlob failed"))
  | Stuck => pending
  end.

Definition cropToBlob (xR yR wR hR : Z) : M Blob := make_blob (Crop xR yR wR hR).

Definition enhancedBlob (scale contrastPct : Z) : M Blob :=
  make_blob (Enhanced scale contrastPct).

(** The call is recorded, then its outcome is the outcome of [ocrBlob]. *)
Definition ocrBlob (blob : Blob) (label : jsstring) : M jsstring :=
  fun w =>
    let o := recognize cap blob in
    (o, Build_World (result w) (loading w) (stage w) (statusMsg w) (storage w)
          (calls w ++ [Build_Call label blob o]) (handed w)).

(** The orchestrator.  The calls of [setProgress] are left out: the
percentage takes no part in what follows. *)
Definition runOcr : M ExtractedRecord :=
  setStage (str "Detecting document type...") ;;
  detectBlob <- cropToBlob 0 0 100 22 ;;
  detectText <- ocrBlob detectBlob (str "detect") ;;
  let docType := detectDocType detectText in
  match docType with
  | Voter =>
      setStage (str "Scanning Voter ID (standard)...") ;;
      origBlob <- cropToBlob 0 0 100 100 ;;
      textOrig <- ocrBlob origBlob (str "voter-orig") ;;
      setStage (str "Scanning Voter ID (enhanced)...") ;;
      enh2xBlob <- enhancedBlob 2 180 ;;
      text2x <- ocrBlob enh2xBlob (str "voter-2x") ;;
      ret (extractVoterFields textOrig text2x)
  | _ =>
      setStage (str "Scanning name & DOB area...") ;;
      r1Blob <- cropToBlob 33 10 67 62 ;;
      r1Text <- ocrBlob r1Blob (str "aadhaar-r1") ;;
      setStage (str "Scanning Aadhaar number...") ;;
      r2Blob <- cropToBlob 5 72 90 12 ;;
      r2Text <- ocrBlob r2Blob (str "aadhaar-r2") ;;
      ret (extractAadhaarFields r1Text r2Text)
  end.

Definition saveLastResult (r : ExtractedRecord) : M unit :=
  modify (fun w => Build_World (result w) (loading w) (stage w) (statusMsg w)
                     (Cache.saveLastResult (writable cap) (clock cap) r (storage w))
                     (calls w) (handed w)).

(** [v && v !== "Not found"] *)
Definition is_found (v : jsval) : bool :=
  match v with
  | JNull => false
  | JStr [] => false
  | JStr s => negb (jsstring_eqb s NOT_FOUND)
  end.

Definition found_count (r : ExtractedRecord) : nat :=
  length (List.filter is_found
            [name r; dob r; gender r; aadhaar r; cardNo r; fatherName r]).

(** The decimal text of a count of fields, at most six. *)
Definition digit_text (n : nat) : jsstring := [(48 + N.of_nat n)%N].

Definition MSG_SUCCESS : jsstring := 0x2705%N :: str " Extraction successful".

Definition MSG_PARTIAL (n : nat) : jsstring :=
  [0x26A0; 0xFE0F]%N ++ str " Partial: " ++ digit_text n ++ str " fields found".

Definition MSG_POOR : jsstring :=
  (0x274C%N :: str " Poor image quality ") ++ [0x2014%N]
  ++ str " try a clearer, well-lit photo".

Definition MSG_ERROR (msg : jsstring) : jsstring :=
  (0x274C%N :: str " OCR error: ") ++ msg.

Definition quality_message (r : ExtractedRecord) : jsstring :=
  let found := found_count r in
  if 4 <=? found then MSG_SUCCESS
  else if 2 <=? found then MSG_PARTIAL found
  else MSG_POOR.

(** [err.message] in a concatenation of strings. *)
Definition message_of (err : Thrown) : Outcome jsstring :=
  match err with
  | ThrownError message => Returns message
  | ThrownPlain _ => Returns (str "undefined")
  | ThrownNullish complaint => Throws (ThrownError complaint)
  end.

(** The handler of the [catch] clause:
[setStatusMsg("❌ OCR error: " + err.message)]. *)
Definition report (err : Thrown) : M unit :=
  message <- lift (message_of err) ;;
  setStatusMsg (MSG_ERROR message).

(** [has_file] is false when the change event carries no file. *)
Definition handleUpload (has_file : bool) : M unit :=
  if negb has_file then ret tt
  else
    setLoading true ;;
    setResult None ;;
    setStatusMsg [] ;;
    try_catch_finally
      (extracted <- runOcr ;;
       setResult (Some extracted) ;;
       saveLastResult extracted ;;
       setStatusMsg (quality_message extracted) ;;
       onExtract extracted)
      report
      (setLoading false ;; setStage []).

End Run.

(** What the component draws of the status.  The paragraph that shows
[statusMsg] is part of the results card, and the card is drawn only when a
result is set ([{result && (...)}]); [None] is no paragraph at all. *)
Definition rendered_status (w : World) : option jsstring :=
  match result w with
  | Some _ => Some (statusMsg w)
  | None => None
  end.

End Pipeline.

(** ** Vocabulary of the statements *)

Module Spec.

Import Chars JsString Regex Scanner Pipeline.

(** [sub] occurs in [s]. *)
Definition occurs_in (sub s : jsstring) : Prop :=
  exists pre post, s = pre ++ sub ++ post.

Definition first_is_word (s : jsstring) : bool :=
  match s with c :: _ => is_word c | [] => false end.

Definition last_is_word (s : jsstring) : bool := first_is_word (rev s).

(** The place between [pre] and [post] is a word boundary: a word character
on one side only. *)
Definition at_boundary (pre post : jsstring) : Prop :=
  xorb (last_is_word pre) (first_is_word post) = true.

(** [tok] occurs in [text] between two word boundaries. *)
Definition occurs_as_word (tok text : jsstring) : Prop :=
  exists pre post,
    text = pre ++ tok ++ post /\
    at_boundary pre (tok ++ post) /\
    at_boundary (pre ++ tok) post.

(** Splitting on the character [c], by recursion on the text: [cur] holds,
reversed, the piece being read. *)
Fixpoint split_char (c : N) (cur : jsstring) (s : jsstring) : list jsstring :=
  match s with
  | [] => [rev cur]
  | a :: s' =>
      if N.eqb a c then rev cur :: split_char c [] s'
      else split_char c (a :: cur) s'
  end.

(** The separator of a date: the slash if the text has one, else the hyphen
if it has one, else the period. *)
Definition separator_char (raw : jsstring) : N :=
  if includes raw (str "/") then 47%N
  else if includes raw (str "-") then 45%N else 46%N.

(** The year component parses as an integer outside 1900..2020. *)
Definition year_rejected (p2 : jsstring) : bool :=
  match parseInt p2 with
  | Some v => ((v <? 1900) || (2020 <? v))%Z%bool
  | None => false
  end.

(** Day and month padded with zeros to two characters, the year as it is. *)
Definition normalised_date (p0 p1 p2 : jsstring) : jsstring :=
  padStart2 p0 ++ str "/" ++ padStart2 p1 ++ str "/" ++ p2.

(** The longest prefix of [s] in the class [p], and what follows it. *)
Fixpoint take_while (p : N -> bool) (s : jsstring) : jsstring :=
  match s with
  | c :: s' => if p c then c :: take_while p s' else []
  | [] => []
  end.

Fixpoint drop_while (p : N -> bool) (s : jsstring) : jsstring :=
  match s with
  | c :: s' => if p c then drop_while p s' else s
  | [] => []
  end.

(** The words of a text: the pieces between its runs of white space.  [cur]
holds, reversed, the piece being read; [in_gap] tells that the last code unit
was white space. *)
Fixpoint words_from (cur : jsstring) (in_gap : bool) (s : jsstring)
  : list jsstring :=
  match s with
  | [] => [rev cur]
  | c :: s' =>
      if is_space c
      then if in_gap then words_from cur true s'
           else rev cur :: words_from [] true s'
      else words_from (c :: cur) false s'
  end.

Definition words (s : jsstring) : list jsstring := words_from [] false s.

Definition without_periods (w : jsstring) : jsstring :=
  List.filter (fun c => negb (N.eqb c 46)) w.

(** A word in title case: upper case throughout when it has at most two
characters besides periods, else its first character in upper case and the
rest in lower case. *)
Definition title_token (w : jsstring) : jsstring :=
  if length (without_periods w) <=? 2 then toUpperCase w
  else toUpperCase (firstn 1 w) ++ toLowerCase (skipn 1 w).

(** The text without a last token of one or two digits and the white space
before it; the text itself when it does not end so. *)
Definition without_trailing_token (s : jsstring) : jsstring :=
  match rev s with
  | d1 :: x :: rest =>
      if is_digit d1 then
        if is_space x then rev (drop_while is_space rest)
        else if is_digit x then
          match rest with
          | y :: rest' =>
              if is_space y then rev (drop_while is_space rest') else s
          | [] => s
          end
        else s
      else s
  | _ => s
  end.

(** A term of the blacklist occurs in the lower-cased text. *)
Definition blacklisted (t : jsstring) : Prop :=
  exists b, In b BLACKLIST /\ occurs_in b (toLowerCase t).

(** A code unit that is no ASCII letter. *)
Definition is_junk (c : N) : bool := negb (is_alpha c).

(** A text that is empty or begins with an ASCII letter. *)
Definition headed (t : jsstring) : Prop :=
  t = [] \/ exists c w, is_alpha c = true /\ t = c :: w.

(** What [isName] and [smartTitle] both compute first: the line without its
leading non-letters and without a trailing token of one or two digits. *)
Definition stripped (line : jsstring) : jsstring :=
  trim (remove_first re_trailing_digits (trim (remove_first re_leading_junk line))).

(** The field rules, each as the source applies it to one text. *)
Definition card_number_rule (text : jsstring) : jsstring :=
  match search re_card text with
  | Some m => group_str 1 m
  | None => NOT_FOUND
  end.

Definition voter_name_rule (text : jsstring) : jsstring :=
  or_not_found (first_voter_name (lines_of (Regex.split re_newline text))).

Definition father_name_rule (text : jsstring) : jsstring :=
  match search re_father text with
  | Some fM => remove_first re_father_noise (trim (group_str 1 fM))
  | None =>
      match search re_soundara text with
      | Some sM => group_str 1 sM
      | None => NOT_FOUND
      end
  end.

Definition aadhaar_name_rule (text : jsstring) : jsstring :=
  or_not_found (first_name (lines_of (Regex.split re_newline text))).

Definition aadhaar_number_rule (text : jsstring) : jsstring :=
  match search re_aadhaar text with
  | Some m => group_str 1 m ++ str " " ++ group_str 2 m ++ str " " ++ group_str 3 m
  | None => NOT_FOUND
  end.

(** The date rule on a text and its lines, the lines cut at [\r?\n] (as
for an Aadhaar card) or at the line feed (as for a voter card). *)
Definition dob_rule (text : jsstring) : jsstring :=
  extractDobFromLines text (lines_of (Regex.split re_newline text)).

Definition dob_rule_lf (text : jsstring) : jsstring :=
  extractDobFromLines text (lines_of (JsString.split text LF)).

(** The gender of a voter card: the enhanced pass, the plain pass when the
enhanced pass has no match. *)
Definition voter_gender_rule (textOrig text2x : jsstring) : jsstring :=
  if jsstring_eqb (extractGender text2x) NOT_FOUND
  then extractGender textOrig else extractGender text2x.

(** A field holds a text that is not empty. *)
Definition holds_text (v : jsval) : Prop :=
  exists s, v = JStr s /\ s <> [].

(** Every code unit of [w] is in the class [p]. *)
Definition all (p : N -> bool) (w : jsstring) : Prop :=
  Forall (fun c => p c = true) w.

(** The keyword [kw] occurs in the lower-cased text. *)
Definition mentions (kw : string) (text : jsstring) : Prop :=
  occurs_in (str kw) (toLowerCase text).

Definition voter_keyword (text : jsstring) : Prop :=
  mentions "election" text \/ mentions "elector" text \/ mentions "voter" text.

Definition aadhaar_keyword (text : jsstring) : Prop :=
  mentions "aadhaar" text \/ mentions "aadhar" text \/ mentions "uidai" text
  \/ mentions "government of india" text.

(** Two to four upper-case ASCII letters followed by six to ten digits, the
whole between two word boundaries. *)
Definition has_card_number (text : jsstring) : Prop :=
  exists pre letters digits post,
    text = pre ++ (letters ++ digits) ++ post /\
    all is_upper letters /\ 2 <= length letters <= 4 /\
    all is_digit digits /\ 6 <= length digits <= 10 /\
    at_boundary pre ((letters ++ digits) ++ post) /\
    at_boundary (pre ++ letters ++ digits) post.

(** Three groups of four digits, the groups apart by at most one white-space
character, the whole between two word boundaries. *)
Definition has_grouped_number (text : jsstring) : Prop :=
  exists pre g1 s1 g2 s2 g3 post,
    text = pre ++ (g1 ++ s1 ++ g2 ++ s2 ++ g3) ++ post /\
    all is_digit g1 /\ length g1 = 4 /\
    all is_space s1 /\ length s1 <= 1 /\
    all is_digit g2 /\ length g2 = 4 /\
    all is_space s2 /\ length s2 <= 1 /\
    all is_digit g3 /\ length g3 = 4 /\
    at_boundary pre ((g1 ++ s1 ++ g2 ++ s2 ++ g3) ++ post) /\
    at_boundary (pre ++ g1 ++ s1 ++ g2 ++ s2 ++ g3) post.

(** The Tamil tokens of the gender pattern. *)
Definition tamil_gender_tokens : list jsstring :=
  [ta_male_long; ta_female_long; ta_male; ta_female].

(** The tokens of the gender pattern that begin with [M]. *)
Definition latin_male_tokens : list jsstring := [str "Male"; str "MALE"].


Definition is_sentinel (v : jsval) : bool :=
  match v with
  | JStr s => jsstring_eqb s NOT_FOUND
  | JNull => false
  end.


(** A day and an hour, in milliseconds. *)
Definition DAY_MS : Z := 24 * 60 * 60 * 1000.
Definition HOUR_MS : Z := 60 * 60 * 1000.

(** The recognition calls made by one upload started in world [w]. *)
Definition calls_of_run (cap : Capabilities) (w : World) : list Call :=
  skipn (length (calls w)) (calls (snd (handleUpload cap true w))).

Definition returned (c : Call) : Prop :=
  exists text, call_outcome c = Returns text.

(** A run on a voter card whose enhanced pass fails in the library, which
rejects with a string. *)
Definition failing_library : Capabilities :=
  {| canvas := fun _ => Made;
     recognize := fun b =>
       match b with
       | Crop _ _ _ 22 => Returns (str "ELECTION C")
       | Crop _ _ _ _ => Returns (str "SOL3248432")
       | Enhanced _ _ => Throws (ThrownPlain (str "Network error while fetching"))
       end;
     clock := 1700000000000;
     writable := true |}.

Definition idle_world : World :=
  {| result := None; loading := false; stage := []; statusMsg := [];
     storage := stdpp.base.empty; calls := []; handed := [] |}.

Definition failed_call : Call :=
  {| call_label := str "voter-2x"; call_blob := Enhanced 2 180;
     call_outcome := Throws (ThrownPlain (str "Network error while fetching")) |}.

(** A run on an Aadhaar card on which every field is read. *)
Definition aadhaar_region_a : jsstring :=
  str "GOVERNMENT OF INDIA" ++ LF ++ str "Arun Kumar" ++ LF
  ++ str "DOB: 05/07/1990" ++ LF ++ str "Male".

Definition reading_library : Capabilities :=
  {| canvas := fun _ => Made;
     recognize := fun b =>
       match b with
       | Crop _ _ _ 22 => Returns (str "GOVERNMENT OF INDIA")
       | Crop _ _ _ 62 => Returns aadhaar_region_a
       | _ => Returns (str "1234 5678 9012")
       end;
     clock := 1700000000000;
     writable := true |}.

Definition aadhaar_record : ExtractedRecord :=
  {| docType := JStr (str "Aadhaar Card"); name := JStr (str "Arun Kumar");
     dob := JStr (str "05/07/1990"); gender := JStr (str "Male");
     aadhaar := JStr (str "1234 5678 9012"); cardNo := JNull; fatherName := JNull |}.

(** A line of a card with the Tamil word for male between Latin letters and
digits, and the match the gender pattern finds in it. *)
Definition tamil_male_text : jsstring := str "Sex" ++ ta_male ++ str "1990".

Definition tamil_male_match : found :=
  match search re_gender tamil_male_text with
  | Some m => m
  | None => Found [] (MState [] [] []) (MState [] [] [])
  end.

End Spec.

(** ** Vocabulary of the matcher *)

Module MatcherSpec.

Import Chars JsString Regex.

(** [e] is [s] after reading [w]; the captures may differ. *)
Definition reads (s : mstate) (w : jsstring) (e : mstate) : Prop :=
  after s = w ++ after e /\ before e = rev w ++ before s.

Definition extends (s e : mstate) : Prop := exists w, reads s w e.

Section Iterations.

Variable step : mstate -> list mstate.

(** [n] iterations lead from [s] to [m]. *)
Fixpoint steps (n : nat) (s m : mstate) : Prop :=
  match n with
  | O => m = s
  | S n' => exists s1, In s1 (step s) /\ steps n' s1 m
  end.

(** [n] iterations, each reading something, lead from [s] to [m]. *)
Fixpoint psteps (n : nat) (s m : mstate) : Prop :=
  match n with
  | O => m = s
  | S n' => exists s1, In s1 (step s) /\ progressed s s1 = true /\ psteps n' s1 m
  end.

End Iterations.

(** [e] is [s] after reading [w], the captures untouched. *)
Definition moves (s : mstate) (w : jsstring) (e : mstate) : Prop :=
  after s = w ++ after e /\ before e = rev w ++ before s /\ caps e = caps s.

(** The state reached from [s] by reading [w], with [rest] left. *)
Definition jump (s : mstate) (w : jsstring) (rest : list N) : mstate :=
  MState (rev w ++ before s) rest (caps s).

(** [\b] holds between a word character and a character that is none (or an
end of the input). *)
Definition boundary (s : mstate) : Prop :=
  xorb (word_before s) (word_after s) = true.

(** Two texts equal up to the case of ASCII letters. *)
Definition same_folded (w t : jsstring) : Prop :=
  List.map fold_case w = List.map fold_case t.

(** The state in which a match is tried after [skipped], when the search
began after [pre]. *)
Definition start_at (pre skipped rest : list N) : mstate :=
  MState (rev skipped ++ pre) rest [].

End MatcherSpec.
(** ** The component around an upload *)

Module Store.

Import stdpp.base stdpp.gmap stdpp.strings.

(** [localStorage.removeItem(key)] *)
Definition removeItem (key : string) (st : gmap string Cache.Item)
  : gmap string Cache.Item :=
  delete key st.

End Store.

Module Component.

Import Chars JsString Regex Scanner Pipeline.

Local Open Scope upload_scope.

Definition MSG_RESTORED : jsstring :=
  0x2705%N :: str " Restored from previous scan".

Definition MSG_RESTORED_PARTIAL (n : nat) : jsstring :=
  [0x26A0; 0xFE0F]%N ++ str " Restored (" ++ digit_text n ++ str " fields)".

(** The initialiser of [statusMsg], on what [loadLastResult] gave it. *)
Definition restored_message (saved : option ExtractedRecord) : jsstring :=
  match saved with
  | None => []
  | Some saved =>
      let found := found_count saved in
      if 4 <=? found then MSG_RESTORED else MSG_RESTORED_PARTIAL found
  end.

(** The state of the component when it is mounted.  The initialisers of
[result] and of [statusMsg] each call [loadLastResult], in this order; [t1]
and [t2] are what [Date.now()] answers to the two calls. *)
Definition mount (t1 t2 : Z) (st : stdpp.gmap.gmap string Cache.Item) : World :=
  let '(restored, st1) := Cache.loadLastResult t1 st in
  let '(saved, st2) := Cache.loadLastResult t2 st1 in
  {| result := restored; loading := false; stage := [];
     statusMsg := restored_message saved; storage := st2;
     calls := []; handed := [] |}.

Definition removeLastResult : M unit :=
  modify (fun w => Build_World (result w) (loading w) (stage w) (statusMsg w)
                     (Store.removeItem Cache.LS_KEY (storage w))
                     (calls w) (handed w)).

(** The handler of the Clear button. *)
Definition handleClear : M unit :=
  removeLastResult ;; setResult None ;; setStatusMsg [].

(** *** The rows of the results card *)

Record Row : Type := {
  label : jsstring;
  value : jsval;
  mono : bool;
  badge : bool
}.

Definition LABEL_TYPE : jsstring := [0xD83D; 0xDCC4]%N ++ str " Document Type".
Definition LABEL_CARD : jsstring := [0xD83E; 0xDEAA]%N ++ str " Card Number".
Definition LABEL_NAME : jsstring := [0xD83D; 0xDC64]%N ++ str " Name".
Definition LABEL_FATHER : jsstring := [0xD83D; 0xDC68]%N ++ str " Father's Name".
Definition LABEL_GENDER : jsstring := 0x26A7%N :: str " Gender".
Definition LABEL_DOB : jsstring := [0xD83C; 0xDF82]%N ++ str " Date of Birth".
Definition LABEL_AADHAAR : jsstring := [0xD83E; 0xDEAA]%N ++ str " Aadhaar Number".

(** [v ?? "Not found"] *)
Definition or_sentinel (v : jsval) : jsval :=
  match v with
  | JNull => JStr NOT_FOUND
  | JStr s => JStr s
  end.

(** [v === s] for a string [s] *)
Definition is_text (v : jsval) (s : jsstring) : bool :=
  match v with
  | JNull => false
  | JStr t => jsstring_eqb t s
  end.

Definition rows (result : option ExtractedRecord) : list Row :=
  match result with
  | Some result =>
      if is_text (docType result) (str "Voter ID")
      then
        [ {| label := LABEL_TYPE; value := docType result; mono := false; badge := true |};
          {| label := LABEL_CARD; value := or_sentinel (cardNo result); mono := true; badge := false |};
          {| label := LABEL_NAME; value := or_sentinel (name result); mono := false; badge := false |};
          {| label := LABEL_FATHER; value := or_sentinel (fatherName result); mono := false; badge := false |};
          {| label := LABEL_GENDER; value := or_sentinel (gender result); mono := false; badge := false |};
          {| label := LABEL_DOB; value := or_sentinel (dob result); mono := false; badge := false |} ]
      else
        [ {| label := LABEL_TYPE; value := docType result; mono := false; badge := true |};
          {| label := LABEL_NAME; value := or_sentinel (name result); mono := false; badge := false |};
          {| label := LABEL_DOB; value := or_sentinel (dob result); mono := false; badge := false |};
          {| label := LABEL_AADHAAR; value := or_sentinel (aadhaar result); mono := true; badge := false |};
          {| label := LABEL_GENDER; value := or_sentinel (gender result); mono := false; badge := false |} ]
  | None => []
  end.

Definition GREEN : jsstring := str "#2e7d32".
Definition ORANGE : jsstring := str "#e65100".
Definition RED : jsstring := str "#c62828".

Definition statusColor (statusMsg : jsstring) : jsstring :=
  if startsWith statusMsg [0x2705]%N then GREEN
  else if startsWith statusMsg [0x26A0; 0xFE0F]%N then ORANGE else RED.

End Component.

(** ** The pages that show a record: [DocumentResult.jsx], [AadhaarPage.jsx]
and [VoterIdPage.jsx] *)

Module Pages.

Import Chars JsString Scanner Component.

(** [data.key] on the object the extractors build: its keys are the seven
fields of the record, any other key reads as [undefined] ([None]). *)
Definition get (data : ExtractedRecord) (key : string) : option jsval :=
  if String.eqb key "docType" then Some (docType data)
  else if String.eqb key "name" then Some (name data)
  else if String.eqb key "dob" then Some (dob data)
  else if String.eqb key "gender" then Some (gender data)
  else if String.eqb key "aadhaar" then Some (aadhaar data)
  else if String.eqb key "cardNo" then Some (cardNo data)
  else if String.eqb key "fatherName" then Some (fatherName data)
  else None.

(** [data.key ?? "Not found"] *)
Definition cell (data : ExtractedRecord) (key : string) : jsstring :=
  match get data key with
  | Some (JStr s) => s
  | _ => NOT_FOUND
  end.

(** The component that [DocumentResult] returns. *)
Inductive Page : Type :=
| AadhaarPage
| VoterIdPage
| IncomePage
| Unsupported (shown : jsstring).

Definition NO_TEXT : jsstring := str "No OCR text available".

(** [result.raw || "No OCR text available"] *)
Definition raw_or_default (result : ExtractedRecord) : jsstring :=
  match get result "raw" with
  | Some (JStr (c :: s)) => c :: s
  | _ => NO_TEXT
  end.

(** [None] is [null], when there is no result. *)
Definition DocumentResult (result : option ExtractedRecord) : option Page :=
  match result with
  | None => None
  | Some result =>
      match docType result with
      | JStr t =>
          let key := toLowerCase t in
          if (jsstring_eqb key (str "aadhaar card") || jsstring_eqb key (str "aadhaar"))%bool
          then Some AadhaarPage
          else if (jsstring_eqb key (str "voter id") || jsstring_eqb key (str "voter"))%bool
          then Some VoterIdPage
          else if (jsstring_eqb key (str "income proof") || jsstring_eqb key (str "income"))%bool
          then Some IncomePage
          else Some (Unsupported (raw_or_default result))
      | JNull => Some (Unsupported (raw_or_default result))
      end
  end.

(** The table of [AadhaarPage]: the label and the text of each row. *)
Definition aadhaar_table (data : ExtractedRecord) : list (jsstring * jsstring) :=
  [ (str "Name", cell data "name");
    (str "Date of Birth", cell data "dobRaw");
    (str "Gender", cell data "gender");
    (str "Aadhaar No.", cell data "aadhaar") ].

(** The table of [VoterIdPage]; the apostrophe of its second label is
U+2019. *)
Definition voter_table (data : ExtractedRecord) : list (jsstring * jsstring) :=
  [ (str "Name", cell data "name");
    (str "Father" ++ [0x2019%N] ++ str "s Name", cell data "fatherName");
    (str "Date of Birth", cell data "dob");
    (str "Gender", cell data "gender");
    (str "Card No.", cell data "cardNo") ].

End Pages.
(** ** Vocabulary for the storage, the calls of a run and the shapes of fields *)

Module StoreSpec.

Import stdpp.base stdpp.gmap stdpp.strings.

(** What the storage holds under [key]. *)
Definition entry (key : string) (st : gmap string Cache.Item) : option Cache.Item :=
  st !! key.

(** A storage with one entry. *)
Definition only (key : string) (item : Cache.Item) : gmap string Cache.Item :=
  <[key := item]> empty.

End StoreSpec.

Module Shapes.

Import Chars JsString Regex Scanner Pipeline Spec.

(** A recognition call that returned [text]. *)
Definition read (label : string) (blob : Blob) (text : jsstring) : Call :=
  {| call_label := str label; call_blob := blob; call_outcome := Returns text |}.

(** The three regions read from a voter card and from an Aadhaar card. *)
Definition voter_calls (t0 t1 t2 : jsstring) : list Call :=
  [ read "detect" (Crop 0 0 100 22) t0;
    read "voter-orig" (Crop 0 0 100 100) t1;
    read "voter-2x" (Enhanced 2 180) t2 ].

Definition aadhaar_calls (t0 t1 t2 : jsstring) : list Call :=
  [ read "detect" (Crop 0 0 100 22) t0;
    read "aadhaar-r1" (Crop 33 10 67 62) t1;
    read "aadhaar-r2" (Crop 5 72 90 12) t2 ].

(** How a run that made the calls [made] came to its end: in its last
recognition call, whose outcome was [o], every earlier call having returned;
or at the canvas, which answered [res] for a sub-image that was therefore
never submitted, after at most two calls that had all returned. *)
Definition ended_in_call (made : list Call) (o : Outcome jsstring) : Prop :=
  exists earlier c,
    made = earlier ++ [c] /\ call_outcome c = o /\ Forall returned earlier.

Definition ended_at_canvas (cap : Capabilities) (made : list Call)
  (res : CanvasResult) : Prop :=
  exists b,
    canvas cap b = res /\ Forall returned made /\ length made <= 2 /\
    ~ In b (List.map call_blob made).

(** The run was rejected with [err]: by the library, or by one of the two
rejections that the canvas helpers make. *)
Definition rejected (cap : Capabilities) (made : list Call) (err : Thrown)
  : Prop :=
  ended_in_call made (Throws err) \/
  (ended_at_canvas cap made ImageLoadFailed /\
   err = ThrownError (str "Image load failed")) \/
  (ended_at_canvas cap made ToBlobFailed /\
   err = ThrownError (str "toBlob failed")).

(** The run waits for ever, for the library or for the canvas. *)
Definition stuck (cap : Capabilities) (made : list Call) : Prop :=
  ended_in_call made Pending \/ ended_at_canvas cap made Stuck.

(** A library that rejects the first call with [null]; the engine's
complaint is the one of V8. *)
Definition null_library : Capabilities :=
  {| canvas := fun _ => Made;
     recognize := fun _ =>
       Throws (ThrownNullish
                 (str "Cannot read properties of null (reading 'message')"));
     clock := 1700000000000;
     writable := true |}.

(** A library whose first call never settles. *)
Definition silent_library : Capabilities :=
  {| canvas := fun _ => Made;
     recognize := fun _ => Pending;
     clock := 1700000000000;
     writable := true |}.

(** A file that the browser cannot decode: every sub-image is refused. *)
Definition broken_image : Capabilities :=
  {| canvas := fun _ => ImageLoadFailed;
     recognize := fun _ => Returns [];
     clock := 1700000000000;
     writable := true |}.

(** A world whose storage holds an entry of another part of the site. *)
Definition themed_world : World :=
  {| result := None; loading := false; stage := []; statusMsg := [];
     storage := StoreSpec.only "theme" Cache.Unreadable; calls := []; handed := [] |}.

(** The row is not drawn as a missing value: [value === Q] with Q the
sentinel is false. *)
Definition shows_value (row : Component.Row) : bool :=
  negb (Component.is_text (Component.value row) NOT_FOUND).

(** [n] decimal digits. *)
Definition digits (n : nat) (w : jsstring) : Prop :=
  all is_digit w /\ length w = n.

(** A text of the date pattern: a day and a month of one or two digits and a
year of four, with a separator after the day and one after the month, each a
hyphen, a slash or a period. *)
Definition date_shaped (raw d1 : jsstring) (s1 : N) (d2 : jsstring) (s2 : N)
  (y : jsstring) : Prop :=
  raw = d1 ++ s1 :: d2 ++ s2 :: y /\
  all is_digit d1 /\ 1 <= length d1 <= 2 /\ is_date_sep s1 = true /\
  all is_digit d2 /\ 1 <= length d2 <= 2 /\ is_date_sep s2 = true /\
  digits 4 y.

Definition pattern_date (raw : jsstring) : Prop :=
  exists d1 s1 d2 s2 y, date_shaped raw d1 s1 d2 s2 y.

(** The number that the digits of [y] write. *)
Definition year_of (y : jsstring) : Z := digits_value 0 y.

Definition year_in_bounds (y : jsstring) : bool :=
  ((1900 <=? year_of y) && (year_of y <=? 2020))%Z.

(** Two digits, a slash, two digits, a slash, and four digits that write a
year from 1900 to 2020. *)
Definition well_formed_dob (s : jsstring) : Prop :=
  exists d m y,
    s = d ++ str "/" ++ m ++ str "/" ++ y /\
    digits 2 d /\ digits 2 m /\ digits 4 y /\
    (1900 <= year_of y <= 2020)%Z.

(** A code unit of a titled name: an ASCII letter, a period or a blank
(U+0020), and those of its words: a letter or a period. *)
Definition is_titled_char (c : N) : bool :=
  (is_alpha c || N.eqb c 46 || N.eqb c 32)%bool.

Definition is_word_char (c : N) : bool := (is_alpha c || N.eqb c 46)%bool.

(** A name in its titled form: an upper-case letter, then letters, periods
and blanks. *)
Definition titled (s : jsstring) : Prop :=
  exists c w, s = c :: w /\ is_upper c = true /\ all is_titled_char w.

(** A later word of a voter's name as the pattern reads it: white space, an
upper-case letter and at most one lower-case letter. *)
Definition short_word (g : jsstring) : Prop :=
  exists ws u l,
    g = ws ++ u :: l /\
    all is_space ws /\ 1 <= length ws /\
    is_upper u = true /\ all is_lower l /\ length l <= 1.

(** A code unit of the capture of a father's name. *)
Definition is_father_char (c : N) : bool := (is_alpha c || is_space c)%bool.

(** A voter card with a labelled father's name, and the match of the
father pattern in it. *)
Definition father_text : jsstring :=
  str "SOL3248432" ++ LF ++ str "Father's Name : Soundararajan  K  " ++ LF
  ++ str "Sex: Male".

Definition father_match : found :=
  match search re_father (father_text ++ LF ++ []) with
  | Some m => m
  | None => Found [] (MState [] [] []) (MState [] [] [])
  end.

End Shapes.

(** * Properties *)

(** ** The matcher *)

Module RegexFacts.

Import Chars JsString Regex MatcherSpec.

Lemma reads_nil (s : mstate) : reads s [] s.
Proof. split; reflexivity. Qed.

Lemma reads_app (s m e : mstate) (w1 w2 : jsstring) :
  reads s w1 m -> reads m w2 e -> reads s (w1 ++ w2) e.
Proof.
  intros [A1 B1] [A2 B2]. split.
  - rewrite A1, A2, app_assoc. reflexivity.
  - rewrite B2, B1, rev_app_distr, app_assoc. reflexivity.
Qed.

Lemma reads_length (s e : mstate) (w : jsstring) :
  reads s w e -> length (after s) = length w + length (after e).
Proof. intros [A _]. rewrite A, length_app. reflexivity. Qed.

Lemma reads_consumed (s e : mstate) (w : jsstring) :
  reads s w e -> consumed s e = w.
Proof.
  intros [A _]. unfold consumed. rewrite A, length_app.
  replace (length w + length (after e) - length (after e)) with (length w) by lia.
  rewrite firstn_app, firstn_all, Nat.sub_diag. simpl. apply app_nil_r.
Qed.

Lemma reads_inj (s e : mstate) (w1 w2 : jsstring) :
  reads s w1 e -> reads s w2 e -> w1 = w2.
Proof.
  intros H1 H2. rewrite <- (reads_consumed H1). apply reads_consumed. exact H2.
Qed.

Lemma extends_refl (s : mstate) : extends s s.
Proof. exists []. apply reads_nil. Qed.

Lemma extends_trans (s m e : mstate) : extends s m -> extends m e -> extends s e.
Proof. intros [w1 H1] [w2 H2]. exists (w1 ++ w2). eapply reads_app; eassumption. Qed.

Lemma reads_progressed (s e : mstate) (w : jsstring) :
  reads s w e -> progressed s e = negb (Nat.eqb (length w) 0).
Proof.
  intros H. unfold progressed. rewrite (reads_length H).
  destruct w; simpl.
  - rewrite Nat.eqb_refl. reflexivity.
  - destruct (Nat.eqb_spec (length (after e)) (S (length w + length (after e))));
      [lia | reflexivity].
Qed.

Section RepeatFacts.

Variable step : mstate -> list mstate.

Lemma in_rep_req (lo : nat) (k : mstate -> list mstate) :
  forall s e, In e (rep_req step lo k s) <->
              exists m, steps step lo s m /\ In e (k m).
Proof.
  induction lo as [| lo IH]; intros s e; simpl.
  - split.
    + intros H. exists s. auto.
    + intros (m & -> & H). exact H.
  - rewrite in_flat_map. split.
    + intros (s1 & H1 & H2). apply IH in H2. destruct H2 as (m & Hm & He).
      exists m. split; [exists s1; auto | exact He].
    + intros (m & (s1 & H1 & Hm) & He). exists s1. split; [exact H1 | ].
      apply IH. exists m. auto.
Qed.

Lemma in_rep_opt (n : nat) :
  forall s e, In e (rep_opt step n s) <-> exists j, j <= n /\ psteps step j s e.
Proof.
  induction n as [| n IH]; intros s e; simpl.
  - split.
    + intros [<- | []]. exists 0. split; [lia | reflexivity].
    + intros (j & Hj & H). assert (j = 0) by lia. subst j. simpl in H. auto.
  - rewrite in_app_iff, in_flat_map. split.
    + intros [(s1 & H1 & H2) | [<- | []]].
      * apply filter_In in H1. destruct H1 as [H1 Hp].
        apply IH in H2. destruct H2 as (j & Hj & H2).
        exists (S j). split; [lia | ]. exists s1. auto.
      * exists 0. split; [lia | reflexivity].
    + intros (j & Hj & H). destruct j as [| j]; simpl in H.
      * right. left. auto.
      * destruct H as (s1 & H1 & Hp & H2). left. exists s1. split.
        -- apply filter_In. auto.
        -- apply IH. exists j. split; [lia | exact H2].
Qed.

Hypothesis step_extends : forall s e, In e (step s) -> extends s e.

Lemma steps_extends (n : nat) : forall s m, steps step n s m -> extends s m.
Proof.
  induction n as [| n IH]; intros s m; simpl.
  - intros ->. apply extends_refl.
  - intros (s1 & H1 & H2). eapply extends_trans; eauto.
Qed.

Lemma psteps_steps (n : nat) : forall s m, psteps step n s m -> steps step n s m.
Proof.
  induction n as [| n IH]; intros s m; simpl; auto.
  intros (s1 & H1 & _ & H2). exists s1. auto.
Qed.

Lemma psteps_bound (n : nat) :
  forall s m, psteps step n s m -> n + length (after m) <= length (after s).
Proof.
  induction n as [| n IH]; intros s m; simpl.
  - intros ->. lia.
  - intros (s1 & H1 & Hp & H2). apply IH in H2.
    destruct (step_extends _ _ H1) as [w Hw].
    rewrite (reads_progressed Hw) in Hp. pose proof (reads_length Hw).
    destruct w; simpl in *; [discriminate | lia].
Qed.

End RepeatFacts.

(** A quantifier: the required iterations, then optional ones that each
read something, no more of them than the bound allows. *)
Lemma in_run_rep (lo : nat) (hi : option nat) (r : regex)
  (IH : forall s e, In e (run r s) -> extends s e) (s e : mstate) :
  In e (run (Rep lo hi r) s) <->
  exists m j, steps (run r) lo s m /\ psteps (run r) j m e /\
              match hi with Some h => j <= h - lo | None => True end.
Proof.
  simpl. rewrite in_rep_req. split.
  - intros (m & Hm & He). apply in_rep_opt in He. destruct He as (j & Hj & He).
    exists m, j. repeat split; auto. destruct hi; auto.
  - intros (m & j & Hm & He & Hj). exists m. split; [exact Hm | ].
    apply in_rep_opt. exists j. split; [ | exact He].
    destruct hi; [exact Hj | ].
    pose proof (@psteps_bound (run r) IH j m e He). lia.
Qed.

(** The matcher only moves forward in the input. *)
Lemma run_extends (r : regex) : forall s e, In e (run r s) -> extends s e.
Proof.
  induction r as [| p | r1 IH1 r2 IH2 | r1 IH1 r2 IH2 | lo hi r IH | n r IH | | | ];
    intros s e H.
  - simpl in H. destruct H as [<- | []]. apply extends_refl.
  - simpl in H. destruct (after s) as [| c rest] eqn:E; [destruct H | ].
    destruct (p c); [ | destruct H]. destruct H as [<- | []].
    exists [c]. split; simpl; auto.
  - simpl in H. apply in_flat_map in H. destruct H as (m & H1 & H2).
    eapply extends_trans; eauto.
  - simpl in H. apply in_app_iff in H. destruct H; auto.
  - apply (@in_run_rep lo hi r IH) in H. destruct H as (m & j & Hm & He & _).
    eapply extends_trans.
    + eapply (@steps_extends (run r) IH); eauto.
    + eapply (@steps_extends (run r) IH). eapply psteps_steps; eauto.
  - simpl in H. apply in_map_iff in H. destruct H as (e0 & <- & H).
    destruct (IH _ _ H) as [w Hw]. exists w. exact Hw.
  - simpl in H. destruct (before s); [ | destruct H].
    destruct H as [<- | []]. apply extends_refl.
  - simpl in H. destruct (after s); [ | destruct H].
    destruct H as [<- | []]. apply extends_refl.
  - simpl in H. destruct (xorb _ _); [ | destruct H].
    destruct H as [<- | []]. apply extends_refl.
Qed.

End RegexFacts.

(** ** Classes, literals and their repetitions *)

Module ClassFacts.

Import Chars JsString Regex Spec MatcherSpec RegexFacts.

Lemma moves_reads (s e : mstate) (w : jsstring) : moves s w e -> reads s w e.
Proof. intros (A & B & _). split; assumption. Qed.

Lemma moves_nil (s e : mstate) : moves s [] e <-> e = s.
Proof.
  split.
  - intros (A & B & C). destruct s, e. simpl in *. congruence.
  - intros ->. repeat split.
Qed.

Lemma moves_app (s m e : mstate) (w1 w2 : jsstring) :
  moves s w1 m -> moves m w2 e -> moves s (w1 ++ w2) e.
Proof.
  intros (A1 & B1 & C1) (A2 & B2 & C2). repeat split.
  - rewrite A1, A2, app_assoc. reflexivity.
  - rewrite B2, B1, rev_app_distr, app_assoc. reflexivity.
  - congruence.
Qed.

Lemma moves_jump (s e : mstate) (w : jsstring) :
  moves s w e <-> after s = w ++ after e /\ e = jump s w (after e).
Proof.
  unfold moves, jump. split.
  - intros (A & B & C). split; [exact A | ]. destruct e; simpl in *. congruence.
  - intros (A & ->). simpl in *. auto.
Qed.

Lemma moves_split (s e : mstate) (w1 w2 : jsstring) :
  moves s (w1 ++ w2) e ->
  moves s w1 (jump s w1 (w2 ++ after e)) /\ moves (jump s w1 (w2 ++ after e)) w2 e.
Proof.
  intros (A & B & C). unfold jump. repeat split; simpl.
  - rewrite A, app_assoc. reflexivity.
  - rewrite B, rev_app_distr, app_assoc. reflexivity.
  - exact C.
Qed.

Lemma in_run_class (p : N -> bool) (s e : mstate) :
  In e (run (Class p) s) <-> exists c, p c = true /\ moves s [c] e.
Proof.
  simpl. split.
  - intros H. destruct (after s) as [| c rest] eqn:E; [destruct H | ].
    destruct (p c) eqn:Hp; [ | destruct H]. destruct H as [<- | []].
    exists c. repeat split; auto.
  - intros (c & Hp & A & B & C). rewrite A. simpl. rewrite Hp. left.
    destruct e; simpl in *. congruence.
Qed.

Lemma in_run_cat (r1 r2 : regex) (s e : mstate) :
  In e (run (Cat r1 r2) s) <-> exists m, In m (run r1 s) /\ In e (run r2 m).
Proof. simpl. apply in_flat_map. Qed.

Lemma in_run_alt (r1 r2 : regex) (s e : mstate) :
  In e (run (Alt r1 r2) s) <-> In e (run r1 s) \/ In e (run r2 s).
Proof. simpl. apply in_app_iff. Qed.

Lemma in_run_group (n : nat) (r : regex) (s e : mstate) :
  In e (run (Group n r) s) <->
  exists e0, In e0 (run r s) /\ e = set_cap n (consumed s e0) e0.
Proof.
  simpl. rewrite in_map_iff. split; intros (e0 & A & B); exists e0; auto.
Qed.

Lemma in_run_bol (s e : mstate) :
  In e (run Bol s) <-> e = s /\ before s = [].
Proof.
  simpl. destruct (before s); simpl; split.
  - intros [<- | []]. auto.
  - intros [-> _]. auto.
  - intros [].
  - intros [_ H]. discriminate H.
Qed.

Lemma in_run_eol (s e : mstate) :
  In e (run Eol s) <-> e = s /\ after s = [].
Proof.
  simpl. destruct (after s); simpl; split.
  - intros [<- | []]. auto.
  - intros [-> _]. auto.
  - intros [].
  - intros [_ H]. discriminate H.
Qed.

Lemma in_run_wordb (s e : mstate) :
  In e (run WordB s) <-> e = s /\ boundary s.
Proof.
  unfold boundary. simpl. destruct (xorb _ _); simpl; split.
  - intros [<- | []]. auto.
  - intros [-> _]. auto.
  - intros [].
  - intros [_ H]. discriminate H.
Qed.

Lemma in_run_seq_cons (r : regex) (rs : list regex) (s e : mstate) :
  In e (run (seq (r :: rs)) s) <->
  exists m, In m (run r s) /\ In e (run (seq rs) m).
Proof.
  destruct rs as [| r' rs].
  - change (seq [r]) with r. split.
    + intros H. exists e. simpl. auto.
    + intros (m & H & Hm). simpl in Hm. destruct Hm as [<- | []]. exact H.
  - change (seq (r :: r' :: rs)) with (Cat r (seq (r' :: rs))). apply in_run_cat.
Qed.

Lemma in_run_seq_nil (s e : mstate) : In e (run (seq []) s) <-> e = s.
Proof. simpl. split; [intros [<- | []]; reflexivity | intros ->; auto]. Qed.

Lemma in_run_alt_list (rs : list regex) (s e : mstate) :
  In e (run (alt rs) s) <-> exists r, In r rs /\ In e (run r s).
Proof.
  induction rs as [| r rs IH].
  - split; [ | intros (r & [] & _)].
    intros H. apply in_run_class in H. destruct H as (c & Hc & _). discriminate Hc.
  - destruct rs as [| r' rs].
    + simpl. split.
      * intros H. exists r. auto.
      * intros (r0 & [<- | []] & H). exact H.
    + change (alt (r :: r' :: rs)) with (Alt r (alt (r' :: rs))).
      rewrite in_run_alt, IH. split.
      * intros [H | (r0 & Hr & H)]; [exists r | exists r0]; simpl; auto.
      * intros (r0 & [<- | Hr] & H); [left | right; exists r0]; auto.
Qed.

(** A literal reads exactly its text. *)
Lemma in_run_lit (t : jsstring) : forall s e, In e (run (lit t) s) <-> moves s t e.
Proof.
  unfold lit. induction t as [| c t IH]; intros s e.
  - simpl List.map. rewrite in_run_seq_nil, moves_nil. reflexivity.
  - simpl List.map. rewrite in_run_seq_cons. split.
    + intros (m & Hm & He). apply in_run_class in Hm.
      destruct Hm as (c' & Hc & Hm). apply N.eqb_eq in Hc. subst c'.
      apply IH in He. apply (moves_app Hm He).
    + intros H. change (c :: t) with ([c] ++ t) in H. apply moves_split in H.
      destruct H as [H1 H2]. eexists. split.
      * apply in_run_class. exists c. split; [apply N.eqb_refl | exact H1].
      * apply IH. exact H2.
Qed.

(** Under the [i] flag a literal reads a text equal to its own up to the case
of ASCII letters. *)
Lemma in_run_lit_i (t : jsstring) :
  forall s e, In e (run (lit_i t) s) <-> exists w, same_folded w t /\ moves s w e.
Proof.
  unfold lit_i, same_folded. induction t as [| c t IH]; intros s e.
  - simpl List.map. rewrite in_run_seq_nil. split.
    + intros ->. exists []. split; [reflexivity | apply moves_nil; reflexivity].
    + intros (w & Hw & H). destruct w; [ | discriminate Hw].
      apply moves_nil. exact H.
  - simpl List.map. rewrite in_run_seq_cons. split.
    + intros (m & Hm & He). apply in_run_class in Hm.
      destruct Hm as (c' & Hc & Hm). apply N.eqb_eq in Hc.
      apply IH in He. destruct He as (w & Hw & He).
      exists (c' :: w). split; [simpl; congruence | ].
      apply (moves_app Hm He).
    + intros (w & Hw & H). destruct w as [| c' w]; [discriminate Hw | ].
      simpl in Hw. injection Hw as Hc Hw.
      change (c' :: w) with ([c'] ++ w) in H. apply moves_split in H.
      destruct H as [H1 H2]. eexists. split.
      * apply in_run_class. exists c'. split; [apply N.eqb_eq; exact Hc | exact H1].
      * apply IH. exists w. auto.
Qed.

(** Iterating a class reads a run of its members. *)
Lemma steps_class (p : N -> bool) (n : nat) :
  forall s m, steps (run (Class p)) n s m <->
              exists w, length w = n /\ all p w /\ moves s w m.
Proof.
  induction n as [| n IH]; intros s m; simpl steps.
  - split.
    + intros ->. exists []. repeat split. constructor.
    + intros (w & Hl & _ & H). destruct w; [ | discriminate Hl].
      apply moves_nil. exact H.
  - split.
    + intros (s1 & H1 & H2). apply in_run_class in H1.
      destruct H1 as (c & Hc & H1). apply IH in H2.
      destruct H2 as (w & Hl & Hw & H2). exists (c :: w). repeat split.
      * simpl. congruence.
      * constructor; assumption.
      * apply (moves_app H1 H2).
      * apply (moves_app H1 H2).
      * apply (moves_app H1 H2).
    + intros (w & Hl & Hw & H). destruct w as [| c w]; [discriminate Hl | ].
      inversion Hw as [| c0 w0 Hc Hw']; subst. change (c :: w) with ([c] ++ w) in H.
      apply moves_split in H. destruct H as [M1 M2]. eexists. split.
      * apply in_run_class. exists c. split; [assumption | exact M1].
      * apply IH. exists w. split; [simpl in Hl; lia | split; [assumption | exact M2]].
Qed.

Lemma psteps_class (p : N -> bool) (n : nat) :
  forall s m, psteps (run (Class p)) n s m <-> steps (run (Class p)) n s m.
Proof.
  induction n as [| n IH]; intros s m; simpl; [reflexivity | ].
  split.
  - intros (s1 & H1 & _ & H2). exists s1. split; [exact H1 | apply IH; exact H2].
  - intros (s1 & H1 & H2). exists s1. split; [exact H1 | ]. split; [ | apply IH; exact H2].
    apply in_run_class in H1. destruct H1 as (c & _ & H1).
    rewrite (reads_progressed (moves_reads H1)). reflexivity.
Qed.

(** A quantified class reads a run of members of the class whose length is
within the bounds. *)
Lemma in_run_rep_class (p : N -> bool) (lo : nat) (hi : option nat) (s e : mstate) :
  In e (run (Rep lo hi (Class p)) s) <->
  exists w, all p w /\ moves s w e /\ lo <= length w /\
            match hi with Some h => length w <= lo + (h - lo) | None => True end.
Proof.
  rewrite (@in_run_rep lo hi (Class p) (@run_extends (Class p))). split.
  - intros (m & j & Hm & He & Hj). apply steps_class in Hm.
    apply psteps_class in He. apply steps_class in He.
    destruct Hm as (w1 & L1 & P1 & M1). destruct He as (w2 & L2 & P2 & M2).
    exists (w1 ++ w2). repeat split.
    + apply Forall_app. auto.
    + apply (moves_app M1 M2).
    + apply (moves_app M1 M2).
    + apply (moves_app M1 M2).
    + rewrite length_app. lia.
    + destruct hi; [ | exact I]. rewrite length_app. lia.
  - intros (w & Pw & Mw & Hlo & Hhi).
    rewrite <- (firstn_skipn lo w) in Mw. apply moves_split in Mw.
    destruct Mw as [M1 M2]. rewrite <- (firstn_skipn lo w) in Pw.
    apply Forall_app in Pw. destruct Pw as [P1 P2].
    eexists. exists (length (skipn lo w)). split; [ | split].
    + apply steps_class. exists (firstn lo w).
      split; [apply firstn_length_le; exact Hlo | split; [exact P1 | exact M1]].
    + apply psteps_class. apply steps_class. exists (skipn lo w).
      split; [reflexivity | split; [exact P2 | exact M2]].
    + destruct hi; [ | exact I]. rewrite length_skipn. lia.
Qed.

End ClassFacts.

(** ** Searching, and the string helpers *)

Module SearchFacts.

Import Chars JsString Regex MatcherSpec RegexFacts ClassFacts.

Lemma search_from_none (r : regex) :
  forall rest pre,
    search_from r pre rest = None <->
    forall skipped rest', rest = skipped ++ rest' ->
                          run r (start_at pre skipped rest') = [].
Proof.
  induction rest as [| c rest IH]; intros pre; simpl.
  - destruct (run r (MState pre [] [])) eqn:E.
    + split; [intros _ | reflexivity]. intros skipped rest' H. symmetry in H.
      apply app_eq_nil in H. destruct H; subst. exact E.
    + split; [discriminate | ]. intros H. specialize (H [] [] eq_refl).
      unfold start_at in H. simpl in H. congruence.
  - destruct (run r (MState pre (c :: rest) [])) eqn:E.
    + rewrite IH. split.
      * intros H skipped rest' Hs. destruct skipped as [| c' skipped].
        -- simpl in Hs. subst rest'. exact E.
        -- simpl in Hs. injection Hs as <- Hs. specialize (H skipped rest' Hs).
           unfold start_at in *. simpl. rewrite <- app_assoc. exact H.
      * intros H skipped rest' Hs. specialize (H (c :: skipped) rest').
        unfold start_at in *. simpl in H. rewrite <- app_assoc in H. apply H.
        congruence.
    + split; [discriminate | ]. intros H. specialize (H [] (c :: rest) eq_refl).
      unfold start_at in H. simpl in H. congruence.
Qed.

(** A successful search: the match starts after [skipped], the leftmost place
where the pattern matches, and ends in the first state the matcher lists. *)
Lemma search_from_some (r : regex) :
  forall rest pre f,
    search_from r pre rest = Some f ->
    exists skipped rest' tl,
      rest = skipped ++ rest' /\
      f_prefix f = rev skipped ++ pre /\
      f_start f = start_at pre skipped rest' /\
      run r (f_start f) = f_end f :: tl /\
      (forall sk1 sk2, skipped = sk1 ++ sk2 -> sk2 <> [] ->
                       run r (start_at pre sk1 (sk2 ++ rest')) = []).
Proof.
  induction rest as [| c rest IH]; intros pre f; simpl.
  - destruct (run r (MState pre [] [])) as [| e tl] eqn:E; [discriminate | ].
    intros H. injection H as <-. exists [], [], tl. simpl. repeat split; auto.
    intros sk1 sk2 H. symmetry in H. apply app_eq_nil in H. tauto.
  - destruct (run r (MState pre (c :: rest) [])) as [| e tl] eqn:E.
    + intros H. apply IH in H.
      destruct H as (skipped & rest' & tl & H1 & H2 & H3 & H4 & H5).
      exists (c :: skipped), rest', tl. unfold start_at in *. simpl.
      rewrite <- app_assoc. simpl. repeat split; auto; try congruence.
      intros sk1 sk2 Hs Hne. destruct sk1 as [| c' sk1].
      * simpl in Hs. subst sk2. simpl. rewrite <- H1. exact E.
      * simpl in Hs. injection Hs as <- Hs. simpl. rewrite <- app_assoc.
        apply (H5 sk1 sk2 Hs Hne).
    + intros H. injection H as <-. exists [], (c :: rest), tl. simpl.
      repeat split; auto.
      intros sk1 sk2 H. symmetry in H. apply app_eq_nil in H. tauto.
Qed.

Lemma search_some (r : regex) (s : jsstring) (f : found) :
  search r s = Some f ->
  exists skipped w tl,
    s = skipped ++ w ++ after (f_end f) /\
    f_prefix f = rev skipped /\
    f_start f = start_at [] skipped (w ++ after (f_end f)) /\
    run r (f_start f) = f_end f :: tl /\
    reads (f_start f) w (f_end f) /\
    matched f = w.
Proof.
  intros H. apply search_from_some in H.
  destruct H as (skipped & rest' & tl & H1 & H2 & H3 & H4 & _).
  assert (Hin : In (f_end f) (run r (f_start f))) by (rewrite H4; left; reflexivity).
  destruct (run_extends _ _ _ Hin) as [w Hw].
  assert (Hr : rest' = w ++ after (f_end f)).
  { destruct Hw as [A _]. rewrite H3 in A. exact A. }
  exists skipped, w, tl. rewrite app_nil_r in H2. subst rest'.
  repeat split; auto; try apply Hw.
  unfold matched. apply reads_consumed. exact Hw.
Qed.

Lemma test_true (r : regex) (s : jsstring) :
  test r s = true <->
  exists skipped rest e, s = skipped ++ rest /\ In e (run r (start_at [] skipped rest)).
Proof.
  unfold test, search. destruct (search_from r [] s) as [f | ] eqn:E.
  - split; [intros _ | reflexivity].
    apply search_from_some in E.
    destruct E as (skipped & rest' & tl & H1 & H2 & H3 & H4 & _).
    exists skipped, rest', (f_end f). split; [exact H1 | ].
    rewrite <- H3, H4. left. reflexivity.
  - split; [discriminate | ]. intros (skipped & rest & e & Hs & He).
    rewrite search_from_none in E. rewrite (E skipped rest Hs) in He. destruct He.
Qed.

Lemma remove_first_some (r : regex) (s : jsstring) (f : found) :
  search r s = Some f ->
  exists skipped w,
    s = skipped ++ w ++ after (f_end f) /\
    remove_first r s = skipped ++ after (f_end f) /\
    reads (f_start f) w (f_end f) /\
    f_start f = start_at [] skipped (w ++ after (f_end f)).
Proof.
  intros H. unfold remove_first. rewrite H. apply search_some in H.
  destruct H as (skipped & w & tl & H1 & H2 & H3 & H4 & H5 & H6).
  exists skipped, w. rewrite H2, rev_involutive. auto.
Qed.

(** *** Unfolding the search and the loop *)

Lemma search_from_nil (r : regex) (pre : list N) :
  search_from r pre [] =
  match run r (MState pre [] []) with
  | e :: _ => Some (Found pre (MState pre [] []) e)
  | [] => None
  end.
Proof. reflexivity. Qed.

Lemma search_from_cons (r : regex) (pre rest : list N) (c : N) :
  search_from r pre (c :: rest) =
  match run r (MState pre (c :: rest) []) with
  | e :: _ => Some (Found pre (MState pre (c :: rest) []) e)
  | [] => search_from r (c :: pre) rest
  end.
Proof. reflexivity. Qed.

Lemma jump_nil (s : mstate) : jump s [] (after s) = s.
Proof. destruct s. reflexivity. Qed.

Lemma jump_nil_end (s : mstate) : after s = [] -> jump s [] [] = s.
Proof. intros A. rewrite <- A at 2. apply jump_nil. Qed.

Lemma jump_nil_at (s : mstate) (rest : list N) : after s = rest -> jump s [] rest = s.
Proof. intros <-. apply jump_nil. Qed.

Lemma jump_cons (s : mstate) (c : N) (w rest rest0 : jsstring) :
  jump (jump s [c] rest0) w rest = jump s (c :: w) rest.
Proof. unfold jump. simpl. rewrite <- app_assoc. reflexivity. Qed.

Lemma flat_map_one (A B : Type) (f : A -> list B) (x : A) : flat_map f [x] = f x.
Proof. simpl. apply app_nil_r. Qed.

Lemma progressed_jump (s : mstate) (c : N) (rest : list N) :
  after s = c :: rest -> progressed s (jump s [c] rest) = true.
Proof.
  intros A. unfold progressed. simpl. rewrite A. simpl.
  destruct (Nat.eqb_spec (length rest) (S (length rest))); [lia | reflexivity].
Qed.

Lemma run_class_hit (p : N -> bool) (s : mstate) (c : N) (rest : list N) :
  after s = c :: rest -> p c = true -> run (Class p) s = [jump s [c] rest].
Proof. intros A Hp. simpl. rewrite A, Hp. reflexivity. Qed.

Lemma run_class_miss (p : N -> bool) (s : mstate) :
  (after s = [] \/ exists c rest, after s = c :: rest /\ p c = false) ->
  run (Class p) s = [].
Proof.
  intros [A | (c & rest & A & Hp)]; simpl; rewrite A; [ | rewrite Hp]; reflexivity.
Qed.

(** *** The loop of the [g] flag *)

Lemma scan_succ (r : regex) (pre rest : list N) (fuel : nat) :
  scan r pre rest (S fuel) =
  match search_from r pre rest with
  | None => []
  | Some f =>
      f :: (if progressed (f_start f) (f_end f)
            then scan r (before (f_end f)) (after (f_end f)) fuel
            else match after (f_end f) with
                 | [] => []
                 | c :: rest' => scan r (c :: before (f_end f)) rest' fuel
                 end)
  end.
Proof. reflexivity. Qed.

Lemma scan_skip (r : regex) (pre rest : list N) (c : N) (fuel : nat) :
  run r (MState pre (c :: rest) []) = [] ->
  scan r pre (c :: rest) (S fuel) = scan r (c :: pre) rest (S fuel).
Proof.
  intros H. rewrite !scan_succ, search_from_cons, H. reflexivity.
Qed.

Lemma scan_end (r : regex) (pre : list N) (fuel : nat) :
  run r (MState pre [] []) = [] -> scan r pre [] fuel = [].
Proof.
  intros H. destruct fuel; [reflexivity | ].
  rewrite scan_succ, search_from_nil, H. reflexivity.
Qed.

Lemma scan_hit (r : regex) (pre rest : list N) (c : N) (fuel : nat)
  (e : mstate) (tl : list mstate) :
  run r (MState pre (c :: rest) []) = e :: tl ->
  length (after e) <= length rest ->
  scan r pre (c :: rest) (S fuel)
  = Found pre (MState pre (c :: rest) []) e :: scan r (before e) (after e) fuel.
Proof.
  intros H Hlen. rewrite scan_succ, search_from_cons, H.
  cbn [f_start f_end]. unfold progressed. cbn [after].
  destruct (Nat.eqb_spec (length (after e)) (length (c :: rest))) as [E | _];
    [simpl in E; lia | reflexivity].
Qed.

Lemma pieces_hit (u rest : jsstring) (c : N) (pre : list N) (e : mstate)
  (fs : list found) :
  pieces (u ++ c :: rest) (Found pre (MState pre (c :: rest) []) e :: fs)
  = u :: pieces (after e) fs.
Proof.
  cbn [pieces f_start f_end after]. rewrite length_app.
  replace (length u + length (c :: rest) - length (c :: rest)) with (length u) by lia.
  rewrite firstn_app, firstn_all, Nat.sub_diag. simpl. rewrite app_nil_r. reflexivity.
Qed.

(** *** [startsWith] and [includes] *)

Lemma startsWith_spec (p : jsstring) :
  forall s, startsWith s p = true <-> exists post, s = p ++ post.
Proof.
  induction p as [| b p IH]; intros s.
  - destruct s; simpl; split; eauto.
  - destruct s as [| a s]; simpl.
    + split; [discriminate | intros (post & H); discriminate H].
    + rewrite andb_true_iff, N.eqb_eq, IH. split.
      * intros (-> & post & ->). exists post. reflexivity.
      * intros (post & H). injection H as -> ->. eauto.
Qed.

Lemma includes_spec (sub : jsstring) :
  forall s, includes s sub = true <-> exists pre post, s = pre ++ sub ++ post.
Proof.
  induction s as [| a s IH].
  - change (includes [] sub) with (startsWith [] sub || false)%bool.
    rewrite orb_false_r, startsWith_spec. split.
    + intros (post & H). exists [], post. exact H.
    + intros (pre & post & H). symmetry in H. apply app_eq_nil in H.
      destruct H as [_ H]. apply app_eq_nil in H. destruct H as [-> ->].
      exists []. reflexivity.
  - change (includes (a :: s) sub)
      with (startsWith (a :: s) sub || includes s sub)%bool.
    rewrite orb_true_iff, startsWith_spec, IH. split.
    + intros [(post & H) | (pre & post & H)].
      * exists [], post. exact H.
      * exists (a :: pre), post. simpl. congruence.
    + intros (pre & post & H). destruct pre as [| a' pre].
      * left. exists post. exact H.
      * right. simpl in H. injection H as _ H. eauto.
Qed.

End SearchFacts.

(** ** The gender extractor *)

Module GenderFacts.

Import Chars JsString Regex Scanner Spec MatcherSpec RegexFacts ClassFacts SearchFacts.

Lemma boundary_at (pre post : jsstring) (cs : list (nat * jsstring)) :
  boundary (MState (rev pre) post cs) <-> at_boundary pre post.
Proof. reflexivity. Qed.

(** The matches of the gender pattern from a given state. *)
Lemma in_run_re_gender (s e : mstate) :
  In e (run re_gender s) <->
  exists tok,
    In tok gender_tokens /\ boundary s /\ after s = tok ++ after e /\
    boundary (jump s tok (after e)) /\
    e = set_cap 1 tok (jump s tok (after e)).
Proof.
  unfold re_gender. rewrite in_run_seq_cons. split.
  - intros (m & Hm & He). apply in_run_wordb in Hm. destruct Hm as [-> Hb].
    apply in_run_seq_cons in He. destruct He as (m & Hm & He).
    apply in_run_group in Hm. destruct Hm as (e0 & He0 & ->).
    apply in_run_alt_list in He0. destruct He0 as (r & Hr & He0).
    apply in_map_iff in Hr. destruct Hr as (tok & <- & Htok).
    apply in_run_lit in He0. rewrite (reads_consumed (moves_reads He0)) in He.
    change (seq [WordB]) with WordB in He. apply in_run_wordb in He.
    destruct He as [-> He]. apply moves_jump in He0. destruct He0 as [A B].
    exists tok. simpl. rewrite <- B. repeat split; auto.
  - intros (tok & Htok & Hb & A & Hb' & ->). exists s. split.
    + apply in_run_wordb. auto.
    + apply in_run_seq_cons. exists (set_cap 1 tok (jump s tok (after e))).
      assert (Hm : moves s tok (jump s tok (after e))).
      { apply moves_jump. simpl. auto. }
      split.
      * apply in_run_group. exists (jump s tok (after e)). split.
        -- apply in_run_alt_list. exists (lit tok). split.
           ++ apply in_map_iff. eauto.
           ++ apply in_run_lit. exact Hm.
        -- rewrite (reads_consumed (moves_reads Hm)). reflexivity.
      * change (seq [WordB]) with WordB. apply in_run_wordb. split; auto.
Qed.

Lemma gender_match_token (text : jsstring) (m : found) :
  search re_gender text = Some m ->
  In (group_str 1 m) gender_tokens /\ occurs_as_word (group_str 1 m) text.
Proof.
  intros H. apply search_some in H.
  destruct H as (skipped & w & tl & Hs & Hp & Hst & Hrun & Hw & Hm).
  assert (Hin : In (f_end m) (run re_gender (f_start m)))
    by (rewrite Hrun; left; reflexivity).
  apply in_run_re_gender in Hin.
  destruct Hin as (tok & Htok & Hb & A & Hb' & He).
  assert (Hg : group_str 1 m = tok).
  { unfold group_str, group. rewrite He. simpl. reflexivity. }
  rewrite Hg. split; [exact Htok | ].
  assert (Hwt : w = tok).
  { destruct Hw as [A' _]. rewrite A in A'. apply app_inv_tail in A'. auto. }
  rewrite Hwt in *. clear Hwt. exists skipped, (after (f_end m)). split; [exact Hs | ].
  rewrite Hst in Hb, Hb'. unfold start_at in *. rewrite app_nil_r in *.
  split.
  - apply (boundary_at skipped _ []). exact Hb.
  - unfold jump in Hb'. simpl in Hb'. rewrite <- rev_app_distr in Hb'.
    apply (boundary_at (skipped ++ tok) _ []). exact Hb'.
Qed.

Lemma gender_no_match (text : jsstring) :
  search re_gender text = None <->
  ~ exists tok, In tok gender_tokens /\ occurs_as_word tok text.
Proof.
  split.
  - intros H (tok & Htok & pre & post & Ht & Hb & Hb').
    unfold search in H. rewrite search_from_none in H.
    specialize (H pre (tok ++ post) Ht).
    assert (Hin : In (set_cap 1 tok (jump (start_at [] pre (tok ++ post)) tok post))
                     (run re_gender (start_at [] pre (tok ++ post)))).
    { apply in_run_re_gender. exists tok. unfold start_at, jump. simpl.
      rewrite app_nil_r.
      split; [exact Htok | ]. split; [exact Hb | ]. split; [reflexivity | ].
      split; [ | reflexivity]. rewrite <- rev_app_distr. exact Hb'. }
    rewrite H in Hin. destruct Hin.
  - intros H. destruct (search re_gender text) as [m | ] eqn:E; [ | reflexivity].
    exfalso. apply H. exists (group_str 1 m). apply gender_match_token. exact E.
Qed.

Lemma gender_normalised (tok : jsstring) :
  In tok gender_tokens ->
  startsWith (toLowerCase tok) (str "m") = true <-> In tok latin_male_tokens.
Proof.
  intros H. simpl in H.
  repeat (destruct H as [<- | H];
          [first [ vm_compute; split; [auto | intros _; reflexivity]
                 | vm_compute; split; [discriminate | intuition discriminate] ] | ]).
  destruct H.
Qed.

Lemma gender_of_match (text : jsstring) (m : found) :
  search re_gender text = Some m ->
  extractGender text =
  if startsWith (toLowerCase (group_str 1 m)) (str "m") then str "Male" else str "Female".
Proof. intros H. unfold extractGender. rewrite H. reflexivity. Qed.

(** C6, as the code has it.  The extractor reports [Not found] exactly when
none of the eight tokens of the pattern ([Male], [Female], [MALE], [FEMALE]
and the four Tamil ones, in these spellings only) occurs between two word
boundaries; otherwise the first match is one of the eight tokens, it is
normalised to [Male] when it is [Male] or [MALE] and to [Female] when it is
any other token; so the result is always one of the three strings. *)
Theorem gender_extractor_outcomes (text : jsstring) :
  (extractGender text = NOT_FOUND <->
   ~ exists tok, In tok gender_tokens /\ occurs_as_word tok text) /\
  (forall m, search re_gender text = Some m ->
     In (group_str 1 m) gender_tokens /\
     occurs_as_word (group_str 1 m) text /\
     (In (group_str 1 m) latin_male_tokens -> extractGender text = str "Male") /\
     (~ In (group_str 1 m) latin_male_tokens -> extractGender text = str "Female")) /\
  (extractGender text = str "Male" \/ extractGender text = str "Female" \/
   extractGender text = NOT_FOUND).
Proof.
  split; [ | split].
  - rewrite <- gender_no_match. unfold extractGender.
    destruct (search re_gender text) as [m | ]; [ | tauto].
    split; [ | discriminate].
    destruct (startsWith _ _); intros H; vm_compute in H; discriminate H.
  - intros m Hm. destruct (gender_match_token _ Hm) as [Htok Hocc].
    pose proof (gender_normalised Htok) as Hn.
    rewrite (gender_of_match _ Hm).
    split; [exact Htok | ]. split; [exact Hocc | ].
    destruct (startsWith _ _).
    + split; [reflexivity | ]. intros Hnot. exfalso. apply Hnot. apply Hn. reflexivity.
    + split; [ | reflexivity]. intros Hin. apply Hn in Hin. discriminate Hin.
  - unfold extractGender. destruct (search re_gender text); [ | auto].
    destruct (startsWith _ _); auto.
Qed.

(** C6 as stated fails: the lower-case and mixed-case spellings are not
matched. *)
Lemma gender_pattern_is_case_sensitive :
  extractGender (str "male") = NOT_FOUND /\
  extractGender (str "MaLe") = NOT_FOUND /\
  extractGender (str "female") = NOT_FOUND.
Proof. vm_compute. repeat split. Qed.

(** C10.  When the first match of the gender pattern is one of the four Tamil
tokens, the male ones included, the extractor answers [Female]. *)
Theorem tamil_gender_token_gives_female (text : jsstring) (m : found) :
  search re_gender text = Some m ->
  In (group_str 1 m) tamil_gender_tokens ->
  extractGender text = str "Female".
Proof.
  intros Hm Htok. rewrite (gender_of_match _ Hm).
  simpl in Htok.
  repeat (destruct Htok as [<- | Htok]; [reflexivity | ]).
  destruct Htok.
Qed.

Lemma tamil_gender_token_gives_female_witness :
  search re_gender tamil_male_text = Some tamil_male_match /\
  In (group_str 1 tamil_male_match) tamil_gender_tokens /\
  group_str 1 tamil_male_match = ta_male /\
  extractGender tamil_male_text = str "Female".
Proof.
  assert (Hm : search re_gender tamil_male_text = Some tamil_male_match)
    by (vm_compute; reflexivity).
  assert (Htok : In (group_str 1 tamil_male_match) tamil_gender_tokens)
    by (vm_compute; right; right; left; reflexivity).
  split; [exact Hm | ]. split; [exact Htok | ]. split; [vm_compute; reflexivity | ].
  exact (@tamil_gender_token_gives_female tamil_male_text tamil_male_match Hm Htok).
Defined.

End GenderFacts.

(** ** The date sanitizer *)

Module DobFacts.

Import Chars JsString Regex Scanner Spec SearchFacts.

Lemma startsWith_nil (s : jsstring) : startsWith s [] = true.
Proof. destruct s; reflexivity. Qed.

(** Splitting on a one-character separator, by recursion on the text. *)
Lemma split_from_char (c : N) :
  forall s cur fuel,
    length s < fuel ->
    split_from [c] cur s fuel = split_char c cur s.
Proof.
  induction s as [| a s IH]; intros cur fuel Hf.
  - destruct fuel; [inversion Hf | reflexivity].
  - destruct fuel as [| fuel]; [inversion Hf | ].
    simpl in Hf. simpl. rewrite startsWith_nil, andb_true_r.
    change (skipn 0 s) with s.
    destruct (N.eqb a c); rewrite IH by lia; reflexivity.
Qed.

Lemma split_char_spec (c : N) (s : jsstring) : JsString.split s [c] = split_char c [] s.
Proof. unfold JsString.split. apply split_from_char. lia. Qed.

Lemma split_char_no_sep (c : N) :
  forall s cur, ~ In c s -> split_char c cur s = [rev cur ++ s].
Proof.
  induction s as [| a s IH]; intros cur H; simpl.
  - rewrite app_nil_r. reflexivity.
  - destruct (N.eqb_spec a c) as [-> | Hne].
    + exfalso. apply H. left. reflexivity.
    + rewrite IH by (intros Hin; apply H; right; exact Hin).
      simpl. rewrite <- app_assoc. reflexivity.
Qed.

Lemma split_char_app (c : N) (rest : jsstring) :
  forall a cur, ~ In c a ->
    split_char c cur (a ++ c :: rest) = (rev cur ++ a) :: split_char c [] rest.
Proof.
  induction a as [| x a IH]; intros cur H; simpl.
  - rewrite N.eqb_refl, app_nil_r. reflexivity.
  - destruct (N.eqb_spec x c) as [-> | Hne].
    + exfalso. apply H. left. reflexivity.
    + rewrite IH by (intros Hin; apply H; right; exact Hin).
      simpl. rewrite <- app_assoc. reflexivity.
Qed.

(** The pieces, put back together with the separator, are the text; no
piece holds the separator. *)
Lemma split_char_pieces (c : N) :
  forall s cur, ~ In c cur ->
    join [c] (split_char c cur s) = rev cur ++ s /\
    Forall (fun p => ~ In c p) (split_char c cur s).
Proof.
  induction s as [| a s IH]; intros cur H; simpl.
  - rewrite app_nil_r. split; [reflexivity | ]. constructor; [ | constructor].
    rewrite <- in_rev. exact H.
  - destruct (N.eqb_spec a c) as [-> | Hne].
    + destruct (IH [] (fun x : In c [] => x)) as [J F]. split.
      * destruct (split_char c [] s) eqn:E.
        -- destruct s; simpl in E; [discriminate | ].
           destruct (N.eqb n c); discriminate.
        -- simpl in *. rewrite J. reflexivity.
      * constructor; [rewrite <- in_rev; exact H | exact F].
    + assert (H' : ~ In c (a :: cur)).
      { intros [-> | Hin]; [apply Hne; reflexivity | apply H; exact Hin]. }
      destruct (IH (a :: cur) H') as [J F]. split; [ | exact F].
      rewrite J. simpl. rewrite <- app_assoc. reflexivity.
Qed.

Lemma three_pieces (c : N) (s p0 p1 p2 : jsstring) :
  split_char c [] s = [p0; p1; p2] <->
  s = p0 ++ c :: p1 ++ c :: p2 /\ ~ In c p0 /\ ~ In c p1 /\ ~ In c p2.
Proof.
  split.
  - intros H. destruct (@split_char_pieces c s [] (fun x => x)) as [J F].
    rewrite H in J, F. simpl in J.
    inversion F as [| ? ? F0 F']; subst. inversion F' as [| ? ? F1 F'']; subst.
    inversion F'' as [| ? ? F2 _]; subst. repeat split; auto.
  - intros (-> & H0 & H1 & H2).
    rewrite split_char_app by exact H0. rewrite split_char_app by exact H1.
    rewrite split_char_no_sep by exact H2. reflexivity.
Qed.

Lemma includes_char (c : N) (s : jsstring) : includes s [c] = true <-> In c s.
Proof.
  rewrite includes_spec. split.
  - intros (pre & post & ->). apply in_or_app. right. left. reflexivity.
  - intros H. apply in_split in H. destruct H as (pre & post & ->).
    exists pre, post. reflexivity.
Qed.

Lemma includes_char_false (c : N) (s : jsstring) : includes s [c] = false <-> ~ In c s.
Proof.
  rewrite <- includes_char. destruct (includes s [c]); split; congruence.
Qed.

Lemma dob_separator_char (raw : jsstring) :
  dob_separator raw = [separator_char raw].
Proof.
  unfold dob_separator, separator_char.
  destruct (includes raw (str "/")); [reflexivity | ].
  destruct (includes raw (str "-")); reflexivity.
Qed.

Lemma padStart2_idempotent (p : jsstring) : padStart2 (padStart2 p) = padStart2 p.
Proof.
  unfold padStart2. destruct p as [| a [| b p]]; reflexivity.
Qed.

Lemma padStart2_keeps_out (c : N) (p : jsstring) :
  c <> 48%N -> ~ In c p -> ~ In c (padStart2 p).
Proof.
  intros Hc Hp Hin. unfold padStart2 in Hin. apply in_app_or in Hin.
  destruct Hin as [Hin | Hin]; [ | exact (Hp Hin)].
  apply repeat_spec in Hin. exact (Hc Hin).
Qed.

(** What the sanitizer does, in terms of the three pieces. *)
Lemma sanitizeDob_pieces (raw : jsstring) :
  sanitizeDob raw =
  match split_char (separator_char raw) [] raw with
  | [p0; p1; p2] =>
      if year_rejected p2 then None else Some (normalised_date p0 p1 p2)
  | _ => None
  end.
Proof.
  unfold sanitizeDob. rewrite dob_separator_char, split_char_spec. reflexivity.
Qed.

Lemma slash_free_pieces (raw p0 p1 p2 : jsstring) :
  split_char (separator_char raw) [] raw = [p0; p1; p2] ->
  ~ In 47%N p0 /\ ~ In 47%N p1 /\ ~ In 47%N p2.
Proof.
  intros H. apply three_pieces in H. destruct H as (Hraw & H0 & H1 & H2).
  unfold separator_char in *.
  destruct (includes raw (str "/")) eqn:E; [auto | ].
  apply (includes_char_false 47 raw) in E.
  assert (Hsub : forall x, In x p0 \/ In x p1 \/ In x p2 -> In x raw).
  { intros x Hx. rewrite Hraw. rewrite in_app_iff. simpl. rewrite in_app_iff. simpl.
    tauto. }
  repeat split; intros Hin; apply E; apply Hsub; auto.
Qed.

Lemma sanitizeDob_idempotent (raw s : jsstring) :
  sanitizeDob raw = Some s -> sanitizeDob s = Some s.
Proof.
  rewrite sanitizeDob_pieces.
  destruct (split_char (separator_char raw) [] raw) as [| p0 [| p1 [| p2 [| ? ?]]]] eqn:E;
    try discriminate.
  destruct (year_rejected p2) eqn:Hy; [discriminate | ].
  intros H. injection H as <-.
  destruct (slash_free_pieces _ E) as (H0 & H1 & H2).
  rewrite sanitizeDob_pieces.
  assert (Hsep : separator_char (normalised_date p0 p1 p2) = 47%N).
  { unfold separator_char.
    replace (includes (normalised_date p0 p1 p2) (str "/")) with true; [reflexivity | ].
    symmetry. apply (includes_char 47). unfold normalised_date.
    apply in_or_app. right. left. reflexivity. }
  rewrite Hsep.
  assert (Hsplit : split_char 47 [] (normalised_date p0 p1 p2)
                   = [padStart2 p0; padStart2 p1; p2]).
  { apply three_pieces. repeat split; auto.
    - apply padStart2_keeps_out; [discriminate | exact H0].
    - apply padStart2_keeps_out; [discriminate | exact H1]. }
  rewrite Hsplit, Hy. unfold normalised_date.
  rewrite !padStart2_idempotent. reflexivity.
Qed.

Lemma year_in_range (p2 : jsstring) (y : Z) :
  parseInt p2 = Some y ->
  year_rejected p2 = negb ((1900 <=? y) && (y <=? 2020))%Z.
Proof.
  intros H. unfold year_rejected. rewrite H.
  destruct (Z.ltb_spec y 1900), (Z.ltb_spec 2020 y), (Z.leb_spec 1900 y),
    (Z.leb_spec y 2020); simpl; try reflexivity; lia.
Qed.

(** The sanitizer on any text.  With [c] the separator of [raw] (the slash,
else the hyphen, else the period): an accepted result is accepted again
unchanged; an input is accepted only if it is three pieces free of [c] joined
by [c], and the result is then the day and the month padded with zeros to two
characters and the year, joined by slashes; when the year piece parses as an
integer, the input is accepted exactly when that integer lies in 1900..2020,
whatever the separator. *)
Theorem sanitizeDob_accepts_three_part_dates (raw : jsstring) :
  let c := separator_char raw in
  (forall s, sanitizeDob raw = Some s -> sanitizeDob s = Some s) /\
  (forall s, sanitizeDob raw = Some s ->
     exists p0 p1 p2,
       raw = p0 ++ c :: p1 ++ c :: p2 /\
       ~ In c p0 /\ ~ In c p1 /\ ~ In c p2 /\
       s = normalised_date p0 p1 p2) /\
  (forall p0 p1 p2 y,
     raw = p0 ++ c :: p1 ++ c :: p2 ->
     ~ In c p0 -> ~ In c p1 -> ~ In c p2 ->
     parseInt p2 = Some y ->
     sanitizeDob raw =
     if ((1900 <=? y) && (y <=? 2020))%Z
     then Some (normalised_date p0 p1 p2) else None) /\
  (In c [47; 45; 46]%N) /\
  (forall p, 2 <= length p -> padStart2 p = p) /\
  (forall a, padStart2 [a] = [48; a]%N) /\
  padStart2 [] = [48; 48]%N.
Proof.
  intros c. split; [ | split; [ | split; [ | split; [ | split; [ | split]]]]].
  - intros s. apply sanitizeDob_idempotent.
  - intros s. rewrite sanitizeDob_pieces. fold c.
    destruct (split_char c [] raw) as [| p0 [| p1 [| p2 [| ? ?]]]] eqn:E;
      try discriminate.
    destruct (year_rejected p2); [discriminate | ].
    intros H. injection H as <-. apply three_pieces in E.
    destruct E as (Hraw & H0 & H1 & H2). exists p0, p1, p2. auto.
  - intros p0 p1 p2 y Hraw H0 H1 H2 Hy. rewrite sanitizeDob_pieces. fold c.
    assert (E : split_char c [] raw = [p0; p1; p2]) by (apply three_pieces; auto).
    rewrite E, (year_in_range _ Hy).
    destruct ((1900 <=? y) && (y <=? 2020))%Z; reflexivity.
  - unfold c, separator_char.
    destruct (includes raw (str "/")); [simpl; auto | ].
    destruct (includes raw (str "-")); simpl; auto.
  - intros p Hp. destruct p as [| a [| b p]]; simpl in Hp; try lia. reflexivity.
  - reflexivity.
  - reflexivity.
Qed.

End DobFacts.

(** ** Cutting a text into lines *)

Module LineFacts.

Import Chars JsString Regex Scanner Spec MatcherSpec RegexFacts ClassFacts SearchFacts.

Lemma run_cat (r1 r2 : regex) (s : mstate) :
  run (Cat r1 r2) s = flat_map (run r2) (run r1 s).
Proof. reflexivity. Qed.

Lemma run_opt (r : regex) (s : mstate) :
  run (opt r) s
  = flat_map (fun e => [e]) (List.filter (progressed s) (run r s)) ++ [s].
Proof. reflexivity. Qed.

Lemma run_opt_class_hit (p : N -> bool) (s : mstate) (c : N) (rest : list N) :
  after s = c :: rest -> p c = true ->
  run (opt (Class p)) s = [jump s [c] rest; s].
Proof.
  intros A Hp. rewrite run_opt, (run_class_hit p s A Hp). cbn [List.filter].
  rewrite (progressed_jump s A). reflexivity.
Qed.

Lemma run_opt_class_miss (p : N -> bool) (s : mstate) :
  (after s = [] \/ exists c rest, after s = c :: rest /\ p c = false) ->
  run (opt (Class p)) s = [s].
Proof. intros H. rewrite run_opt, (run_class_miss p s H). reflexivity. Qed.

(** The pattern [\r?\n] at a place of the text: it reads a line feed, or a
carriage return and the line feed after it, and nothing else. *)
Lemma run_newline_lf (s : mstate) (rest : list N) :
  after s = 10%N :: rest -> run re_newline s = [jump s [10%N] rest].
Proof.
  intros A. unfold re_newline. change (seq [opt (chr 13); chr 10])
    with (Cat (opt (Class (N.eqb 13))) (Class (N.eqb 10))).
  rewrite run_cat, run_opt_class_miss by (right; exists 10%N, rest; auto).
  rewrite flat_map_one. apply (run_class_hit (N.eqb 10) s A). reflexivity.
Qed.

Lemma run_newline_crlf (s : mstate) (rest : list N) :
  after s = 13%N :: 10%N :: rest -> run re_newline s = [jump s [13; 10]%N rest].
Proof.
  intros A. unfold re_newline. change (seq [opt (chr 13); chr 10])
    with (Cat (opt (Class (N.eqb 13))) (Class (N.eqb 10))).
  rewrite run_cat, (run_opt_class_hit (N.eqb 13) s A) by reflexivity.
  cbn [flat_map].
  rewrite (@run_class_hit (N.eqb 10) (jump s [13%N] (10%N :: rest)) 10%N rest)
    by reflexivity.
  rewrite (run_class_miss (N.eqb 10) s) by (right; eexists; eexists; split; [exact A | reflexivity]).
  rewrite jump_cons. reflexivity.
Qed.

Lemma run_newline_other (s : mstate) (c : N) (rest : list N) :
  after s = c :: rest -> c <> 10%N -> c <> 13%N -> run re_newline s = [].
Proof.
  intros A H10 H13. unfold re_newline. change (seq [opt (chr 13); chr 10])
    with (Cat (opt (Class (N.eqb 13))) (Class (N.eqb 10))).
  assert (E13 : N.eqb 13 c = false) by (apply N.eqb_neq; congruence).
  assert (E10 : N.eqb 10 c = false) by (apply N.eqb_neq; congruence).
  rewrite run_cat, run_opt_class_miss by (right; exists c, rest; auto).
  rewrite flat_map_one. apply run_class_miss. right. exists c, rest. auto.
Qed.

Lemma run_newline_end (s : mstate) : after s = [] -> run re_newline s = [].
Proof.
  intros A. unfold re_newline. change (seq [opt (chr 13); chr 10])
    with (Cat (opt (Class (N.eqb 13))) (Class (N.eqb 10))).
  rewrite run_cat, run_opt_class_miss by (left; exact A).
  rewrite flat_map_one. apply run_class_miss. left. exact A.
Qed.

(** A carriage return that no line feed follows. *)
Lemma run_newline_cr (s : mstate) (rest : list N) :
  after s = 13%N :: rest ->
  (rest = [] \/ exists c rest', rest = c :: rest' /\ c <> 10%N) ->
  run re_newline s = [].
Proof.
  intros A Hrest. unfold re_newline. change (seq [opt (chr 13); chr 10])
    with (Cat (opt (Class (N.eqb 13))) (Class (N.eqb 10))).
  rewrite run_cat, (run_opt_class_hit (N.eqb 13) s A) by reflexivity.
  cbn [flat_map].
  rewrite (run_class_miss (N.eqb 10) s)
    by (right; eexists; eexists; split; [exact A | reflexivity]).
  rewrite (run_class_miss (N.eqb 10) (jump s [13%N] rest)); [reflexivity | ].
  destruct Hrest as [-> | (c & rest' & -> & Hc)]; [left; reflexivity | right].
  exists c, rest'. split; [reflexivity | ]. apply N.eqb_neq. congruence.
Qed.

(** *** [trim] does not see a carriage return at the end *)

Lemma trimStart_snoc (c : N) :
  is_space c = true ->
  forall q, (trimStart (q ++ [c]) = [] /\ trimStart q = []) \/
            trimStart (q ++ [c]) = trimStart q ++ [c].
Proof.
  intros Hc. induction q as [| a q IH]; simpl.
  - rewrite Hc. auto.
  - destruct (is_space a); [exact IH | ]. right. reflexivity.
Qed.

Lemma trim_snoc (c : N) (q : jsstring) :
  is_space c = true -> trim (q ++ [c]) = trim q.
Proof.
  intros Hc. unfold trim.
  destruct (@trimStart_snoc c Hc q) as [[-> ->] | ->]; [reflexivity | ].
  unfold trimEnd. rewrite rev_unit. simpl. rewrite Hc. reflexivity.
Qed.

(** *** The two ways of cutting lines give the same lines *)

Lemma newline_pieces :
  forall n rest u pre fuel,
    length rest <= n -> length rest < fuel ->
    List.map trim (pieces (u ++ rest) (scan re_newline pre rest fuel))
    = List.map trim (split_char 10 (rev u) rest).
Proof.
  induction n as [| n IH]; intros rest u pre fuel Hn Hf.
  - destruct rest; [ | simpl in Hn; lia].
    rewrite scan_end by (apply run_newline_end; reflexivity).
    simpl. rewrite app_nil_r, rev_involutive. reflexivity.
  - destruct rest as [| c rest].
    { rewrite scan_end by (apply run_newline_end; reflexivity).
      simpl. rewrite app_nil_r, rev_involutive. reflexivity. }
    destruct fuel as [| fuel]; [inversion Hf | ]. simpl in Hn, Hf.
    destruct (N.eq_dec c 10) as [-> | H10].
    { rewrite (@scan_hit re_newline pre rest 10 fuel _ []
                 (@run_newline_lf (MState pre (10%N :: rest) []) rest eq_refl))
        by (simpl; lia).
      rewrite pieces_hit. cbn [after jump split_char]. rewrite N.eqb_refl.
      cbn [List.map]. rewrite rev_involutive. f_equal.
      apply (IH rest [] _ fuel); lia. }
    destruct (N.eq_dec c 13) as [-> | H13].
    + destruct rest as [| c' rest'].
      { rewrite scan_skip
          by (apply (@run_newline_cr (MState pre [13%N] []) []); auto).
        rewrite scan_end by (apply run_newline_end; reflexivity).
        simpl. rewrite rev_involutive. reflexivity. }
      destruct (N.eq_dec c' 10) as [-> | Hc'].
      * rewrite (@scan_hit re_newline pre (10%N :: rest') 13 fuel _ []
                   (@run_newline_crlf (MState pre (13%N :: 10%N :: rest') []) rest'
                      eq_refl))
          by (simpl; lia).
        rewrite pieces_hit. cbn [after jump]. simpl split_char.
        cbn [List.map]. simpl in Hn, Hf.
        rewrite (IH rest' [] _ fuel) by lia.
        f_equal. rewrite rev_involutive. symmetry. apply trim_snoc. reflexivity.
      * rewrite scan_skip
          by (apply (@run_newline_cr (MState pre (13%N :: c' :: rest') []) (c' :: rest'));
              [reflexivity | right; exists c', rest'; auto]).
        replace (u ++ 13%N :: c' :: rest') with ((u ++ [13%N]) ++ c' :: rest')
          by (rewrite <- app_assoc; reflexivity).
        rewrite (IH (c' :: rest') (u ++ [13%N]) _ (S fuel)) by (simpl in *; lia).
        rewrite rev_unit. reflexivity.
    + rewrite scan_skip
        by (apply (@run_newline_other (MState pre (c :: rest) []) c rest); auto).
      replace (u ++ c :: rest) with ((u ++ [c]) ++ rest)
        by (rewrite <- app_assoc; reflexivity).
      rewrite (IH rest (u ++ [c]) _ (S fuel)) by lia.
      rewrite rev_unit. simpl.
      destruct (N.eqb_spec c 10); [contradiction | reflexivity].
Qed.

Lemma same_lines (t : jsstring) :
  lines_of (Regex.split re_newline t) = lines_of (JsString.split t LF).
Proof.
  unfold lines_of. f_equal. unfold LF. rewrite DobFacts.split_char_spec.
  unfold Regex.split. destruct t as [| c t].
  - rewrite run_newline_end by reflexivity. reflexivity.
  - apply (@newline_pieces (length (c :: t)) (c :: t) [] [] (S (length (c :: t)))); lia.
Qed.

(** The date rule is the same on the lines cut either way. *)
Lemma dob_rule_lf_same (t : jsstring) : dob_rule_lf t = dob_rule t.
Proof. unfold dob_rule_lf, dob_rule. rewrite same_lines. reflexivity. Qed.

End LineFacts.

(** ** The field extractors *)

Module ExtractFacts.

Import Chars JsString Regex Scanner Spec MatcherSpec RegexFacts ClassFacts SearchFacts LineFacts.

Ltac peel H :=
  let m := fresh "m" in
  let Hm := fresh "Hm" in
  apply in_run_seq_cons in H; destruct H as (m & Hm & H).

(** Decide a fact about the classes of a code unit by arithmetic. *)
Ltac char_props H :=
  repeat first
    [ rewrite andb_true_iff in H | rewrite orb_true_iff in H
    | rewrite N.leb_le in H | rewrite N.eqb_eq in H
    | rewrite negb_true_iff in H | rewrite andb_false_iff in H
    | rewrite orb_false_iff in H | rewrite N.leb_gt in H
    | rewrite N.eqb_neq in H | rewrite negb_false_iff in H ].

Ltac char_facts :=
  unfold is_father_noise, is_name_char, is_alpha, is_upper, is_lower, is_digit,
    is_word, is_space, is_line_terminator, one_of, in_range in *;
  simpl existsb in *;
  repeat match goal with
    | |- _ = false => apply not_true_is_false; intro
    | |- _ = true => apply not_false_is_true; intro
    end;
  repeat match goal with
    | H : @eq bool _ _ |- _ => progress char_props H
    end;
  try lia.

Lemma search_end_in (r : regex) (s : jsstring) (f : found) :
  search r s = Some f -> In (f_end f) (run r (f_start f)).
Proof.
  intros H. apply search_some in H.
  destruct H as (skipped & w & tl & _ & _ & _ & Hrun & _). rewrite Hrun. left. reflexivity.
Qed.

Lemma group_str_end (n : nat) (f : found) (v : jsstring) (e0 : mstate) :
  f_end f = set_cap (S n) v e0 -> group_str (S n) f = v.
Proof.
  intros H. unfold group_str, group. rewrite H. simpl. rewrite Nat.eqb_refl. reflexivity.
Qed.

Lemma alpha_not_space (c : N) : is_alpha c = true -> is_space c = false.
Proof. intros H. char_facts. Qed.

Lemma upper_alpha (c : N) : is_upper c = true -> is_alpha c = true.
Proof. intros H. unfold is_alpha. rewrite H. reflexivity. Qed.

Lemma alpha_not_noise (c : N) : is_alpha c = true -> is_father_noise c = false.
Proof. intros H. char_facts. Qed.

(** *** [trim] *)

Lemma trimStart_keeps_last (c : N) :
  is_space c = false ->
  forall l, exists l', trimStart (l ++ [c]) = l' ++ [c].
Proof.
  intros Hc. induction l as [| a l IH]; simpl.
  - rewrite Hc. exists []. reflexivity.
  - destruct (is_space a); [exact IH | ]. exists (a :: l). reflexivity.
Qed.

Lemma trim_keeps_head (c : N) (w : jsstring) :
  is_space c = false -> exists w', trim (c :: w) = c :: w'.
Proof.
  intros Hc. unfold trim, trimEnd. simpl trimStart at 2. rewrite Hc.
  simpl rev at 2. destruct (@trimStart_keeps_last c Hc (rev w)) as (l' & H).
  rewrite H, rev_app_distr. simpl. eauto.
Qed.

(** *** The captures are never empty *)

Lemma card_group_nonempty (text : jsstring) (m : found) :
  search re_card text = Some m -> group_str 1 m <> [].
Proof.
  intros H. apply search_end_in in H. unfold re_card in H.
  peel H. peel H. apply in_run_group in Hm0. destruct Hm0 as (e0 & He0 & ->).
  change (seq [WordB]) with WordB in H. apply in_run_wordb in H. destruct H as [H _].
  rewrite (@group_str_end 0 _ _ _ H).
  unfold re_card_shape in He0. peel He0.
  apply in_run_rep_class in Hm0. destruct Hm0 as (w1 & _ & M1 & L1 & _).
  change (seq [range 6 10 digit]) with (range 6 10 digit) in He0.
  destruct (run_extends _ _ _ He0) as [w2 R2].
  rewrite (reads_consumed (reads_app (moves_reads M1) R2)).
  destruct w1; simpl in *; [lia | discriminate].
Qed.

Lemma voter_name_group_head (line : jsstring) (m : found) :
  search re_voter_name line = Some m ->
  exists c w, is_upper c = true /\ group_str 1 m = c :: w.
Proof.
  intros H. apply search_end_in in H. unfold re_voter_name in H.
  peel H. peel H. peel H.
  match type of H with In _ (run (seq [?g]) _) => change (seq [g]) with g in H end.
  apply in_run_group in H. destruct H as (e0 & He0 & H).
  rewrite (@group_str_end 0 _ _ _ H).
  peel He0. apply in_run_class in Hm2. destruct Hm2 as (c & Hc & M1).
  destruct (run_extends _ _ _ He0) as [w2 R2].
  rewrite (reads_consumed (reads_app (moves_reads M1) R2)).
  exists c, w2. auto.
Qed.

Lemma father_group_shape (text : jsstring) (m : found) :
  search re_father text = Some m ->
  exists c w, is_alpha c = true /\ group_str 1 m = c :: w.
Proof.
  intros H. apply search_end_in in H. unfold re_father in H.
  do 9 peel H.
  match type of H with In _ (run (seq [?g]) _) => change (seq [g]) with g in H end.
  apply in_run_group in H. destruct H as (e0 & He0 & H).
  rewrite (@group_str_end 0 _ _ _ H).
  peel He0. apply in_run_class in Hm8. destruct Hm8 as (c & Hc & M1).
  destruct (run_extends _ _ _ He0) as [w2 R2].
  rewrite (reads_consumed (reads_app (moves_reads M1) R2)).
  exists c, w2. auto.
Qed.

Lemma soundara_group_nonempty (text : jsstring) (m : found) :
  search re_soundara text = Some m -> group_str 1 m <> [].
Proof.
  intros H. apply search_end_in in H. unfold re_soundara in H.
  peel H.
  match type of H with In _ (run (seq [?g]) _) => change (seq [g]) with g in H end.
  apply in_run_group in H. destruct H as (e0 & He0 & H).
  rewrite (@group_str_end 0 _ _ _ H).
  peel He0. apply in_run_lit in Hm0.
  destruct (run_extends _ _ _ He0) as [w2 R2].
  rewrite (reads_consumed (reads_app (moves_reads Hm0) R2)).
  discriminate.
Qed.

(** Removing the trailing noise of a father's name leaves its first letter. *)
Lemma father_noise_keeps_head (c : N) (w : jsstring) :
  is_alpha c = true -> remove_first re_father_noise (c :: w) <> [].
Proof.
  intros Hc. destruct (search re_father_noise (c :: w)) as [f | ] eqn:E.
  - destruct (@remove_first_some _ _ _ E) as (skipped & wm & Hs & -> & Hr & Hst).
    destruct skipped as [| a skipped]; [ | discriminate].
    exfalso. pose proof (@search_end_in _ _ _ E) as Hin.
    unfold re_father_noise in Hin. peel Hin.
    apply in_run_rep_class in Hm. destruct Hm as (w1 & P1 & M1 & L1 & _).
    destruct M1 as (A & _). rewrite Hst in A. simpl in A. simpl in Hs.
    rewrite <- Hs in A. destruct w1 as [| a w1]; [simpl in L1; lia | ].
    injection A as <- _. inversion P1 as [| ? ? Ha _]; subst.
    rewrite (@alpha_not_noise _ Hc) in Ha. discriminate Ha.
  - unfold remove_first. rewrite E. discriminate.
Qed.

(** *** The date and the gender are never empty *)

Lemma accepted_dob_nonempty (d s : jsstring) : accepted_dob d = Some s -> s <> [].
Proof.
  unfold accepted_dob. destruct (sanitizeDob d) as [[| c t] | ]; try discriminate.
  intros H. injection H as <-. discriminate.
Qed.

Lemma first_accepted_nonempty (ds : list jsstring) (s : jsstring) :
  first_accepted ds = Some s -> s <> [].
Proof.
  induction ds as [| d ds IH]; simpl; [discriminate | ].
  destruct (accepted_dob d) eqn:E; [ | exact IH].
  intros H. injection H as <-. exact (accepted_dob_nonempty _ E).
Qed.

Lemma scan_lines_nonempty (lines : list jsstring) (s : jsstring) :
  scan_lines lines = Some s -> s <> [].
Proof.
  induction lines as [| line rest IH]; simpl; [discriminate | ].
  destruct (test re_issue line); [exact IH | ].
  destruct (match_all re_date_word line) as [dates | ]; [ | exact IH].
  destruct (first_accepted dates) eqn:E; [ | exact IH].
  intros H. injection H as <-. exact (first_accepted_nonempty _ E).
Qed.

Lemma labelled_dob_nonempty (r : regex) (text s : jsstring) :
  labelled_dob r text = Some s -> s <> [].
Proof.
  unfold labelled_dob. destruct (search r text); [ | discriminate].
  apply accepted_dob_nonempty.
Qed.

Lemma extractDobFromLines_nonempty (text : jsstring) (lines : list jsstring) :
  extractDobFromLines text lines <> [].
Proof.
  unfold extractDobFromLines.
  destruct (labelled_dob re_dob_label text) eqn:E1;
    [exact (labelled_dob_nonempty _ _ E1) | ].
  destruct (labelled_dob re_dob_label_ta text) eqn:E2;
    [exact (labelled_dob_nonempty _ _ E2) | ].
  destruct (scan_lines lines) eqn:E3; [exact (scan_lines_nonempty _ E3) | ].
  discriminate.
Qed.

Lemma extractGender_nonempty (text : jsstring) : extractGender text <> [].
Proof.
  unfold extractGender. destruct (search re_gender text); [ | discriminate].
  destruct (startsWith _ _); discriminate.
Qed.

(** *** The name of an Aadhaar card is never empty *)

Lemma pieces_shape (from : jsstring) (fs : list found) :
  (fs = [] /\ pieces from fs = [from]) \/
  (exists x y rest, pieces from fs = x :: y :: rest).
Proof.
  destruct fs as [| f fs]; [left; auto | right]. simpl.
  destruct fs as [| g fs]; simpl; eauto.
Qed.

Lemma split_shape (r : regex) (s : jsstring) :
  s <> [] ->
  Regex.split r s = [s] \/ exists x y rest, Regex.split r s = x :: y :: rest.
Proof.
  intros Hs. unfold Regex.split. destruct s as [| c s]; [congruence | ].
  destruct (pieces_shape (c :: s) (scan r [] (c :: s) (S (length (c :: s)))))
    as [[_ H] | H]; auto.
Qed.

Lemma upper_nonempty (c : N) : upper c <> [].
Proof. unfold upper. destruct (is_lower c); discriminate. Qed.

Lemma title_word_nonempty (w : jsstring) : w <> [] -> title_word w <> [].
Proof.
  intros Hw. destruct w as [| c w]; [congruence | ]. unfold title_word.
  destruct (length _ <=? 2); simpl; unfold toUpperCase; simpl;
    pose proof (upper_nonempty c); destruct (upper c); simpl; congruence.
Qed.

Lemma join_two_nonempty (sep x y : jsstring) (rest : list jsstring) :
  sep <> [] -> join sep (x :: y :: rest) <> [].
Proof.
  intros Hsep H. simpl in H. apply app_eq_nil in H. destruct H as [_ H].
  apply app_eq_nil in H. destruct H as [H _]. exact (Hsep H).
Qed.

Lemma isName_long_enough (line : jsstring) :
  isName line = true -> 4 <= length (stripped line).
Proof.
  unfold isName. fold (stripped line).
  destruct (existsb _ BLACKLIST); [discriminate | ].
  destruct (negb (test re_name_shape (stripped line))); [discriminate | ].
  destruct (Nat.ltb_spec (length (stripped line)) 4); [discriminate | ].
  intros _. assumption.
Qed.

Lemma smartTitle_nonempty (line : jsstring) :
  isName line = true -> smartTitle line <> [].
Proof.
  intros H. apply isName_long_enough in H. unfold smartTitle. fold (stripped line).
  assert (Ht : stripped line <> []).
  { intros E. rewrite E in H. simpl in H. lia. }
  destruct (split_shape re_spaces Ht) as [E | (x & y & rest & E)]; rewrite E.
  - simpl. apply title_word_nonempty. exact Ht.
  - simpl List.map. apply join_two_nonempty. discriminate.
Qed.

Lemma first_name_nonempty (lines : list jsstring) (s : jsstring) :
  first_name lines = Some s -> s <> [].
Proof.
  induction lines as [| line rest IH]; simpl; [discriminate | ].
  destruct (isName line) eqn:E; [ | exact IH].
  intros H. injection H as <-. apply smartTitle_nonempty. exact E.
Qed.

(** *** The fields of a voter card are never empty *)

Lemma first_voter_name_nonempty (lines : list jsstring) (s : jsstring) :
  first_voter_name lines = Some s -> s <> [].
Proof.
  induction lines as [| line rest IH]; simpl; [discriminate | ].
  destruct (test re_father_line line); [exact IH | ].
  destruct (search re_voter_name line) as [m | ] eqn:E; [ | exact IH].
  intros H. injection H as <-.
  destruct (voter_name_group_head _ E) as (c & w & Hc & ->).
  destruct (@trim_keeps_head c w (alpha_not_space _ (upper_alpha _ Hc))) as (w' & ->).
  discriminate.
Qed.

Lemma or_not_found_nonempty (o : option jsstring) :
  (forall s, o = Some s -> s <> []) -> or_not_found o <> [].
Proof. intros H. destruct o; simpl; [apply H; reflexivity | discriminate]. Qed.

Lemma card_number_rule_nonempty (text : jsstring) : card_number_rule text <> [].
Proof.
  unfold card_number_rule. destruct (search re_card text) eqn:E; [ | discriminate].
  exact (card_group_nonempty _ E).
Qed.

Lemma father_name_rule_nonempty (text : jsstring) : father_name_rule text <> [].
Proof.
  unfold father_name_rule. destruct (search re_father text) as [fM | ] eqn:E.
  - destruct (father_group_shape _ E) as (c & w & Hc & ->).
    destruct (@trim_keeps_head c w (alpha_not_space _ Hc)) as (w' & ->).
    apply father_noise_keeps_head. exact Hc.
  - destruct (search re_soundara text) eqn:E'; [ | discriminate].
    exact (soundara_group_nonempty _ E').
Qed.

Lemma aadhaar_number_rule_nonempty (text : jsstring) : aadhaar_number_rule text <> [].
Proof.
  unfold aadhaar_number_rule. destruct (search re_aadhaar text); [ | discriminate].
  intros H. apply app_eq_nil in H. destruct H as [_ H]. discriminate H.
Qed.

(** *** The dispatch *)

Lemma voter_fields (textOrig text2x : jsstring) :
  extractVoterFields textOrig text2x =
  let combined := textOrig ++ LF ++ text2x in
  {| docType := JStr (str "Voter ID");
     name := JStr (voter_name_rule combined);
     dob := JStr (dob_rule_lf textOrig);
     gender := JStr (voter_gender_rule textOrig text2x);
     aadhaar := JNull;
     cardNo := JStr (card_number_rule combined);
     fatherName := JStr (father_name_rule combined) |}.
Proof.
  unfold extractVoterFields, voter_gender_rule.
  destruct (jsstring_eqb (extractGender text2x) NOT_FOUND); reflexivity.
Qed.

Lemma aadhaar_fields (r1Text r2Text : jsstring) :
  extractAadhaarFields r1Text r2Text =
  {| docType := JStr (str "Aadhaar Card");
     name := JStr (aadhaar_name_rule r1Text);
     dob := JStr (dob_rule r1Text);
     gender := JStr (extractGender r1Text);
     aadhaar := JStr (aadhaar_number_rule r2Text);
     cardNo := JNull;
     fatherName := JNull |}.
Proof. reflexivity. Qed.

Lemma jsstring_eqb_eq (a b : jsstring) : jsstring_eqb a b = true <-> a = b.
Proof.
  unfold jsstring_eqb. destruct (list_eq_dec N.eq_dec a b); split; congruence.
Qed.

Lemma holds_text_str (s : jsstring) : s <> [] -> holds_text (JStr s).
Proof. intros H. exists s. auto. Qed.

(** C1, as the code has it.  In the record of an Aadhaar card the document
type, the name, the date of birth, the gender and the Aadhaar number each
hold a text that is not empty (a value or [Not found]), and the card number
and the father's name are [null]; in the record of a voter card the document
type, the name, the date of birth, the gender, the card number and the
father's name each hold a text that is not empty, and the Aadhaar number is
[null].  No key is ever absent: the record type has all seven. *)
Theorem extracted_fields_hold_text_or_null
  (r1Text r2Text textOrig text2x : jsstring) :
  let a := extractAadhaarFields r1Text r2Text in
  let v := extractVoterFields textOrig text2x in
  (holds_text (docType a) /\ holds_text (name a) /\ holds_text (dob a) /\
   holds_text (gender a) /\ holds_text (aadhaar a) /\
   cardNo a = JNull /\ fatherName a = JNull) /\
  (holds_text (docType v) /\ holds_text (name v) /\ holds_text (dob v) /\
   holds_text (gender v) /\ holds_text (cardNo v) /\ holds_text (fatherName v) /\
   aadhaar v = JNull).
Proof.
  intros a v. unfold a, v. rewrite aadhaar_fields, voter_fields. simpl.
  repeat split; try apply holds_text_str; try discriminate.
  - apply or_not_found_nonempty. apply first_name_nonempty.
  - apply extractDobFromLines_nonempty.
  - apply extractGender_nonempty.
  - apply aadhaar_number_rule_nonempty.
  - apply or_not_found_nonempty. apply first_voter_name_nonempty.
  - apply extractDobFromLines_nonempty.
  - unfold voter_gender_rule. destruct (jsstring_eqb _ _); apply extractGender_nonempty.
  - apply card_number_rule_nonempty.
  - apply father_name_rule_nonempty.
Qed.

(** C1 as stated fails: the fields that do not apply to the document type
are [null]. *)
Lemma inapplicable_fields_are_null :
  cardNo (extractAadhaarFields (str "Arun Kumar") (str "1234 5678 9012")) = JNull /\
  fatherName (extractAadhaarFields (str "Arun Kumar") (str "1234 5678 9012")) = JNull /\
  aadhaar (extractVoterFields (str "SOL3248432") (str "SOL3248432")) = JNull.
Proof. repeat split. Qed.

(** C5, as the code has it.  For an Aadhaar card the name, the date of birth
and the gender are the rules applied to the text of region A and the number
is the rule applied to the text of region B.  For a voter card the card
number, the name and the father's name are the rules applied to the two
passes joined by a line feed; the date of birth is the date rule (the same
as for an Aadhaar card) applied to the plain pass alone; the gender is that
of the enhanced pass, and that of the plain pass when the enhanced pass has
no match. *)
Theorem dispatch_of_recognised_texts
  (r1Text r2Text textOrig text2x : jsstring) :
  let a := extractAadhaarFields r1Text r2Text in
  let v := extractVoterFields textOrig text2x in
  let combined := textOrig ++ LF ++ text2x in
  (name a = JStr (aadhaar_name_rule r1Text) /\
   dob a = JStr (dob_rule r1Text) /\
   gender a = JStr (extractGender r1Text) /\
   aadhaar a = JStr (aadhaar_number_rule r2Text)) /\
  (cardNo v = JStr (card_number_rule combined) /\
   name v = JStr (voter_name_rule combined) /\
   fatherName v = JStr (father_name_rule combined) /\
   dob v = JStr (dob_rule textOrig)) /\
  (extractGender text2x <> NOT_FOUND -> gender v = JStr (extractGender text2x)) /\
  (extractGender text2x = NOT_FOUND -> gender v = JStr (extractGender textOrig)).
Proof.
  intros a v combined. unfold a, v.
  rewrite aadhaar_fields, voter_fields, dob_rule_lf_same. simpl.
  repeat split.
  - intros H. unfold voter_gender_rule.
    destruct (jsstring_eqb _ _) eqn:E; [ | reflexivity].
    apply jsstring_eqb_eq in E. contradiction.
  - intros H. unfold voter_gender_rule. rewrite H. reflexivity.
Qed.

(** C5 as stated fails: a date that only the enhanced pass shows is in the
joined text, where the date rule finds it, yet the record has none. *)
Lemma voter_dob_ignores_enhanced_pass :
  dob (extractVoterFields (str "SOL3248432") (str "DOB: 05/07/1990")) = JStr NOT_FOUND /\
  dob_rule (str "SOL3248432" ++ LF ++ str "DOB: 05/07/1990") = str "05/07/1990".
Proof. vm_compute. split; reflexivity. Qed.

End ExtractFacts.

(** ** The name detector and the title formatter *)

Module NameFacts.

Import Chars JsString Regex Scanner Spec MatcherSpec RegexFacts ClassFacts SearchFacts ExtractFacts.

(** *** Greedy runs of a class *)

Lemma take_drop_while (p : N -> bool) (s : jsstring) :
  take_while p s ++ drop_while p s = s.
Proof.
  induction s as [| c s IH]; simpl; [reflexivity | ].
  destruct (p c); simpl; [rewrite IH | ]; reflexivity.
Qed.

Lemma drop_while_length (p : N -> bool) (s : jsstring) :
  length (drop_while p s) <= length s.
Proof.
  induction s as [| c s IH]; simpl; [lia | ]. destruct (p c); simpl; lia.
Qed.

Lemma rep_opt_succ (step : mstate -> list mstate) (n : nat) (s : mstate) :
  rep_opt step (S n) s
  = flat_map (rep_opt step n) (List.filter (progressed s) (step s)) ++ [s].
Proof. reflexivity. Qed.

Lemma run_plus_unfold (r : regex) (s : mstate) :
  run (plus r) s
  = flat_map (fun e => rep_opt (run r) (length (after e)) e) (run r s).
Proof. reflexivity. Qed.

(** The optional iterations of a class read, first of all, the longest run. *)
Lemma rep_opt_class_head (p : N -> bool) :
  forall n s,
    length (after s) <= n ->
    exists tl,
      rep_opt (run (Class p)) n s
      = jump s (take_while p (after s)) (drop_while p (after s)) :: tl.
Proof.
  induction n as [| n IH]; intros s Hn.
  - destruct (after s) eqn:A; [ | simpl in Hn; lia].
    exists []. simpl. rewrite (jump_nil_end s A). reflexivity.
  - destruct (after s) as [| c rest] eqn:A.
    + exists []. rewrite rep_opt_succ, run_class_miss by auto.
      simpl. rewrite (jump_nil_end s A). reflexivity.
    + simpl take_while. simpl drop_while. destruct (p c) eqn:Hp.
      * rewrite rep_opt_succ, (run_class_hit p s A Hp).
        cbn [List.filter]. rewrite (progressed_jump s A), flat_map_one.
        destruct (IH (jump s [c] rest)) as (tl & Htl); [simpl in *; lia | ].
        rewrite Htl. simpl after. rewrite jump_cons.
        eexists. reflexivity.
      * exists []. rewrite rep_opt_succ, run_class_miss by eauto.
        simpl. rewrite (jump_nil_at s A). reflexivity.
Qed.

Lemma run_plus_class_miss (p : N -> bool) (s : mstate) :
  (after s = [] \/ exists c rest, after s = c :: rest /\ p c = false) ->
  run (plus (Class p)) s = [].
Proof.
  intros H. rewrite run_plus_unfold, (run_class_miss p s H). reflexivity.
Qed.

Lemma run_plus_class_head (p : N -> bool) (s : mstate) (c : N) (rest : list N) :
  after s = c :: rest -> p c = true ->
  exists tl,
    run (plus (Class p)) s
    = jump s (c :: take_while p rest) (drop_while p rest) :: tl.
Proof.
  intros A Hp. rewrite run_plus_unfold, (run_class_hit p s A Hp), flat_map_one.
  cbv beta. change (after (jump s [c] rest)) with rest.
  destruct (@rep_opt_class_head p (length rest) (jump s [c] rest)) as (tl & Htl);
    [simpl; lia | ].
  simpl after in Htl. rewrite Htl, jump_cons.
  eexists. reflexivity.
Qed.

(** *** Leading junk: [replace(/^[^A-Za-z]+/, "")] drops the longest prefix
without a letter *)

Lemma search_from_bol_fail (x : regex) :
  forall rest pre, pre <> [] -> search_from (Cat Bol x) pre rest = None.
Proof.
  induction rest as [| c rest IH]; intros pre Hpre;
    (destruct pre as [| a pre]; [congruence | ]); simpl; [reflexivity | ].
  apply IH. discriminate.
Qed.

Lemma run_bol_then (x : regex) (rest : list N) :
  run (Cat Bol x) (MState [] rest []) = run x (MState [] rest []).
Proof. simpl. apply app_nil_r. Qed.

Lemma remove_leading_junk (s : jsstring) :
  remove_first re_leading_junk s = drop_while is_junk s.
Proof.
  unfold remove_first, search, re_leading_junk.
  change (seq [Bol; plus (Class (fun c => negb (is_alpha c)))])
    with (Cat Bol (plus (Class is_junk))).
  destruct s as [| c rest].
  - rewrite search_from_nil, run_bol_then, run_plus_class_miss by (left; reflexivity).
    reflexivity.
  - rewrite search_from_cons, run_bol_then. simpl drop_while.
    destruct (is_junk c) eqn:Hc.
    + destruct (@run_plus_class_head is_junk (MState [] (c :: rest) []) c rest
                  eq_refl Hc) as (tl & ->).
      reflexivity.
    + rewrite run_plus_class_miss by (right; exists c, rest; auto).
      rewrite search_from_bol_fail by discriminate. reflexivity.
Qed.

Lemma drop_while_head (p : N -> bool) (s : jsstring) :
  drop_while p s = [] \/ exists c w, p c = false /\ drop_while p s = c :: w.
Proof.
  induction s as [| c s IH]; simpl; [auto | ].
  destruct (p c) eqn:Hp; [exact IH | right; eauto].
Qed.

(** *** Periods: [replace(/\./g, "")] removes every period *)

Lemma remove_class_all (p : N -> bool) :
  forall rest u pre fuel,
    length rest < fuel ->
    concat (pieces (u ++ rest) (scan (Class p) pre rest fuel))
    = u ++ List.filter (fun c => negb (p c)) rest.
Proof.
  induction rest as [| c rest IH]; intros u pre fuel Hf.
  - rewrite scan_end by (apply run_class_miss; left; reflexivity).
    simpl. rewrite !app_nil_r. reflexivity.
  - destruct fuel as [| fuel]; [inversion Hf | ]. simpl in Hf.
    destruct (p c) eqn:Hp.
    + rewrite (@scan_hit (Class p) pre rest c fuel (jump (MState pre (c :: rest) []) [c] rest) [])
        by (try (apply run_class_hit; auto); simpl; lia).
      rewrite pieces_hit. cbn [concat after jump].
      rewrite (IH [] _ fuel) by lia. simpl. rewrite Hp. reflexivity.
    + rewrite scan_skip by (apply run_class_miss; right; exists c, rest; auto).
      replace (u ++ c :: rest) with ((u ++ [c]) ++ rest)
        by (rewrite <- app_assoc; reflexivity).
      rewrite IH by lia. simpl. rewrite Hp. simpl. rewrite <- app_assoc. reflexivity.
Qed.

Lemma remove_periods (w : jsstring) : remove_all re_period w = without_periods w.
Proof.
  unfold remove_all, re_period, chr, without_periods.
  pose proof (@remove_class_all (N.eqb 46) w [] [] (S (length w))
                (Nat.lt_succ_diag_r _)) as H.
  cbn [app] in H. rewrite H.
  apply filter_ext. intros c. rewrite N.eqb_sym. reflexivity.
Qed.

(** *** Words: [split(/\s+/)] cuts at the runs of white space *)

Lemma words_gap :
  forall s cur, words_from cur true s = words_from cur false (drop_while is_space s).
Proof.
  induction s as [| c s IH]; intros cur; simpl; [reflexivity | ].
  destruct (is_space c) eqn:Hc; [apply IH | ]. simpl. rewrite Hc. reflexivity.
Qed.

Lemma split_spaces_pieces :
  forall n rest u pre fuel,
    length rest <= n -> length rest < fuel ->
    pieces (u ++ rest) (scan re_spaces pre rest fuel) = words_from (rev u) false rest.
Proof.
  unfold re_spaces, space.
  induction n as [| n IH]; intros rest u pre fuel Hn Hf.
  - destruct rest; [ | simpl in Hn; lia].
    rewrite scan_end by (apply run_plus_class_miss; left; reflexivity).
    simpl. rewrite app_nil_r, rev_involutive. reflexivity.
  - destruct rest as [| c rest].
    + rewrite scan_end by (apply run_plus_class_miss; left; reflexivity).
      simpl. rewrite app_nil_r, rev_involutive. reflexivity.
    + destruct fuel as [| fuel]; [inversion Hf | ]. simpl in Hn, Hf.
      cbn [words_from]. destruct (is_space c) eqn:Hc.
      * destruct (@run_plus_class_head is_space (MState pre (c :: rest) []) c rest
                    eq_refl Hc) as (tl & Hrun).
        pose proof (drop_while_length is_space rest) as Hd.
        rewrite (@scan_hit _ _ _ _ fuel _ _ Hrun) by (simpl; lia).
        rewrite pieces_hit. cbn [after jump]. rewrite rev_involutive.
        rewrite words_gap. f_equal.
        apply (IH (drop_while is_space rest) [] _ fuel); lia.
      * rewrite scan_skip by (apply run_plus_class_miss; right; exists c, rest; auto).
        replace (u ++ c :: rest) with ((u ++ [c]) ++ rest)
          by (rewrite <- app_assoc; reflexivity).
        rewrite (IH rest (u ++ [c]) (c :: pre) (S fuel)) by lia.
        rewrite rev_unit. reflexivity.
Qed.

Lemma split_spaces (t : jsstring) : Regex.split re_spaces t = words t.
Proof.
  unfold Regex.split, words. destruct t as [| c t].
  - unfold re_spaces, space.
    rewrite run_plus_class_miss by (left; reflexivity). reflexivity.
  - apply (@split_spaces_pieces (length (c :: t)) (c :: t) [] [] (S (length (c :: t))));
      lia.
Qed.

Lemma title_word_token (w : jsstring) : title_word w = title_token w.
Proof. unfold title_word, title_token. rewrite remove_periods. reflexivity. Qed.

(** *** The stripped line *)

Lemma in_run_trailing_digits (s e : mstate) :
  In e (run re_trailing_digits s) <->
  exists ws ds,
    all is_space ws /\ 1 <= length ws /\
    all is_digit ds /\ 1 <= length ds <= 2 /\
    moves s (ws ++ ds) e /\ after e = [].
Proof.
  unfold re_trailing_digits. rewrite in_run_seq_cons. split.
  - intros (m1 & H1 & H). apply in_run_seq_cons in H. destruct H as (m2 & H2 & H).
    change (seq [Eol]) with Eol in H. apply in_run_eol in H. destruct H as [-> He].
    apply in_run_rep_class in H1, H2.
    destruct H1 as (ws & Pw & Mw & Lw & _). destruct H2 as (ds & Pd & Md & Ld & Ld').
    simpl in Ld'. exists ws, ds. repeat split; auto; try lia; apply (moves_app Mw Md).
  - intros (ws & ds & Pw & Lw & Pd & Ld & M & He). apply moves_split in M.
    destruct M as [Mw Md]. exists (jump s ws (ds ++ after e)). split.
    + apply in_run_rep_class. exists ws. split; [exact Pw | split; [exact Mw | auto]].
    + apply in_run_seq_cons. exists e. split.
      * apply in_run_rep_class. exists ds.
        split; [exact Pd | split; [exact Md | simpl; lia]].
      * change (seq [Eol]) with Eol. apply in_run_eol. auto.
Qed.

(** Removing the trailing token leaves a prefix of the text. *)
Lemma remove_trailing_prefix (s : jsstring) :
  exists suffix, s = remove_first re_trailing_digits s ++ suffix.
Proof.
  destruct (search re_trailing_digits s) as [f | ] eqn:E.
  - destruct (@remove_first_some _ _ _ E) as (skipped & w & Hs & Hr & _ & _).
    apply search_end_in in E. apply in_run_trailing_digits in E.
    destruct E as (_ & _ & _ & _ & _ & _ & _ & He).
    rewrite Hr, He, app_nil_r. exists w. rewrite He, app_nil_r in Hs. exact Hs.
  - exists []. unfold remove_first. rewrite E, app_nil_r. reflexivity.
Qed.

Lemma digit_not_space (c : N) : is_digit c = true -> is_space c = false.
Proof. intros H. char_facts. Qed.

Lemma drop_while_all (p : N -> bool) (a b : jsstring) :
  all p a ->
  (b = [] \/ exists c w, p c = false /\ b = c :: w) ->
  drop_while p (a ++ b) = b.
Proof.
  intros Ha Hb. induction Ha as [| c a Hc Ha IH]; simpl.
  - destruct Hb as [-> | (c & w & Hc & ->)]; simpl; [ | rewrite Hc]; reflexivity.
  - rewrite Hc. exact IH.
Qed.

Lemma all_rev (p : N -> bool) (a : jsstring) : all p a -> all p (rev a).
Proof. apply Forall_rev. Qed.

(** A match of the trailing token, written on the text. *)
Lemma trailing_token_at (skipped ws ds : jsstring) :
  all is_space ws -> 1 <= length ws -> all is_digit ds -> 1 <= length ds <= 2 ->
  In (jump (start_at [] skipped (ws ++ ds)) (ws ++ ds) [])
     (run re_trailing_digits (start_at [] skipped (ws ++ ds))).
Proof.
  intros Pw Lw Pd Ld. apply in_run_trailing_digits. exists ws, ds.
  repeat split; auto; try lia. simpl. rewrite app_nil_r. reflexivity.
Qed.

(** [replace(/\s+\d{1,2}$/, "")] removes a last token of one or two digits
with the white space before it. *)
Lemma remove_trailing_token (s : jsstring) :
  remove_first re_trailing_digits s = without_trailing_token s.
Proof.
  destruct (search re_trailing_digits s) as [f | ] eqn:E.
  - unfold remove_first. rewrite E. unfold search in E.
    apply search_from_some in E.
    destruct E as (skipped & rest' & tl & Hs & Hp & Hst & Hrun & Hleft).
    assert (Hin : In (f_end f) (run re_trailing_digits (f_start f)))
      by (rewrite Hrun; left; reflexivity).
    apply in_run_trailing_digits in Hin.
    destruct Hin as (ws & ds & Pw & Lw & Pd & Ld & M & He).
    destruct M as (A & _). rewrite Hst, He, app_nil_r in A. simpl in A. subst rest'.
    rewrite Hp, He, !app_nil_r, rev_involutive.
    assert (Hends : rev skipped = [] \/
                    exists c w, is_space c = false /\ rev skipped = c :: w).
    { destruct (rev skipped) as [| x sk] eqn:Er; [left; reflexivity | right].
      exists x, sk. split; [ | reflexivity].
      destruct (is_space x) eqn:Hx; [exfalso | reflexivity].
      assert (Hsk : skipped = rev sk ++ [x]).
      { rewrite <- (rev_involutive skipped), Er. reflexivity. }
      specialize (Hleft (rev sk) [x] Hsk ltac:(discriminate)).
      pose proof (@trailing_token_at (rev sk) (x :: ws) ds) as Hm.
      simpl app in Hm, Hleft. rewrite Hleft in Hm. apply Hm; auto.
      - constructor; assumption.
      - simpl. lia. }
    subst s. unfold without_trailing_token. rewrite !rev_app_distr.
    destruct (rev ws) as [| xl rws] eqn:Ew.
    { apply (f_equal (@length N)) in Ew. rewrite length_rev in Ew. simpl in Ew. lia. }
    assert (Pr : all is_space (xl :: rws)) by (rewrite <- Ew; apply all_rev; exact Pw).
    inversion Pr as [| ? ? Hxl Prws]; subst.
    destruct ds as [| da [| db [| ? ?]]]; simpl in Ld; try lia.
    + inversion Pd as [| ? ? Hda _]; subst. simpl. rewrite Hda, Hxl.
      rewrite (drop_while_all Prws Hends). symmetry. apply rev_involutive.
    + inversion Pd as [| ? ? Hda Pd']; subst. inversion Pd' as [| ? ? Hdb _]; subst.
      simpl. rewrite Hdb, (digit_not_space _ Hda), Hda, Hxl.
      rewrite (drop_while_all Prws Hends). symmetry. apply rev_involutive.
  - unfold remove_first. rewrite E. unfold search in E.
    pose proof (proj1 (search_from_none re_trailing_digits s []) E) as Hnone.
    unfold without_trailing_token.
    destruct (rev s) as [| d1 [| x rest]] eqn:Er; try reflexivity.
    assert (Hs : s = rev rest ++ [x; d1]).
    { rewrite <- (rev_involutive s), Er. simpl. rewrite <- app_assoc. reflexivity. }
    destruct (is_digit d1) eqn:Hd1; [ | reflexivity].
    destruct (is_space x) eqn:Hx.
    + exfalso. specialize (Hnone (rev rest) [x; d1] Hs).
      pose proof (@trailing_token_at (rev rest) [x] [d1]) as Hm.
      simpl app in Hm. rewrite Hnone in Hm. apply Hm; simpl; auto;
        repeat constructor; assumption.
    + destruct (is_digit x) eqn:Hdx; [ | reflexivity].
      destruct rest as [| y rest']; [reflexivity | ].
      destruct (is_space y) eqn:Hy; [exfalso | reflexivity].
      assert (Hs' : s = rev rest' ++ [y; x; d1]).
      { rewrite Hs. simpl. rewrite <- app_assoc. reflexivity. }
      specialize (Hnone (rev rest') [y; x; d1] Hs').
      pose proof (@trailing_token_at (rev rest') [y] [x; d1]) as Hm.
      simpl app in Hm. rewrite Hnone in Hm. apply Hm; simpl; auto;
        repeat constructor; assumption.
Qed.

(** The stripped line, without the matcher. *)
Lemma stripped_spec (line : jsstring) :
  stripped line = trim (without_trailing_token (trim (drop_while is_junk line))).
Proof.
  unfold stripped. rewrite remove_leading_junk, remove_trailing_token. reflexivity.
Qed.

Lemma headed_trim (t : jsstring) : headed t -> headed (trim t).
Proof.
  intros [-> | (c & w & Hc & ->)]; [left; reflexivity | right].
  destruct (@trim_keeps_head c w (alpha_not_space _ Hc)) as (w' & ->). eauto.
Qed.

Lemma headed_prefix (t p suffix : jsstring) : headed t -> t = p ++ suffix -> headed p.
Proof.
  intros [-> | (c & w & Hc & ->)] H.
  - symmetry in H. apply app_eq_nil in H. left. tauto.
  - destruct p as [| a p]; [left; reflexivity | right].
    simpl in H. injection H as <- _. eauto.
Qed.

(** The stripped line is empty or begins with a letter. *)
Lemma stripped_headed (line : jsstring) : headed (stripped line).
Proof.
  unfold stripped. apply headed_trim.
  destruct (remove_trailing_prefix (trim (remove_first re_leading_junk line)))
    as (suffix & H).
  apply (@headed_prefix (trim (remove_first re_leading_junk line)) _ suffix);
    [ | exact H].
  apply headed_trim. rewrite remove_leading_junk.
  destruct (drop_while_head is_junk line) as [-> | (c & w & Hc & ->)];
    [left; reflexivity | right].
  exists c, w. split; [ | reflexivity]. unfold is_junk in Hc.
  apply negb_false_iff in Hc. exact Hc.
Qed.

(** *** The shape test *)

Lemma test_name_shape (c : N) (w : jsstring) :
  is_alpha c = true -> all is_name_char w -> 1 <= length w ->
  test re_name_shape (c :: w) = true.
Proof.
  intros Hc Hw Hl. apply test_true. exists [], (c :: w).
  set (s0 := start_at [] [] (c :: w)).
  exists (jump (jump s0 [c] w) w []). split; [reflexivity | ].
  unfold re_name_shape. apply in_run_seq_cons. exists s0. split.
  { apply in_run_bol. auto. }
  apply in_run_seq_cons. exists (jump s0 [c] w). split.
  { apply in_run_class. exists c. split; [exact Hc | ]. apply moves_jump. auto. }
  apply in_run_seq_cons. exists (jump (jump s0 [c] w) w []). split.
  { apply in_run_rep_class. exists w. split; [exact Hw | ]. split; [ | auto].
    apply moves_jump. simpl. rewrite app_nil_r. auto. }
  change (seq [Eol]) with Eol. apply in_run_eol. auto.
Qed.

Lemma blacklist_test (t : jsstring) :
  existsb (fun b => includes (toLowerCase t) b) BLACKLIST = true <-> blacklisted t.
Proof.
  rewrite existsb_exists. unfold blacklisted.
  split; intros (b & Hb & H); exists b; (split; [exact Hb | ]); apply includes_spec; exact H.
Qed.

Lemma existsb_same (A : Type) (f g : A -> bool) (l : list A) :
  (forall x, f x = g x) -> existsb f l = existsb g l.
Proof.
  intros H. induction l as [| x l IH]; simpl; [reflexivity | ].
  rewrite H, IH. reflexivity.
Qed.

(** What [isName] computes, in terms of the stripped line. *)
Lemma isName_stripped (line : jsstring) :
  isName line =
  let t := stripped line in
  if existsb (fun b => includes (toLowerCase t) b) BLACKLIST then false
  else if negb (test re_name_shape t) then false
  else if ((length t <? 4) || (50 <? length t))%bool then false
  else if 2 <=? length (words t)
       then existsb (fun w => 3 <=? length (without_periods w)) (words t)
       else 6 <=? length (hd [] (words t)).
Proof.
  unfold isName. fold (stripped line). cbv zeta. rewrite split_spaces.
  destruct (existsb _ BLACKLIST); [reflexivity | ].
  destruct (negb _); [reflexivity | ].
  destruct (_ || _)%bool; [reflexivity | ].
  destruct (2 <=? _); [ | reflexivity].
  apply existsb_same. intros w. rewrite remove_periods. reflexivity.
Qed.

Lemma smartTitle_stripped (line : jsstring) :
  smartTitle line = join (str " ") (List.map title_token (words (stripped line))).
Proof.
  unfold smartTitle. fold (stripped line). cbv zeta. rewrite split_spaces.
  f_equal. apply map_ext. apply title_word_token.
Qed.

(** C3, as the code has it.  Let [t] be the line without its leading
non-letters and without a trailing token of one or two digits and the white
space before it, trimmed after each removal.  If [t] holds
only letters, white space and periods, has 4 to 50 characters, contains no
term of the blacklist once in lower case, and has either at least two words
of which one has three characters or more besides periods, or a single word
of six characters or more, then the detector accepts the line and the
formatter returns a text that is not empty: the words of [t] in title case,
joined by single spaces.  A line whose [t] contains a term of the blacklist
is rejected.  The line [Balavisakan 14] yields the name [Balavisakan]. *)
Theorem name_lines_are_accepted_and_titled (line : jsstring) :
  let t := stripped line in
  t = trim (without_trailing_token (trim (drop_while is_junk line))) /\
  (all is_name_char t ->
   4 <= length t <= 50 ->
   ~ blacklisted t ->
   (2 <= length (words t) /\
    (exists w, In w (words t) /\ 3 <= length (without_periods w))) \/
   (exists w, words t = [w] /\ 6 <= length w) ->
   isName line = true /\
   smartTitle line <> [] /\
   smartTitle line = join (str " ") (List.map title_token (words t))) /\
  (blacklisted t -> isName line = false) /\
  (line = str "Balavisakan 14" ->
   isName line = true /\ smartTitle line = str "Balavisakan").
Proof.
  intros t. split; [apply stripped_spec | ]. split; [ | split].
  - intros Hall Hlen Hbl Hwords.
    assert (Hname : isName line = true).
    { rewrite isName_stripped. fold t. cbv zeta.
      destruct (existsb _ BLACKLIST) eqn:Eb.
      { exfalso. apply Hbl. apply blacklist_test. exact Eb. }
      destruct (stripped_headed line) as [E | (c & w & Hc & E)]; fold t in E.
      { rewrite E in Hlen. simpl in Hlen. lia. }
      assert (Hshape : test re_name_shape t = true).
      { rewrite E. rewrite E in Hall, Hlen. inversion Hall; subst.
        apply test_name_shape; auto. simpl in Hlen. lia. }
      rewrite Hshape. cbn [negb].
      destruct (Nat.ltb_spec (length t) 4); [lia | ].
      destruct (Nat.ltb_spec 50 (length t)); [lia | ]. cbn [orb].
      destruct Hwords as [[H2 (w0 & Hin & H3)] | (w0 & Hw & H6)].
      - destruct (Nat.leb_spec 2 (length (words t))); [ | lia].
        apply existsb_exists. exists w0. split; [exact Hin | ].
        apply Nat.leb_le. exact H3.
      - rewrite Hw. change (2 <=? length [w0]) with false. cbv iota. cbn [hd].
        apply Nat.leb_le. exact H6. }
    split; [exact Hname | ]. split.
    + apply smartTitle_nonempty. exact Hname.
    + apply smartTitle_stripped.
  - intros Hbl. rewrite isName_stripped. fold t. cbv zeta.
    apply blacklist_test in Hbl. rewrite Hbl. reflexivity.
  - intros ->. vm_compute. split; reflexivity.
Qed.

Lemma name_lines_are_accepted_and_titled_witness :
  all is_name_char (stripped (str "Dr. arun K 5")) /\
  4 <= length (stripped (str "Dr. arun K 5")) <= 50 /\
  isName (str "Dr. arun K 5") = true /\
  smartTitle (str "Dr. arun K 5") = str "DR. Arun K".
Proof.
  destruct (name_lines_are_accepted_and_titled (str "Dr. arun K 5"))
    as (_ & Haccept & _ & _).
  assert (Hall : all is_name_char (stripped (str "Dr. arun K 5")))
    by (vm_compute; repeat constructor).
  assert (Hlen : 4 <= length (stripped (str "Dr. arun K 5")) <= 50)
    by (vm_compute; lia).
  split; [exact Hall | ]. split; [exact Hlen | ].
  assert (Hbl : ~ blacklisted (stripped (str "Dr. arun K 5"))).
  { intros H. apply blacklist_test in H. vm_compute in H. discriminate H. }
  destruct (Haccept Hall Hlen Hbl) as (Hname & _ & Htitle).
  { left. split; [vm_compute; lia | ]. exists (str "arun"). split.
    - vm_compute. right. left. reflexivity.
    - vm_compute. lia. }
  split; [exact Hname | ]. rewrite Htitle. vm_compute. reflexivity.
Defined.

(** C3 as stated fails: a blacklisted term among the leading non-letters is
stripped before the blacklist is consulted, and the line is accepted. *)
Lemma blacklisted_prefix_is_accepted :
  In (str "1800") BLACKLIST /\
  occurs_in (str "1800") (toLowerCase (str "1800 Arun Kumar")) /\
  isName (str "1800 Arun Kumar") = true /\
  smartTitle (str "1800 Arun Kumar") = str "Arun Kumar".
Proof.
  split; [vm_compute; tauto | ]. split; [ | vm_compute; split; reflexivity].
  exists [], (str " arun kumar"). reflexivity.
Qed.

End NameFacts.

(** ** The document classifier *)

Module ClassifierFacts.

Import Chars JsString Regex Scanner Spec MatcherSpec RegexFacts ClassFacts SearchFacts.

Lemma includes_mentions (kw : string) (text : jsstring) :
  includes (toLowerCase text) (str kw) = true <-> mentions kw text.
Proof. apply includes_spec. Qed.

Lemma in_run_seq_app (rs1 rs2 : list regex) :
  forall s e,
    In e (run (seq (rs1 ++ rs2)) s) <->
    exists m, In m (run (seq rs1) s) /\ In e (run (seq rs2) m).
Proof.
  induction rs1 as [| r rs1 IH]; intros s e.
  - simpl app. split.
    + intros H. exists s. split; [left; reflexivity | exact H].
    + intros (m & Hm & He). apply in_run_seq_nil in Hm. subst m. exact He.
  - change ((r :: rs1) ++ rs2) with (r :: (rs1 ++ rs2)).
    rewrite in_run_seq_cons. split.
    + intros (m & Hm & He). apply IH in He. destruct He as (m' & Hm' & He).
      exists m'. split; [ | exact He]. apply in_run_seq_cons. exists m. auto.
    + intros (m' & Hm' & He). apply in_run_seq_cons in Hm'.
      destruct Hm' as (m & Hm & Hm'). exists m. split; [exact Hm | ].
      apply IH. exists m'. auto.
Qed.

Lemma seq_extends (rs : list regex) (s e : mstate) :
  In e (run (seq rs) s) -> extends s e.
Proof. apply run_extends. Qed.

(** A pattern between two [\b], searched in a text. *)
Lemma test_word_pattern (rs : list regex) (text : jsstring) :
  test (seq (WordB :: rs ++ [WordB])) text = true <->
  exists pre w post e,
    text = pre ++ w ++ post /\
    In e (run (seq rs) (start_at [] pre (w ++ post))) /\ after e = post /\
    at_boundary pre (w ++ post) /\ at_boundary (pre ++ w) post.
Proof.
  rewrite test_true. split.
  - intros (pre & rest & e & Ht & He).
    apply in_run_seq_cons in He. destruct He as (m & Hm & He).
    apply in_run_wordb in Hm. destruct Hm as [-> Hb].
    apply in_run_seq_app in He. destruct He as (m & Hm & He).
    change (seq [WordB]) with WordB in He. apply in_run_wordb in He.
    destruct He as [-> Hb'].
    destruct (@seq_extends rs _ _ Hm) as [w [A B]]. simpl in A, B.
    exists pre, w, (after m), m. rewrite <- A. repeat split; auto.
    + unfold start_at in Hb. rewrite app_nil_r in Hb. exact Hb.
    + unfold at_boundary, last_is_word. rewrite rev_app_distr.
      rewrite app_nil_r in B. rewrite <- B. exact Hb'.
  - intros (pre & w & post & e & Ht & He & Ha & Hb & Hb').
    exists pre, (w ++ post), e. split; [exact Ht | ].
    apply in_run_seq_cons. exists (start_at [] pre (w ++ post)). split.
    + apply in_run_wordb. split; [reflexivity | ].
      unfold start_at. rewrite app_nil_r. exact Hb.
    + apply in_run_seq_app. exists e. split; [exact He | ].
      change (seq [WordB]) with WordB. apply in_run_wordb. split; [reflexivity | ].
      destruct (@seq_extends rs _ _ He) as [w' [A B]]. simpl in A, B.
      rewrite Ha in A. apply app_inv_tail in A. subst w'.
      unfold boundary, word_before, word_after. rewrite B, Ha, app_nil_r.
      rewrite <- rev_app_distr. exact Hb'.
Qed.

Lemma in_run_card_shape (s e : mstate) :
  In e (run re_card_shape s) <->
  exists letters digits,
    all is_upper letters /\ 2 <= length letters <= 4 /\
    all is_digit digits /\ 6 <= length digits <= 10 /\
    moves s (letters ++ digits) e.
Proof.
  unfold re_card_shape. rewrite in_run_seq_cons.
  change (seq [range 6 10 digit]) with (Rep 6 (Some 10) (Class is_digit)).
  unfold range. split.
  - intros (m & Hm & He). apply in_run_rep_class in Hm, He.
    destruct Hm as (l & Pl & Ml & L1 & L2). destruct He as (d & Pd & Md & D1 & D2).
    exists l, d. simpl in L2, D2. repeat split; auto; try lia; apply (moves_app Ml Md).
  - intros (l & d & Pl & Ll & Pd & Ld & M). apply moves_split in M.
    destruct M as [Ml Md]. exists (jump s l (d ++ after e)).
    split; apply in_run_rep_class.
    + exists l. split; [exact Pl | split; [exact Ml | simpl; lia]].
    + exists d. split; [exact Pd | split; [exact Md | simpl; lia]].
Qed.

Lemma moves_after (pre w post : jsstring) (e : mstate) :
  moves (start_at [] pre (w ++ post)) w e <-> e = jump (start_at [] pre (w ++ post)) w post.
Proof.
  rewrite moves_jump. simpl. split.
  - intros [A ->]. apply app_inv_head in A. rewrite <- A. reflexivity.
  - intros ->. simpl. auto.
Qed.

Lemma test_card (text : jsstring) :
  test re_card_test text = true <-> has_card_number text.
Proof.
  unfold re_card_test. rewrite (test_word_pattern [re_card_shape]).
  change (seq [re_card_shape]) with re_card_shape. split.
  - intros (pre & w & post & e & Ht & He & Ha & Hb & Hb').
    apply in_run_card_shape in He.
    destruct He as (l & d & Pl & Ll & Pd & Ld & M).
    assert (w = l ++ d).
    { destruct M as (A & _). simpl in A. rewrite Ha in A.
      apply app_inv_tail in A. exact A. }
    subst w. exists pre, l, d, post. repeat split; auto; try lia.
  - intros (pre & l & d & post & Ht & Pl & Ll & Pd & Ld & Hb & Hb').
    exists pre, (l ++ d), post. eexists. split; [exact Ht | ]. split; [ | split].
    + apply in_run_card_shape. exists l, d.
      split; [exact Pl | split; [exact Ll | split; [exact Pd | split; [exact Ld | ]]]].
      apply moves_after. reflexivity.
    + reflexivity.
    + split; [exact Hb | ]. exact Hb'.
Qed.

Lemma in_run_digits4 (s e : mstate) :
  In e (run (range 4 4 digit) s) <->
  exists g, all is_digit g /\ length g = 4 /\ moves s g e.
Proof.
  unfold range, digit. rewrite in_run_rep_class. simpl. split.
  - intros (g & P & M & L1 & L2). exists g. repeat split; auto; try lia; apply M.
  - intros (g & P & L & M). exists g. repeat split; auto; try lia; apply M.
Qed.

Lemma in_run_opt_space (s e : mstate) :
  In e (run (opt space) s) <->
  exists w, all is_space w /\ length w <= 1 /\ moves s w e.
Proof.
  unfold opt, space. rewrite in_run_rep_class. simpl. split.
  - intros (g & P & M & L1 & L2). exists g. repeat split; auto; try lia; apply M.
  - intros (g & P & L & M). exists g. repeat split; auto; try lia; apply M.
Qed.

Lemma in_run_grouped_number (s e : mstate) :
  In e (run (seq [range 4 4 digit; opt space; range 4 4 digit; opt space;
                  range 4 4 digit]) s) <->
  exists g1 s1 g2 s2 g3,
    all is_digit g1 /\ length g1 = 4 /\
    all is_space s1 /\ length s1 <= 1 /\
    all is_digit g2 /\ length g2 = 4 /\
    all is_space s2 /\ length s2 <= 1 /\
    all is_digit g3 /\ length g3 = 4 /\
    moves s (g1 ++ s1 ++ g2 ++ s2 ++ g3) e.
Proof.
  split.
  - intros H.
    apply in_run_seq_cons in H. destruct H as (m1 & H1 & H).
    apply in_run_seq_cons in H. destruct H as (m2 & H2 & H).
    apply in_run_seq_cons in H. destruct H as (m3 & H3 & H).
    apply in_run_seq_cons in H. destruct H as (m4 & H4 & H).
    change (seq [range 4 4 digit]) with (range 4 4 digit) in H.
    apply in_run_digits4 in H1, H3, H. apply in_run_opt_space in H2, H4.
    destruct H1 as (g1 & P1 & L1 & M1). destruct H2 as (s1 & P2 & L2 & M2).
    destruct H3 as (g2 & P3 & L3 & M3). destruct H4 as (s2 & P4 & L4 & M4).
    destruct H as (g3 & P5 & L5 & M5).
    exists g1, s1, g2, s2, g3. repeat split; auto;
      apply (moves_app M1 (moves_app M2 (moves_app M3 (moves_app M4 M5)))).
  - intros (g1 & s1 & g2 & s2 & g3 & P1 & L1 & P2 & L2 & P3 & L3 & P4 & L4 & P5 & L5 & M).
    apply moves_split in M. destruct M as [M1 M].
    apply moves_split in M. destruct M as [M2 M].
    apply moves_split in M. destruct M as [M3 M].
    apply moves_split in M. destruct M as [M4 M5].
    apply in_run_seq_cons. eexists. split; [apply in_run_digits4; exists g1; eauto | ].
    apply in_run_seq_cons. eexists. split; [apply in_run_opt_space; exists s1; eauto | ].
    apply in_run_seq_cons. eexists. split; [apply in_run_digits4; exists g2; eauto | ].
    apply in_run_seq_cons. eexists. split; [apply in_run_opt_space; exists s2; eauto | ].
    change (seq [range 4 4 digit]) with (range 4 4 digit).
    apply in_run_digits4. exists g3. eauto.
Qed.

Lemma test_grouped_number (text : jsstring) :
  test re_aadhaar_test text = true <-> has_grouped_number text.
Proof.
  unfold re_aadhaar_test.
  rewrite (test_word_pattern
             [range 4 4 digit; opt space; range 4 4 digit; opt space; range 4 4 digit]).
  split.
  - intros (pre & w & post & e & Ht & He & Ha & Hb & Hb').
    apply in_run_grouped_number in He.
    destruct He as (g1 & s1 & g2 & s2 & g3 & P1 & L1 & P2 & L2 & P3 & L3 & P4 & L4
                    & P5 & L5 & M).
    assert (w = g1 ++ s1 ++ g2 ++ s2 ++ g3).
    { destruct M as (A & _). simpl in A. rewrite Ha in A.
      apply app_inv_tail in A. exact A. }
    subst w. exists pre, g1, s1, g2, s2, g3, post. repeat split; auto.
  - intros (pre & g1 & s1 & g2 & s2 & g3 & post & Ht & P1 & L1 & P2 & L2 & P3 & L3
            & P4 & L4 & P5 & L5 & Hb & Hb').
    exists pre, (g1 ++ s1 ++ g2 ++ s2 ++ g3), post.
    exists (jump (start_at [] pre ((g1 ++ s1 ++ g2 ++ s2 ++ g3) ++ post))
              (g1 ++ s1 ++ g2 ++ s2 ++ g3) post).
    split; [exact Ht | ]. split; [ | split; [reflexivity | split; [exact Hb | exact Hb']]].
    apply in_run_grouped_number. exists g1, s1, g2, s2, g3.
    repeat (split; [assumption | ]). apply moves_after. reflexivity.
Qed.

Lemma orb3_false (a b c : bool) :
  (a || b || c)%bool = false <-> a = false /\ b = false /\ c = false.
Proof. destruct a, b, c; simpl; intuition congruence. Qed.

(** Close a branch of the cascade: the result is read off, or a hypothesis
contradicts the test that selected the branch. *)
Ltac settle_case :=
  intros; try reflexivity; exfalso;
  first
    [ match goal with
      | H : ?P, E : _ <-> ?P |- _ => apply E in H; discriminate H
      end
    | match goal with
      | H : ~ ?P, E : _ <-> ?P |- _ => apply H; apply E; reflexivity
      end ].

(** C2, as the code has it.  The classifier returns one of the three kinds
for every text, by this cascade: a text that mentions a voter keyword (its
lower-cased form contains [election], [elector] or [voter]) is a voter card;
otherwise a text that mentions an Aadhaar keyword is an Aadhaar card;
otherwise a text with two to four upper-case letters followed by six to ten
digits between word boundaries is a voter card; otherwise a text with three
groups of four digits, at most one white-space character between groups,
between word boundaries, is an Aadhaar card; otherwise the kind is unknown.
The fragment [ELECTION C] is a voter card. *)
Theorem detectDocType_cascade (text : jsstring) :
  (voter_keyword text -> detectDocType text = Voter) /\
  (~ voter_keyword text -> aadhaar_keyword text -> detectDocType text = Aadhaar) /\
  (~ voter_keyword text -> ~ aadhaar_keyword text -> has_card_number text ->
   detectDocType text = Voter) /\
  (~ voter_keyword text -> ~ aadhaar_keyword text -> ~ has_card_number text ->
   has_grouped_number text -> detectDocType text = Aadhaar) /\
  (~ voter_keyword text -> ~ aadhaar_keyword text -> ~ has_card_number text ->
   ~ has_grouped_number text -> detectDocType text = Unknown) /\
  detectDocType (str "ELECTION C") = Voter.
Proof.
  assert (Hv : (includes (toLowerCase text) (str "election")
                || includes (toLowerCase text) (str "elector")
                || includes (toLowerCase text) (str "voter"))%bool = true
               <-> voter_keyword text).
  { unfold voter_keyword. rewrite !orb_true_iff, !includes_mentions. tauto. }
  assert (Ha : (includes (toLowerCase text) (str "aadhaar")
                || includes (toLowerCase text) (str "aadhar")
                || includes (toLowerCase text) (str "uidai")
                || includes (toLowerCase text) (str "government of india"))%bool = true
               <-> aadhaar_keyword text).
  { unfold aadhaar_keyword. rewrite !orb_true_iff, !includes_mentions. tauto. }
  pose proof (test_card text) as Hc. pose proof (test_grouped_number text) as Hg.
  unfold detectDocType.
  destruct (includes (toLowerCase text) (str "election")
            || includes (toLowerCase text) (str "elector")
            || includes (toLowerCase text) (str "voter"))%bool;
    [repeat split; settle_case | ].
  destruct (includes (toLowerCase text) (str "aadhaar")
            || includes (toLowerCase text) (str "aadhar")
            || includes (toLowerCase text) (str "uidai")
            || includes (toLowerCase text) (str "government of india"))%bool;
    [repeat split; settle_case | ].
  destruct (test re_card_test text); [repeat split; settle_case | ].
  destruct (test re_aadhaar_test text); repeat split; settle_case.
Qed.

(** C2 as stated fails: two lower-case letters followed by six digits are
not taken for a voter card, nor are twelve digits grouped by hyphens taken
for an Aadhaar card. *)
Lemma lowercase_card_number_is_unknown :
  detectDocType (str "ab123456") = Unknown /\
  detectDocType (str "1234-5678-9012") = Unknown.
Proof. vm_compute. split; reflexivity. Qed.

End ClassifierFacts.

(** ** One upload: failure of the recognition library, quality message *)

Module PipelineFacts.

Import Chars JsString Regex Scanner Pipeline Spec Shapes ExtractFacts.

#[local] Arguments extractVoterFields : simpl never.
#[local] Arguments extractAadhaarFields : simpl never.
#[local] Arguments detectDocType : simpl never.
#[local] Arguments quality_message : simpl never.
#[local] Arguments MSG_ERROR : simpl never.
#[local] Arguments str : simpl never.
#[local] Arguments Cache.saveLastResult : simpl never.

Lemma skipn_length_app (A : Type) (l r : list A) : skipn (length l) (l ++ r) = r.
Proof. induction l; simpl; auto. Qed.

Lemma skipn_length_nil (A : Type) (l : list A) : skipn (length l) l = [].
Proof. induction l; simpl; auto. Qed.

Ltac unfold_upload H :=
  unfold handleUpload, try_catch_finally, report, lift, runOcr, cropToBlob,
    enhancedBlob, make_blob, ocrBlob, saveLastResult, onExtract, setResult,
    setLoading, setStage, setStatusMsg, modify, bind, ret, throw, pending in H;
  simpl in H.

(** One step of the case analysis along the run described by [H]: what the
canvas answers for the sub-image [b], what the library answers for it, which
kind the classifier gives. *)
Ltac canvas_answer cap H b :=
  match type of H with
  | context [match canvas cap b with _ => _ end] =>
      let E := fresh "E" in
      destruct (canvas cap b) eqn:E; simpl in H
  | _ => idtac
  end.

Ltac library_answer cap H b :=
  match type of H with
  | context [match recognize cap b with _ => _ end] =>
      let E := fresh "E" in
      destruct (recognize cap b) as [? | [? | ? | ?] | ] eqn:E; simpl in H
  | _ => idtac
  end.

Ltac classifier_answer H :=
  match type of H with
  | context [match detectDocType ?t with _ => _ end] =>
      let D := fresh "D" in
      destruct (detectDocType t) eqn:D; simpl in H
  | _ => idtac
  end.

(** The steps in the order of the program. *)
Ltac split_run cap H :=
  canvas_answer cap H (Crop 0 0 100 22);
  library_answer cap H (Crop 0 0 100 22);
  classifier_answer H;
  canvas_answer cap H (Crop 0 0 100 100);
  library_answer cap H (Crop 0 0 100 100);
  canvas_answer cap H (Enhanced 2 180);
  library_answer cap H (Enhanced 2 180);
  canvas_answer cap H (Crop 33 10 67 62);
  library_answer cap H (Crop 33 10 67 62);
  canvas_answer cap H (Crop 5 72 90 12);
  library_answer cap H (Crop 5 72 90 12).

Ltac made_calls :=
  first [ apply skipn_length_nil
        | rewrite <- ?app_assoc; apply skipn_length_app ].

Ltac all_returned := repeat constructor; eexists; reflexivity.

Ltac last_call :=
  match goal with
  | |- ended_in_call ?l _ =>
      exists (removelast l), (last l (Build_Call [] (Crop 0 0 0 0) Pending));
      simpl; split; [reflexivity | split; [reflexivity | all_returned]]
  end.

Ltac at_canvas :=
  eexists; split; [eassumption | ];
  split; [all_returned | split; [simpl; lia | simpl; intuition discriminate]].

Ltac same_world := simpl; rewrite ?app_nil_r, <- ?app_assoc; reflexivity.

Ltac branch_taken :=
  first [ left; refine (conj _ (conj eq_refl eq_refl)); assumption
        | right; refine (conj _ (conj eq_refl eq_refl)); congruence ].

Ltac settle_run :=
  first
    [ solve [ left; do 4 eexists; split; [branch_taken | same_world] ]
    | solve [ right; left; eexists; split;
              [ first [ left; last_call
                      | right; left; split; [at_canvas | reflexivity]
                      | right; right; split; [at_canvas | reflexivity] ]
              | same_world ] ]
    | solve [ right; right; eexists;
              (split; [ | split; [ first [left; last_call | right; at_canvas]
                                 | same_world ] ]);
              discriminate ] ].

(** The three ends of an upload with a file, each with the calls made and
the world left.  The run produced a record: three calls, all returned, on
the regions of the kind that the classifier gave the first text.  The run
was rejected: the handler reads the message of what it was rejected with,
and the cleanup follows whether the read succeeds or throws.  The run waits
for ever: neither the handler nor the cleanup runs, the loading flag stays
set and the stage text stays as it was last set. *)
Lemma upload_cases (cap : Capabilities) (w : World) :
  exists made,
    calls_of_run cap w = made /\
    NoDup (List.map call_blob made) /\
    ((exists t0 t1 t2 r,
        ((detectDocType t0 = Voter /\ made = voter_calls t0 t1 t2 /\
          r = extractVoterFields t1 t2) \/
         (detectDocType t0 <> Voter /\ made = aadhaar_calls t0 t1 t2 /\
          r = extractAadhaarFields t1 t2)) /\
        handleUpload cap true w
        = (Returns tt,
           Build_World (Some r) false [] (quality_message r)
             (Cache.saveLastResult (writable cap) (clock cap) r (storage w))
             (calls w ++ made) (handed w ++ [r]))) \/
     (exists err,
        rejected cap made err /\
        handleUpload cap true w
        = match message_of err with
          | Returns message =>
              (Returns tt,
               Build_World None false [] (MSG_ERROR message) (storage w)
                 (calls w ++ made) (handed w))
          | Throws err' =>
              (Throws err',
               Build_World None false [] [] (storage w)
                 (calls w ++ made) (handed w))
          | Pending => (Pending, w)
          end) \/
     (exists st,
        st <> [] /\ stuck cap made /\
        handleUpload cap true w
        = (Pending,
           Build_World None true st [] (storage w) (calls w ++ made)
             (handed w)))).
Proof.
  unfold calls_of_run.
  set (out := handleUpload cap true w).
  assert (Hout : out = handleUpload cap true w) by reflexivity.
  clearbody out. unfold_upload Hout.
  split_run cap Hout.
  all: subst out; cbn [fst snd calls].
  all: eexists; (split; [made_calls | ]).
  all: (split; [simpl; repeat constructor; simpl; intuition discriminate | ]).
  all: settle_run.
Qed.

Lemma read_calls_returned (t0 t1 t2 : jsstring) :
  Forall returned (voter_calls t0 t1 t2) /\
  Forall returned (aadhaar_calls t0 t1 t2).
Proof. split; repeat constructor; eexists; reflexivity. Qed.

Lemma returned_settled (made : list Call) (c : Call) (err : Thrown) :
  Forall returned made -> In c made -> call_outcome c = Throws err -> False.
Proof.
  intros F Hin Hc. rewrite Forall_forall in F.
  destruct (F _ Hin) as [text Ht]. congruence.
Qed.

(** A call that was rejected is the last call of a run that was rejected
with the same value. *)
Lemma rejected_call_ends_run (made : list Call) (o : Outcome jsstring)
  (c : Call) (err : Thrown) :
  ended_in_call made o -> In c made -> call_outcome c = Throws err ->
  o = Throws err /\
  exists earlier, made = earlier ++ [c] /\ Forall returned earlier.
Proof.
  intros (earlier & c' & -> & Ho & F) Hin Hc.
  apply in_app_or in Hin. destruct Hin as [Hin | [<- | []]].
  - destruct (@returned_settled _ _ _ F Hin Hc).
  - split; [congruence | ]. exists earlier. auto.
Qed.

(** C9.  If a recognition call of an upload is rejected, the upload ends at
once: the rejected call is the last recognition call of the run, every
earlier one returned, and no sub-image was submitted twice.  The run leaves
no result, nothing written to the storage, nothing handed to the caller and
the loading flag cleared.  The status is the fixed prefix followed by what
[err.message] reads on the value the library rejected with: the message of
an [Error]; the text [undefined] for a string, whatever the string says;
and for [null] or [undefined] the read itself throws, the status stays empty
and the upload is rejected in turn.  In no case is the status drawn: the
component shows it inside the results card, and there is no result. *)
Theorem recognition_error_aborts_upload
  (cap : Capabilities) (w : World) (c : Call) (err : Thrown) :
  In c (calls_of_run cap w) ->
  call_outcome c = Throws err ->
  let out := handleUpload cap true w in
  result (snd out) = None /\
  storage (snd out) = storage w /\
  handed (snd out) = handed w /\
  loading (snd out) = false /\
  (exists earlier, calls_of_run cap w = earlier ++ [c] /\ Forall returned earlier) /\
  NoDup (List.map call_blob (calls_of_run cap w)) /\
  rendered_status (snd out) = None /\
  match err with
  | ThrownError message =>
      fst out = Returns tt /\ statusMsg (snd out) = MSG_ERROR message
  | ThrownPlain _ =>
      fst out = Returns tt /\ statusMsg (snd out) = MSG_ERROR (str "undefined")
  | ThrownNullish complaint =>
      fst out = Throws (ThrownError complaint) /\ statusMsg (snd out) = []
  end.
Proof.
  intros Hin Hthrow out. subst out.
  destruct (upload_cases cap w) as (made & Hmade & Hnd & Hcases).
  rewrite Hmade in *. clear Hmade.
  destruct Hcases
    as [(t0 & t1 & t2 & r & Hb & _) | [(err' & Hrej & Hout) | (st & _ & Hst & _)]].
  - exfalso. destruct (read_calls_returned t0 t1 t2) as [Fv Fa].
    destruct Hb as [(_ & Hm & _) | (_ & Hm & _)]; rewrite Hm in Hin.
    + exact (@returned_settled _ _ _ Fv Hin Hthrow).
    + exact (@returned_settled _ _ _ Fa Hin Hthrow).
  - destruct Hrej as [Hlast | [[(b & _ & F & _) _] | [(b & _ & F & _) _]]];
      try (exfalso; exact (@returned_settled _ _ _ F Hin Hthrow)).
    destruct (@rejected_call_ends_run _ _ _ _ Hlast Hin Hthrow) as (He & Hearlier).
    injection He as ->. rewrite Hout. unfold rendered_status.
    destruct err; simpl; repeat split; auto.
  - exfalso. destruct Hst as [Hlast | (b & _ & F & _)].
    + destruct (@rejected_call_ends_run _ _ _ _ Hlast Hin Hthrow) as (He & _).
      discriminate He.
    + exact (@returned_settled _ _ _ F Hin Hthrow).
Qed.

Lemma recognition_error_aborts_upload_witness :
  In failed_call (calls_of_run failing_library idle_world) /\
  call_outcome failed_call
  = Throws (ThrownPlain (str "Network error while fetching")) /\
  result (snd (handleUpload failing_library true idle_world)) = None /\
  statusMsg (snd (handleUpload failing_library true idle_world))
  = MSG_ERROR (str "undefined") /\
  rendered_status (snd (handleUpload failing_library true idle_world)) = None.
Proof.
  assert (Hin : In failed_call (calls_of_run failing_library idle_world)).
  { vm_compute. right. right. left. reflexivity. }
  split; [exact Hin | ]. split; [reflexivity | ].
  destruct (@recognition_error_aborts_upload failing_library idle_world
              failed_call _ Hin eq_refl)
    as (Hres & _ & _ & _ & _ & _ & Hdraw & _ & Hmsg).
  repeat split; assumption.
Defined.

(** *** The quality message *)

(** What a successful upload leaves: the record is one of the two extractors'
and the status is its quality message. *)
Lemma successful_upload (cap : Capabilities) (w : World) (r : ExtractedRecord) :
  result (snd (handleUpload cap true w)) = Some r ->
  statusMsg (snd (handleUpload cap true w)) = quality_message r /\
  ((exists o e, r = extractVoterFields o e) \/
   (exists r1 r2, r = extractAadhaarFields r1 r2)).
Proof.
  destruct (upload_cases cap w) as (made & _ & _ & Hcases).
  destruct Hcases
    as [(t0 & t1 & t2 & r' & Hb & ->) | [(err & _ & ->) | (st & _ & _ & ->)]].
  - simpl. intros H. injection H as ->. split; [reflexivity | ].
    destruct Hb as [(_ & _ & ->) | (_ & _ & ->)]; eauto.
  - destruct err; simpl; discriminate.
  - simpl. discriminate.
Qed.

Lemma is_found_text (s : jsstring) :
  s <> [] -> is_found (JStr s) = negb (is_sentinel (JStr s)).
Proof. intros H. destruct s; [congruence | reflexivity]. Qed.








End PipelineFacts.

(** ** The result cache: expiry after 24 hours *)

Module CacheFacts.

Import Scanner Cache Spec.
Import stdpp.base stdpp.gmap stdpp.strings.

Lemma load_after_save (st : gmap string Item) (T t : Z) (r : ExtractedRecord) :
  loadLastResult t (saveLastResult true T r st) =
  if (t - T >? DAY_MS)%Z
  then (None, delete LS_KEY (saveLastResult true T r st))
  else (Some r, saveLastResult true T r st).
Proof.
  unfold loadLastResult, saveLastResult.
  rewrite lookup_insert_eq. reflexivity.
Qed.

(** C8.  A result saved at time [T] and read more than 24 hours later is
reported absent and the read deletes the stored entry; read within 24 hours
it comes back exactly as saved and the storage is left alone; at [T] plus 25
hours the read reports absent and removes the entry. *)
Theorem cache_entry_expires_after_a_day
  (st : gmap string Item) (T : Z) (r : ExtractedRecord) :
  let saved := saveLastResult true T r st in
  (forall t, (t - T > DAY_MS)%Z ->
     fst (loadLastResult t saved) = None /\
     snd (loadLastResult t saved) = delete LS_KEY saved /\
     snd (loadLastResult t saved) !! LS_KEY = None) /\
  (forall t, (t - T <= DAY_MS)%Z ->
     loadLastResult t saved = (Some r, saved)) /\
  fst (loadLastResult (T + 25 * HOUR_MS) saved) = None /\
  snd (loadLastResult (T + 25 * HOUR_MS) saved) !! LS_KEY = None.
Proof.
  intros saved.
  assert (late : forall t, (t - T > DAY_MS)%Z ->
            loadLastResult t saved = (None, delete LS_KEY saved)).
  { intros t Ht. unfold saved. rewrite load_after_save.
    destruct (Z.gtb_spec (t - T) DAY_MS) as [_ | Hle]; [reflexivity | lia]. }
  assert (H25 : (T + 25 * HOUR_MS - T > DAY_MS)%Z)
    by (unfold HOUR_MS, DAY_MS; lia).
  repeat split.
  - rewrite (late t) by assumption. reflexivity.
  - rewrite (late t) by assumption. reflexivity.
  - rewrite (late t) by assumption. simpl. apply lookup_delete_eq.
  - intros t Ht. unfold saved. rewrite load_after_save.
    destruct (Z.gtb_spec (t - T) DAY_MS) as [Hgt | _]; [lia | reflexivity].
  - rewrite (late _ H25). reflexivity.
  - rewrite (late _ H25). simpl. apply lookup_delete_eq.
Qed.

End CacheFacts.

(** ** The scenarios of the specification, evaluated *)

Module Scenarios.

Import Chars JsString Regex Scanner Pipeline Spec.

(** Scenario 1: an Aadhaar card read in full. *)
Example aadhaar_card_read_in_full :
  extractAadhaarFields aadhaar_region_a (str "1234 5678 9012") = aadhaar_record.
Proof. vm_compute. reflexivity. Qed.

(** Scenario 3: a voter card with a card number and a father's name, and no
label for the name. *)
Example voter_card_without_name_label :
  let v := extractVoterFields
             (str "SOL3248432" ++ LF ++ str "Father's Name: Soundararajan") [] in
  cardNo v = JStr (str "SOL3248432") /\
  fatherName v = JStr (str "Soundararajan") /\
  name v = JStr NOT_FOUND.
Proof. vm_compute. repeat split. Qed.

(** The classifier on a keyword of either family and on each number shape. *)
Example classifier_samples :
  detectDocType (str "Election Commission of India") = Voter /\
  detectDocType (str "GOVERNMENT OF INDIA") = Aadhaar /\
  detectDocType (str "No: SOL3248432") = Voter /\
  detectDocType (str "1234 5678 9012") = Aadhaar /\
  detectDocType (str "123456789012") = Aadhaar /\
  detectDocType (str "1234  5678  9012") = Unknown /\
  detectDocType (str "hello") = Unknown.
Proof. vm_compute. repeat split. Qed.

(** The gender extractor on each Latin spelling of the pattern and on a
Tamil token between letters and digits. *)
Example gender_samples :
  extractGender (str "Sex: Male") = str "Male" /\
  extractGender (str "MALE") = str "Male" /\
  extractGender (str "Gender / Female") = str "Female" /\
  extractGender (str "FEMALE") = str "Female" /\
  extractGender tamil_male_text = str "Female" /\
  extractGender ta_male = NOT_FOUND.
Proof. vm_compute. repeat split. Qed.

(** The date sanitizer on each separator, on mixed separators and on years
at and beyond the bounds. *)
Example sanitizer_samples :
  sanitizeDob (str "5/7/1990") = Some (str "05/07/1990") /\
  sanitizeDob (str "5-7-1990") = Some (str "05/07/1990") /\
  sanitizeDob (str "05.07.1990") = Some (str "05/07/1990") /\
  sanitizeDob (str "5-7/1990") = None /\
  sanitizeDob (str "1/1/1900") = Some (str "01/01/1900") /\
  sanitizeDob (str "1/1/2020") = Some (str "01/01/2020") /\
  sanitizeDob (str "1/1/1899") = None /\
  sanitizeDob (str "1.1.2021") = None.
Proof. vm_compute. repeat split. Qed.

(** The date extractor: a labelled date, a date on a line that is not about
the issue, and no date but the issue date. *)
Example date_samples :
  dob_rule (str "DOB: 05/07/1990") = str "05/07/1990" /\
  dob_rule (str "908: 5-7-1990") = str "05/07/1990" /\
  dob_rule (str "Issue Date: 01/02/2015") = NOT_FOUND.
Proof. vm_compute. repeat split. Qed.

End Scenarios.
(** ** One upload: what every run leaves, and what a successful run did *)

Module UploadFacts.

Import Chars JsString Regex Scanner Pipeline Spec Component Shapes PipelineFacts.

#[local] Arguments extractVoterFields : simpl never.
#[local] Arguments extractAadhaarFields : simpl never.
#[local] Arguments detectDocType : simpl never.
#[local] Arguments quality_message : simpl never.
#[local] Arguments MSG_ERROR : simpl never.
#[local] Arguments str : simpl never.
#[local] Arguments Cache.saveLastResult : simpl never.


(** The third and the fourth end, on a library that rejects with [null] and
on one that never answers. *)
Example upload_ends_samples :
  fst (handleUpload null_library true idle_world)
  = Throws (ThrownError (str "Cannot read properties of null (reading 'message')")) /\
  loading (snd (handleUpload null_library true idle_world)) = false /\
  statusMsg (snd (handleUpload null_library true idle_world)) = [] /\
  fst (handleUpload silent_library true idle_world) = Pending /\
  loading (snd (handleUpload silent_library true idle_world)) = true /\
  stage (snd (handleUpload silent_library true idle_world))
  = str "Detecting document type...".
Proof. vm_compute. repeat split. Qed.

(** X2.  A successful upload made exactly three recognition calls, one
after the other, each on its own region, and all three returned.  The first
reads the top 22% of the image; its text alone chooses what follows: when
the classifier calls it a voter card the whole image is read plain and then
enlarged twice with the contrast raised, and the record is the voter
extractor's on these two texts; in every other case, an unknown document
included, the two Aadhaar regions are read and the record is the Aadhaar
extractor's. *)
Theorem successful_upload_reads_three_regions
  (cap : Capabilities) (w : World) (r : ExtractedRecord) :
  result (snd (handleUpload cap true w)) = Some r ->
  exists t0 t1 t2,
    (detectDocType t0 = Voter /\
     calls_of_run cap w = voter_calls t0 t1 t2 /\
     r = extractVoterFields t1 t2) \/
    (detectDocType t0 <> Voter /\
     calls_of_run cap w = aadhaar_calls t0 t1 t2 /\
     r = extractAadhaarFields t1 t2).
Proof.
  destruct (upload_cases cap w) as (made & Hmade & _ & Hcases).
  rewrite Hmade. clear Hmade.
  destruct Hcases
    as [(t0 & t1 & t2 & r' & Hb & ->) | [(err & _ & ->) | (st & _ & _ & ->)]].
  - simpl. intros H. injection H as ->. exists t0, t1, t2. exact Hb.
  - destruct err; simpl; discriminate.
  - simpl. discriminate.
Qed.

Lemma successful_upload_reads_three_regions_witness :
  result (snd (handleUpload reading_library true idle_world)) = Some aadhaar_record /\
  calls_of_run reading_library idle_world
  = aadhaar_calls (str "GOVERNMENT OF INDIA") aadhaar_region_a (str "1234 5678 9012").
Proof.
  assert (H : result (snd (handleUpload reading_library true idle_world))
              = Some aadhaar_record) by (vm_compute; reflexivity).
  split; [exact H | ].
  destruct (@successful_upload_reads_three_regions reading_library idle_world
              aadhaar_record H) as (t0 & t1 & t2 & _).
  vm_compute. reflexivity.
Defined.

(** X3.  An upload that returns and leaves no result was rejected, by the
library in its last recognition call or by a canvas helper for a sub-image
that was never submitted, and its status is the error prefix followed by
what [err.message] reads on the value it was rejected with: the message of
an [Error] (for the canvas helpers, [Image load failed] or [toBlob failed]),
and the text [undefined] for a string, whatever the string says.  Nothing of
this status is drawn, since the status is part of the results card and
there is no result. *)
Theorem reported_failure_reads_the_message (cap : Capabilities) (w : World) :
  fst (handleUpload cap true w) = Returns tt ->
  result (snd (handleUpload cap true w)) = None ->
  rendered_status (snd (handleUpload cap true w)) = None /\
  exists err,
    rejected cap (calls_of_run cap w) err /\
    match err with
    | ThrownError message =>
        statusMsg (snd (handleUpload cap true w)) = MSG_ERROR message
    | ThrownPlain _ =>
        statusMsg (snd (handleUpload cap true w)) = MSG_ERROR (str "undefined")
    | ThrownNullish _ => False
    end.
Proof.
  destruct (upload_cases cap w) as (made & Hmade & _ & Hcases).
  rewrite Hmade. clear Hmade. unfold rendered_status.
  destruct Hcases
    as [(t0 & t1 & t2 & r & _ & ->) | [(err & Hrej & ->) | (st & _ & _ & ->)]].
  - simpl. discriminate.
  - destruct err as [message | text | complaint]; simpl; intros Hf Hr;
      try discriminate Hf; (split; [reflexivity | ]).
    + exists (ThrownError message). split; [exact Hrej | reflexivity].
    + exists (ThrownPlain text). split; [exact Hrej | reflexivity].
  - simpl. discriminate.
Qed.

Lemma reported_failure_reads_the_message_witness :
  fst (handleUpload broken_image true idle_world) = Returns tt /\
  result (snd (handleUpload broken_image true idle_world)) = None /\
  statusMsg (snd (handleUpload broken_image true idle_world))
  = MSG_ERROR (str "Image load failed") /\
  rendered_status (snd (handleUpload broken_image true idle_world)) = None.
Proof.
  assert (Hf : fst (handleUpload broken_image true idle_world) = Returns tt)
    by (vm_compute; reflexivity).
  assert (Hr : result (snd (handleUpload broken_image true idle_world)) = None)
    by (vm_compute; reflexivity).
  split; [exact Hf | ]. split; [exact Hr | ].
  destruct (@reported_failure_reads_the_message broken_image idle_world Hf Hr)
    as (Hdraw & _).
  split; [vm_compute; reflexivity | exact Hdraw].
Defined.

(** What a successful upload wrote and handed over. *)
Lemma upload_effects (cap : Capabilities) (w : World) (r : ExtractedRecord) :
  result (snd (handleUpload cap true w)) = Some r ->
  storage (snd (handleUpload cap true w))
  = Cache.saveLastResult (writable cap) (clock cap) r (storage w) /\
  handed (snd (handleUpload cap true w)) = handed w ++ [r].
Proof.
  destruct (upload_cases cap w) as (made & _ & _ & Hcases).
  destruct Hcases
    as [(t0 & t1 & t2 & r' & _ & ->) | [(err & _ & ->) | (st & _ & _ & ->)]].
  - simpl. intros H. injection H as ->. split; reflexivity.
  - destruct err; simpl; discriminate.
  - simpl. discriminate.
Qed.

Lemma mount_fresh (st : stdpp.gmap.gmap string Cache.Item) (r : ExtractedRecord)
  (t1 t2 : Z) :
  Cache.loadLastResult t1 st = (Some r, st) ->
  Cache.loadLastResult t2 st = (Some r, st) ->
  mount t1 t2 st
  = {| result := Some r; loading := false; stage := [];
       statusMsg := restored_message (Some r); storage := st;
       calls := []; handed := [] |}.
Proof. intros H1 H2. unfold mount. rewrite H1, H2. reflexivity. Qed.

(** X4.  A record produced by an upload survives a reload of the page: when
the write to the storage went through, a component mounted within 24 hours
of the upload starts with exactly that record as its result and with the
restored status of that record, and mounting leaves the storage as the
upload left it. *)
Theorem uploaded_record_survives_reload
  (cap : Capabilities) (w : World) (r : ExtractedRecord) (t1 t2 : Z) :
  result (snd (handleUpload cap true w)) = Some r ->
  writable cap = true ->
  (t1 - clock cap <= DAY_MS)%Z ->
  (t2 - clock cap <= DAY_MS)%Z ->
  let st := storage (snd (handleUpload cap true w)) in
  Cache.loadLastResult t1 st = (Some r, st) /\
  result (mount t1 t2 st) = Some r /\
  statusMsg (mount t1 t2 st) = restored_message (Some r) /\
  storage (mount t1 t2 st) = st.
Proof.
  intros H Hw H1 H2 st.
  destruct (upload_effects _ _ H) as [Hst _]. fold st in Hst. rewrite Hw in Hst.
  assert (L : forall t, (t - clock cap <= DAY_MS)%Z ->
                        Cache.loadLastResult t st = (Some r, st)).
  { intros t Ht. rewrite Hst. rewrite CacheFacts.load_after_save.
    destruct (Z.gtb_spec (t - clock cap) DAY_MS) as [Hgt | _];
      [lia | reflexivity]. }
  rewrite (mount_fresh _ _ (L t1 H1) (L t2 H2)).
  repeat split. apply L. assumption.
Qed.

Lemma uploaded_record_survives_reload_witness :
  result (snd (handleUpload reading_library true idle_world)) = Some aadhaar_record /\
  result (mount 1700000060000 1700000060001
            (storage (snd (handleUpload reading_library true idle_world))))
  = Some aadhaar_record /\
  statusMsg (mount 1700000060000 1700000060001
               (storage (snd (handleUpload reading_library true idle_world))))
  = MSG_RESTORED.
Proof.
  assert (H : result (snd (handleUpload reading_library true idle_world))
              = Some aadhaar_record) by (vm_compute; reflexivity).
  split; [exact H | ].
  destruct (@uploaded_record_survives_reload reading_library idle_world
              aadhaar_record 1700000060000 1700000060001 H eq_refl)
    as (_ & Hres & Hmsg & _).
  - unfold DAY_MS. simpl. lia.
  - unfold DAY_MS. simpl. lia.
  - split; [exact Hres | ]. rewrite Hmsg. vm_compute. reflexivity.
Defined.

(** The storage after an upload, with or without a file. *)
Lemma upload_storage_cases (cap : Capabilities) (has_file : bool) (w : World) :
  storage (snd (handleUpload cap has_file w)) = storage w \/
  exists r,
    storage (snd (handleUpload cap has_file w))
    = Cache.saveLastResult (writable cap) (clock cap) r (storage w).
Proof.
  destruct has_file; [ | left; reflexivity].
  destruct (upload_cases cap w) as (made & _ & _ & Hcases).
  destruct Hcases
    as [(t0 & t1 & t2 & r & _ & ->) | [(err & _ & ->) | (st & _ & _ & ->)]].
  - right. exists r. reflexivity.
  - left. destruct err; reflexivity.
  - left. reflexivity.
Qed.

End UploadFacts.
(** ** The storage, the mounted component, the Clear button and the rows *)

Module StoreFacts.

Import Scanner Cache Spec StoreSpec.
Import stdpp.base stdpp.gmap stdpp.strings.

Lemma entry_save (key : string) (wr : bool) (now : Z) (r : ExtractedRecord)
  (st : gmap string Item) :
  key <> LS_KEY -> entry key (saveLastResult wr now r st) = entry key st.
Proof.
  intros Hk. unfold entry, saveLastResult. destruct wr; [ | reflexivity].
  apply lookup_insert_ne. congruence.
Qed.

Lemma entry_load (key : string) (now : Z) (st : gmap string Item) :
  key <> LS_KEY -> entry key (snd (loadLastResult now st)) = entry key st.
Proof.
  intros Hk. unfold entry, loadLastResult.
  destruct (st !! LS_KEY) as [[r savedAt | ] | ]; try reflexivity.
  destruct (now - savedAt >? 24 * 60 * 60 * 1000)%Z; [ | reflexivity].
  simpl. apply lookup_delete_ne. congruence.
Qed.

Lemma entry_remove (key : string) (st : gmap string Item) :
  entry key (Store.removeItem LS_KEY st)
  = if String.eqb key LS_KEY then None else entry key st.
Proof.
  unfold entry, Store.removeItem.
  destruct (String.eqb_spec key LS_KEY) as [-> | Hk].
  - apply lookup_delete_eq.
  - apply lookup_delete_ne. congruence.
Qed.

(** The four things a read of the cache can find. *)
Lemma load_cases (now : Z) (st : gmap string Item) :
  (entry LS_KEY st = None /\ loadLastResult now st = (None, st)) \/
  (entry LS_KEY st = Some Unreadable /\ loadLastResult now st = (None, st)) \/
  (exists r savedAt,
     entry LS_KEY st = Some (Envelope r savedAt) /\
     (now - savedAt > DAY_MS)%Z /\
     loadLastResult now st = (None, Store.removeItem LS_KEY st)) \/
  (exists r savedAt,
     entry LS_KEY st = Some (Envelope r savedAt) /\
     (now - savedAt <= DAY_MS)%Z /\
     loadLastResult now st = (Some r, st)).
Proof.
  unfold entry, loadLastResult, Store.removeItem.
  destruct (st !! LS_KEY) as [[r savedAt | ] | ]; auto.
  right. right. change (24 * 60 * 60 * 1000)%Z with DAY_MS.
  destruct (Z.gtb_spec (now - savedAt) DAY_MS).
  - left. exists r, savedAt. split; [reflexivity | split; [lia | reflexivity]].
  - right. exists r, savedAt. split; [reflexivity | split; [lia | reflexivity]].
Qed.

Lemma load_removed (now : Z) (st : gmap string Item) :
  loadLastResult now (Store.removeItem LS_KEY st)
  = (None, Store.removeItem LS_KEY st).
Proof.
  unfold loadLastResult, Store.removeItem.
  rewrite lookup_delete_eq. reflexivity.
Qed.

Lemma load_nothing (now : Z) (st : gmap string Item) :
  entry LS_KEY st = None \/ entry LS_KEY st = Some Unreadable ->
  loadLastResult now st = (None, st).
Proof.
  unfold entry, loadLastResult. intros [-> | ->]; reflexivity.
Qed.

End StoreFacts.

Module ComponentFacts.

Import Chars JsString Regex Scanner Pipeline Spec Component Shapes StoreSpec.
Import ExtractFacts PipelineFacts.

#[local] Arguments str : simpl never.

Lemma mount_storage (t1 t2 : Z) (st : stdpp.gmap.gmap string Cache.Item) :
  storage (mount t1 t2 st)
  = snd (Cache.loadLastResult t2 (snd (Cache.loadLastResult t1 st))).
Proof.
  unfold mount. destruct (Cache.loadLastResult t1 st) as [r st1]. simpl.
  destruct (Cache.loadLastResult t2 st1) as [s st2]. reflexivity.
Qed.

(** X5.  The scanner keeps to its own key of the storage: an upload (with
or without a file), the mounting of the component and the Clear button all
leave every entry under another key exactly as it was. *)
Theorem storage_beyond_the_key_is_untouched (key : string) :
  key <> Cache.LS_KEY ->
  (forall cap has_file w,
     entry key (storage (snd (handleUpload cap has_file w)))
     = entry key (storage w)) /\
  (forall t1 t2 st, entry key (storage (mount t1 t2 st)) = entry key st) /\
  (forall w, entry key (storage (snd (handleClear w))) = entry key (storage w)).
Proof.
  intros Hk. repeat split.
  - intros cap has_file w.
    destruct (UploadFacts.upload_storage_cases cap has_file w) as [-> | [r ->]];
      [reflexivity | ].
    apply StoreFacts.entry_save. assumption.
  - intros t1 t2 st. rewrite mount_storage.
    rewrite StoreFacts.entry_load by assumption.
    apply StoreFacts.entry_load. assumption.
  - intros w. simpl. rewrite StoreFacts.entry_remove.
    destruct (String.eqb_spec key Cache.LS_KEY); [contradiction | reflexivity].
Qed.

Lemma storage_beyond_the_key_is_untouched_witness :
  entry "theme" (storage themed_world) = Some Cache.Unreadable /\
  entry "theme" (storage (snd (handleUpload reading_library true themed_world)))
  = Some Cache.Unreadable /\
  entry "theme" (storage (snd (handleClear themed_world))) = Some Cache.Unreadable.
Proof.
  assert (Hk : "theme"%string <> Cache.LS_KEY) by discriminate.
  destruct (storage_beyond_the_key_is_untouched Hk) as (Hup & _ & Hclear).
  split; [reflexivity | ]. split.
  - rewrite Hup. reflexivity.
  - rewrite Hclear. reflexivity.
Defined.

(** X6.  What a freshly mounted component starts with.  With no record
restored the status is empty.  A record [r] is restored only from a readable
entry that holds [r] and was saved at most 24 hours before the first reading
of the clock; the status is then the restored message of [r] and the storage
is left alone, unless the entry has passed 24 hours at the second reading of
the clock: in that case the record is shown, the status is empty and the
entry is gone. *)
Theorem mount_status_follows_result
  (st : stdpp.gmap.gmap string Cache.Item) (t1 t2 : Z) :
  let w := mount t1 t2 st in
  loading w = false /\
  (result w = None -> statusMsg w = []) /\
  (forall r, result w = Some r ->
     exists savedAt,
       entry Cache.LS_KEY st = Some (Cache.Envelope r savedAt) /\
       (t1 - savedAt <= DAY_MS)%Z /\
       ((t2 - savedAt <= DAY_MS)%Z ->
        statusMsg w = restored_message (Some r) /\ storage w = st) /\
       ((t2 - savedAt > DAY_MS)%Z ->
        statusMsg w = [] /\ entry Cache.LS_KEY (storage w) = None)).
Proof.
  intros w. subst w. unfold mount.
  destruct (StoreFacts.load_cases t1 st)
    as [[E1 L1] | [[E1 L1] | [(r1 & s1 & E1 & A1 & L1) | (r1 & s1 & E1 & A1 & L1)]]];
    rewrite L1.
  - rewrite (@StoreFacts.load_nothing t2 st (or_introl E1)). simpl.
    repeat split; try reflexivity. discriminate.
  - rewrite (@StoreFacts.load_nothing t2 st (or_intror E1)). simpl.
    repeat split; try reflexivity. discriminate.
  - rewrite StoreFacts.load_removed. simpl.
    repeat split; try reflexivity. discriminate.
  - destruct (StoreFacts.load_cases t2 st)
      as [[E2 L2] | [[E2 L2] | [(r2 & s2 & E2 & A2 & L2) | (r2 & s2 & E2 & A2 & L2)]]];
      rewrite L2; rewrite E1 in E2; try discriminate E2;
      injection E2 as <- <-; simpl;
      (split; [reflexivity | ]); (split; [discriminate | ]);
      intros r Hr; injection Hr as <-; exists s1;
      (split; [exact E1 | ]); (split; [assumption | ]); split; intros B;
      try lia.
    + split; [reflexivity | ]. rewrite StoreFacts.entry_remove. reflexivity.
    + split; reflexivity.
Qed.

(** X7.  The Clear button forgets the record for good: after it there is
no result, no status and no entry under the scanner's key, nothing is drawn
of the status, and a component mounted afterwards, at whatever time,
restores nothing. *)
Theorem clear_forgets_the_record (w : World) (t1 t2 : Z) :
  let w' := snd (handleClear w) in
  result w' = None /\
  statusMsg w' = [] /\
  rendered_status w' = None /\
  entry Cache.LS_KEY (storage w') = None /\
  result (mount t1 t2 (storage w')) = None /\
  statusMsg (mount t1 t2 (storage w')) = [] /\
  storage (mount t1 t2 (storage w')) = storage w'.
Proof.
  simpl. repeat split.
  - rewrite StoreFacts.entry_remove. reflexivity.
  - unfold mount. rewrite !StoreFacts.load_removed. reflexivity.
  - unfold mount. rewrite !StoreFacts.load_removed. reflexivity.
  - unfold mount. rewrite !StoreFacts.load_removed. reflexivity.
Qed.

(** X8.  The colour of the status line.  After an upload it is green when
at least four fields were found, orange for two or three, red for fewer and
red for every error message.  After a reload it is green when at least four
fields were found and orange otherwise: a record with fewer than two fields
found, red after its upload, comes back in orange. *)
Theorem status_colour_by_outcome (r : ExtractedRecord) (msg : jsstring) :
  statusColor (quality_message r)
  = (if 4 <=? found_count r then GREEN
     else if 2 <=? found_count r then ORANGE else RED) /\
  statusColor (MSG_ERROR msg) = RED /\
  statusColor (restored_message (Some r))
  = (if 4 <=? found_count r then GREEN else ORANGE).
Proof.
  unfold quality_message, restored_message.
  destruct (4 <=? found_count r), (2 <=? found_count r); repeat split.
Qed.

Lemma shown_rows_voter (n d g c f : jsstring) :
  n <> [] -> d <> [] -> g <> [] -> c <> [] -> f <> [] ->
  let v := {| docType := JStr (str "Voter ID"); name := JStr n; dob := JStr d;
              gender := JStr g; aadhaar := JNull; cardNo := JStr c;
              fatherName := JStr f |} in
  length (List.filter shows_value (tl (rows (Some v)))) = found_count v.
Proof.
  intros Hn Hd Hg Hc Hf v. unfold found_count. subst v.
  cbn [name dob gender aadhaar cardNo fatherName List.filter].
  rewrite !is_found_text by assumption.
  change (is_found JNull) with false.
  unfold rows, shows_value, is_sentinel.
  cbn [docType name dob gender aadhaar cardNo fatherName is_text].
  change (jsstring_eqb (str "Voter ID") (str "Voter ID")) with true.
  cbn [tl List.filter value or_sentinel is_text].
  destruct (jsstring_eqb n NOT_FOUND), (jsstring_eqb d NOT_FOUND),
    (jsstring_eqb g NOT_FOUND), (jsstring_eqb c NOT_FOUND),
    (jsstring_eqb f NOT_FOUND); reflexivity.
Qed.

Lemma shown_rows_aadhaar (n d g a : jsstring) :
  n <> [] -> d <> [] -> g <> [] -> a <> [] ->
  let r := {| docType := JStr (str "Aadhaar Card"); name := JStr n; dob := JStr d;
              gender := JStr g; aadhaar := JStr a; cardNo := JNull;
              fatherName := JNull |} in
  length (List.filter shows_value (tl (rows (Some r)))) = found_count r.
Proof.
  intros Hn Hd Hg Ha r. unfold found_count. subst r.
  cbn [name dob gender aadhaar cardNo fatherName List.filter].
  rewrite !is_found_text by assumption.
  change (is_found JNull) with false.
  unfold rows, shows_value, is_sentinel.
  cbn [docType name dob gender aadhaar cardNo fatherName is_text].
  change (jsstring_eqb (str "Aadhaar Card") (str "Voter ID")) with false.
  cbn [tl List.filter value or_sentinel is_text].
  destruct (jsstring_eqb n NOT_FOUND), (jsstring_eqb d NOT_FOUND),
    (jsstring_eqb g NOT_FOUND), (jsstring_eqb a NOT_FOUND); reflexivity.
Qed.

(** X9.  The rows of the results card, for a record of either extractor.
After the row of the document type come exactly the fields the record
defines, each with the text the extractor gave it: the fallback for a
missing field is never taken, and a field that is null is not listed.  The
number of field rows that are not drawn as missing is the number of fields
that the status message counts as found. *)
Theorem rows_list_the_defined_fields
  (r1Text r2Text textOrig text2x : jsstring) :
  let a := extractAadhaarFields r1Text r2Text in
  let v := extractVoterFields textOrig text2x in
  List.map value (rows (Some a))
  = [docType a; name a; dob a; aadhaar a; gender a] /\
  List.map value (rows (Some v))
  = [docType v; cardNo v; name v; fatherName v; gender v; dob v] /\
  length (List.filter shows_value (tl (rows (Some a)))) = found_count a /\
  length (List.filter shows_value (tl (rows (Some v)))) = found_count v.
Proof.
  intros a v. subst a v. rewrite aadhaar_fields, voter_fields. cbv zeta.
  split; [reflexivity | ]. split; [reflexivity | ]. split.
  - apply shown_rows_aadhaar.
    + apply or_not_found_nonempty. apply first_name_nonempty.
    + apply extractDobFromLines_nonempty.
    + apply extractGender_nonempty.
    + apply aadhaar_number_rule_nonempty.
  - apply shown_rows_voter.
    + apply or_not_found_nonempty. apply first_voter_name_nonempty.
    + apply extractDobFromLines_nonempty.
    + unfold voter_gender_rule. destruct (jsstring_eqb _ _); apply extractGender_nonempty.
    + apply card_number_rule_nonempty.
    + apply father_name_rule_nonempty.
Qed.

End ComponentFacts.

(** ** The pages of [DocumentResult] on the records of the scanner *)

Module PageFacts.

Import Chars JsString Regex Scanner Pipeline Spec Component Pages Shapes.
Import ExtractFacts PipelineFacts.

#[local] Arguments str : simpl never.

Lemma page_of_aadhaar (r1Text r2Text : jsstring) :
  DocumentResult (Some (extractAadhaarFields r1Text r2Text)) = Some AadhaarPage.
Proof. rewrite aadhaar_fields. reflexivity. Qed.

Lemma page_of_voter (textOrig text2x : jsstring) :
  DocumentResult (Some (extractVoterFields textOrig text2x)) = Some VoterIdPage.
Proof. rewrite voter_fields. reflexivity. Qed.

(** X10.  A record produced by an upload always reaches a page of its own:
[DocumentResult] shows the Aadhaar page for a record typed as an Aadhaar
card and the voter page for a record typed as a voter card, and a record of
the scanner is typed as one or the other; the page for unsupported documents
and the income page are never shown for it. *)
Theorem scanned_record_reaches_its_page
  (cap : Capabilities) (w : World) (r : ExtractedRecord) :
  result (snd (handleUpload cap true w)) = Some r ->
  (docType r = JStr (str "Aadhaar Card") /\
   DocumentResult (Some r) = Some AadhaarPage) \/
  (docType r = JStr (str "Voter ID") /\
   DocumentResult (Some r) = Some VoterIdPage).
Proof.
  intros H. destruct (successful_upload _ _ H) as [_ Hr].
  destruct Hr as [(o & e & ->) | (r1 & r2 & ->)].
  - right. split; [rewrite voter_fields; reflexivity | apply page_of_voter].
  - left. split; [rewrite aadhaar_fields; reflexivity | apply page_of_aadhaar].
Qed.

Lemma scanned_record_reaches_its_page_witness :
  result (snd (handleUpload reading_library true idle_world)) = Some aadhaar_record /\
  DocumentResult (Some aadhaar_record) = Some AadhaarPage.
Proof.
  assert (H : result (snd (handleUpload reading_library true idle_world))
              = Some aadhaar_record) by (vm_compute; reflexivity).
  split; [exact H | ].
  destruct (@scanned_record_reaches_its_page reading_library idle_world
              aadhaar_record H) as [[_ Hp] | [Ht _]].
  - exact Hp.
  - vm_compute in Ht. discriminate Ht.
Defined.

(** X11.  The tables of the two pages on the records of the scanner.  The
voter page shows the five fields of a voter record as extracted.  The
Aadhaar page shows the name, the gender and the number as extracted, but
its date of birth is always the missing-value text: the page reads the key
[dobRaw], and the record holds the date under [dob].  So the date read from
the card in scenario 1 is shown by the scanner and lost on the page. *)
Theorem aadhaar_page_drops_the_date_of_birth
  (r1Text r2Text textOrig text2x : jsstring) :
  let a := extractAadhaarFields r1Text r2Text in
  let v := extractVoterFields textOrig text2x in
  List.map (fun c => JStr (snd c)) (voter_table v)
  = [name v; fatherName v; dob v; gender v; cardNo v] /\
  List.map (fun c => JStr (snd c)) (aadhaar_table a)
  = [name a; JStr NOT_FOUND; gender a; aadhaar a] /\
  dob (extractAadhaarFields aadhaar_region_a (str "1234 5678 9012"))
  = JStr (str "05/07/1990") /\
  In (str "Date of Birth", NOT_FOUND)
     (aadhaar_table (extractAadhaarFields aadhaar_region_a (str "1234 5678 9012"))).
Proof.
  intros a v. subst a v. rewrite aadhaar_fields, voter_fields. cbv zeta.
  split; [reflexivity | ]. split; [reflexivity | ].
  split; [vm_compute; reflexivity | ].
  right. left. reflexivity.
Qed.

End PageFacts.
(** ** The date of birth: what the patterns capture and what the sanitizer
makes of it *)

Module DateFacts.

Import Chars JsString Regex Scanner Spec MatcherSpec Shapes.
Import RegexFacts ClassFacts SearchFacts DobFacts ExtractFacts ClassifierFacts.

#[local] Arguments str : simpl never.

Lemma in_run_day (s e : mstate) :
  In e (run (range 1 2 digit) s) ->
  exists d, all is_digit d /\ 1 <= length d <= 2 /\ moves s d e.
Proof.
  intros H. apply in_run_rep_class in H. destruct H as (w & P & M & L & U).
  exists w. simpl in U. split; [exact P | split; [lia | exact M]].
Qed.

(** What the date pattern reads. *)
Lemma date_shape_sound (s e : mstate) :
  In e (run re_date_shape s) ->
  exists raw d1 s1 d2 s2 y, date_shaped raw d1 s1 d2 s2 y /\ moves s raw e.
Proof.
  intros H. unfold re_date_shape in H. do 4 peel H.
  change (seq [range 4 4 digit]) with (range 4 4 digit) in H.
  apply in_run_day in Hm. destruct Hm as (d1 & P1 & L1 & M1).
  apply in_run_class in Hm0. destruct Hm0 as (s1 & S1 & M2).
  apply in_run_day in Hm1. destruct Hm1 as (d2 & P2 & L2 & M3).
  apply in_run_class in Hm2. destruct Hm2 as (s2 & S2 & M4).
  apply in_run_digits4 in H. destruct H as (y & P3 & L3 & M5).
  exists (d1 ++ s1 :: d2 ++ s2 :: y), d1, s1, d2, s2, y. split.
  - unfold date_shaped, digits. tauto.
  - apply (moves_app M1). apply (moves_app M2 (w2 := d2 ++ s2 :: y)).
    apply (moves_app M3). apply (moves_app M4 (w2 := y)). exact M5.
Qed.

(** *** The sanitizer on a text of the date pattern *)

Lemma digit_cases (c : N) :
  is_digit c = true -> In c [48; 49; 50; 51; 52; 53; 54; 55; 56; 57]%N.
Proof. intros H. char_facts. simpl. lia. Qed.

Lemma date_sep_cases (c : N) :
  is_date_sep c = true -> c = 45%N \/ c = 47%N \/ c = 46%N.
Proof.
  unfold is_date_sep, one_of. change (str "-/.") with [45; 47; 46]%N.
  simpl. intros H. char_props H. intuition discriminate.
Qed.

Lemma not_in_digits (c : N) (w : jsstring) :
  is_digit c = false -> all is_digit w -> ~ In c w.
Proof.
  intros Hc P Hin. unfold all in P. rewrite Forall_forall in P.
  rewrite (P _ Hin) in Hc. discriminate Hc.
Qed.

Lemma parseInt_digits (y : jsstring) :
  all is_digit y -> y <> [] -> parseInt y = Some (digits_value 0 y).
Proof.
  intros P Hy. destruct y as [| c y']; [congruence | ].
  inversion P as [| ? ? Hc _]; subst.
  pose proof (digit_cases _ Hc) as C. simpl in C.
  repeat (destruct C as [<- | C]; [reflexivity | ]). destruct C.
Qed.

Lemma split_date (c : N) (d1 d2 y : jsstring) (s1 s2 : N) :
  ~ In c d1 -> ~ In c d2 -> ~ In c y ->
  split_char c [] (d1 ++ s1 :: d2 ++ s2 :: y)
  = if N.eqb s1 c
    then if N.eqb s2 c then [d1; d2; y] else [d1; d2 ++ s2 :: y]
    else if N.eqb s2 c then [d1 ++ s1 :: d2; y]
         else [d1 ++ s1 :: d2 ++ s2 :: y].
Proof.
  intros N1 N2 N3.
  destruct (N.eqb_spec s1 c) as [-> | E1], (N.eqb_spec s2 c) as [-> | E2].
  - rewrite split_char_app by assumption. simpl rev. simpl app.
    rewrite split_char_app by assumption. simpl rev. simpl app.
    rewrite split_char_no_sep by assumption. reflexivity.
  - rewrite split_char_app by assumption. simpl rev. simpl app.
    rewrite split_char_no_sep; [reflexivity | ].
    intros Hin. apply in_app_or in Hin. simpl in Hin.
    destruct Hin as [Hin | [Hin | Hin]]; auto.
  - change (d1 ++ s1 :: d2 ++ c :: y) with (d1 ++ (s1 :: d2) ++ c :: y).
    rewrite app_assoc. rewrite split_char_app; [ | ].
    + simpl rev. simpl app. rewrite split_char_no_sep by assumption. reflexivity.
    + intros Hin. apply in_app_or in Hin. simpl in Hin.
      destruct Hin as [Hin | [Hin | Hin]]; auto.
  - rewrite split_char_no_sep; [reflexivity | ].
    intros Hin. apply in_app_or in Hin. simpl in Hin.
    destruct Hin as [Hin | [Hin | Hin]]; auto.
    apply in_app_or in Hin. simpl in Hin.
    destruct Hin as [Hin | [Hin | Hin]]; auto.
Qed.

Lemma includes_sep (c : N) (d1 d2 y : jsstring) (s1 s2 : N) :
  ~ In c d1 -> ~ In c d2 -> ~ In c y ->
  includes (d1 ++ s1 :: d2 ++ s2 :: y) [c] = (N.eqb s1 c || N.eqb s2 c)%bool.
Proof.
  intros N1 N2 N3.
  destruct (N.eqb_spec s1 c) as [-> | E1]; [ | destruct (N.eqb_spec s2 c) as [-> | E2]];
    simpl orb.
  - apply includes_char. apply in_or_app. right. left. reflexivity.
  - apply includes_char. apply in_or_app. right. right.
    apply in_or_app. right. left. reflexivity.
  - apply includes_char_false. intros Hin. apply in_app_or in Hin. simpl in Hin.
    destruct Hin as [Hin | [Hin | Hin]]; auto.
    apply in_app_or in Hin. simpl in Hin.
    destruct Hin as [Hin | [Hin | Hin]]; auto.
Qed.

Lemma year_rejected_digits (y : jsstring) :
  digits 4 y -> year_rejected y = negb (year_in_bounds y).
Proof.
  intros [P L]. apply year_in_range. apply parseInt_digits; [exact P | ].
  destruct y; [discriminate L | discriminate].
Qed.

(** The sanitizer accepts a text of the date pattern exactly when its two
separators are the same and its year is within the bounds. *)
Lemma sanitizeDob_date_shaped (raw d1 : jsstring) (s1 : N) (d2 : jsstring)
  (s2 : N) (y : jsstring) :
  date_shaped raw d1 s1 d2 s2 y ->
  sanitizeDob raw
  = if (N.eqb s1 s2 && year_in_bounds y)%bool
    then Some (normalised_date d1 d2 y) else None.
Proof.
  intros (-> & P1 & L1 & S1 & P2 & L2 & S2 & D3).
  assert (Hy := year_rejected_digits D3). destruct D3 as [P3 L3].
  assert (O : forall c, is_digit c = false ->
                        ~ In c d1 /\ ~ In c d2 /\ ~ In c y).
  { intros c Hc. repeat split; apply not_in_digits; assumption. }
  rewrite sanitizeDob_pieces. unfold separator_char.
  change (str "/") with [47%N]. change (str "-") with [45%N].
  destruct (O 47%N eq_refl) as (A1 & A2 & A3).
  destruct (O 45%N eq_refl) as (B1 & B2 & B3).
  destruct (O 46%N eq_refl) as (C1 & C2 & C3).
  rewrite !includes_sep by assumption.
  apply date_sep_cases in S1. apply date_sep_cases in S2.
  destruct S1 as [-> | [-> | ->]], S2 as [-> | [-> | ->]]; simpl orb; cbv iota;
    rewrite split_date by assumption; simpl N.eqb; cbv iota;
    try reflexivity; rewrite Hy; simpl andb;
    destruct (year_in_bounds y); reflexivity.
Qed.

Lemma padStart2_day (d : jsstring) :
  all is_digit d -> 1 <= length d <= 2 -> digits 2 (padStart2 d).
Proof.
  intros P L. destruct d as [| a [| b [| c d]]]; simpl in L; try lia.
  - split; [ | reflexivity]. constructor; [reflexivity | exact P].
  - split; [exact P | reflexivity].
Qed.

Lemma normalised_well_formed (raw d1 : jsstring) (s1 : N) (d2 : jsstring)
  (s2 : N) (y : jsstring) :
  date_shaped raw d1 s1 d2 s2 y ->
  year_in_bounds y = true ->
  well_formed_dob (normalised_date d1 d2 y).
Proof.
  intros (_ & P1 & L1 & _ & P2 & L2 & _ & D3) Hy.
  exists (padStart2 d1), (padStart2 d2), y.
  split; [reflexivity | ].
  split; [apply padStart2_day; assumption | ].
  split; [apply padStart2_day; assumption | ].
  split; [exact D3 | ].
  unfold year_in_bounds in Hy. apply andb_true_iff in Hy.
  destruct Hy as [A B]. apply Z.leb_le in A, B. split; assumption.
Qed.

Lemma accepted_dob_shaped (raw d1 : jsstring) (s1 : N) (d2 : jsstring)
  (s2 : N) (y s : jsstring) :
  date_shaped raw d1 s1 d2 s2 y ->
  accepted_dob raw = Some s -> well_formed_dob s.
Proof.
  intros D. unfold accepted_dob. rewrite (sanitizeDob_date_shaped D).
  destruct (N.eqb s1 s2); simpl andb; [ | discriminate].
  destruct (year_in_bounds y) eqn:Hy; [ | discriminate].
  pose proof (normalised_well_formed D Hy) as W.
  destruct (normalised_date d1 d2 y); [discriminate | ].
  intros H. injection H as <-. exact W.
Qed.

(** *** What the three patterns of the extractor capture *)

Lemma date_group (s e : mstate) :
  In e (run (Group 1 re_date_shape) s) ->
  exists raw e0, pattern_date raw /\ moves s raw e0 /\ e = set_cap 1 raw e0.
Proof.
  intros H. apply in_run_group in H. destruct H as (e0 & He0 & ->).
  apply date_shape_sound in He0.
  destruct He0 as (raw & d1 & s1 & d2 & s2 & y & D & M).
  exists raw, e0. split; [exists d1, s1, d2, s2, y; exact D | ].
  split; [exact M | ]. rewrite (reads_consumed (moves_reads M)). reflexivity.
Qed.

Lemma labelled_group (rs : list regex) (text : jsstring) (m : found) :
  search (seq (rs ++ [Group 1 re_date_shape])) text = Some m ->
  pattern_date (group_str 1 m).
Proof.
  intros H. apply search_end_in in H. apply in_run_seq_app in H.
  destruct H as (m0 & _ & H).
  change (seq [Group 1 re_date_shape]) with (Group 1 re_date_shape) in H.
  apply date_group in H. destruct H as (raw & e0 & D & _ & E).
  rewrite (@group_str_end 0 _ _ _ E). exact D.
Qed.

Lemma scan_sound (r : regex) :
  forall fuel pre rest f,
    In f (scan r pre rest fuel) -> In (f_end f) (run r (f_start f)).
Proof.
  induction fuel as [| fuel IH]; intros pre rest f H; [destruct H | ].
  rewrite scan_succ in H.
  destruct (search_from r pre rest) as [f0 | ] eqn:E; [ | destruct H].
  destruct H as [<- | H].
  - apply search_from_some in E.
    destruct E as (sk & rest' & tl & _ & _ & _ & Hrun & _).
    rewrite Hrun. left. reflexivity.
  - destruct (progressed (f_start f0) (f_end f0)); [exact (IH _ _ _ H) | ].
    destruct (after (f_end f0)); [destruct H | exact (IH _ _ _ H)].
Qed.

Lemma date_words (line : jsstring) (dates : list jsstring) :
  match_all re_date_word line = Some dates ->
  Forall pattern_date dates.
Proof.
  unfold match_all.
  assert (Hall : forall f, In f (scan re_date_word [] line (S (length line))) ->
                        pattern_date (matched f)).
  { intros f Hf. apply scan_sound in Hf. unfold re_date_word in Hf.
    peel Hf. peel Hf. apply in_run_wordb in Hm. destruct Hm as [-> _].
    change (seq [WordB]) with WordB in Hf. apply in_run_wordb in Hf.
    destruct Hf as [Hf _].
    apply date_group in Hm0. destruct Hm0 as (raw & e0 & D & M & ->).
    unfold matched. rewrite Hf.
    change (consumed (f_start f) (set_cap 1 raw e0)) with (consumed (f_start f) e0).
    rewrite (reads_consumed (moves_reads M)). exact D. }
  destruct (scan re_date_word [] line (S (length line))) as [| f fs];
    [discriminate | ].
  intros H. injection H as <-. apply Forall_forall. intros d Hd.
  change (In d (List.map matched (f :: fs))) in Hd.
  apply in_map_iff in Hd. destruct Hd as (f' & <- & Hf'). apply Hall. exact Hf'.
Qed.

Lemma first_accepted_shaped (dates : list jsstring) (s : jsstring) :
  Forall pattern_date dates ->
  first_accepted dates = Some s -> well_formed_dob s.
Proof.
  induction 1 as [| d ds (d1 & s1 & d2 & s2 & y & D) _ IH]; simpl;
    [discriminate | ].
  destruct (accepted_dob d) eqn:E; [ | exact IH].
  intros H. injection H as <-. exact (accepted_dob_shaped D E).
Qed.

Lemma scan_lines_shaped (lines : list jsstring) (s : jsstring) :
  scan_lines lines = Some s -> well_formed_dob s.
Proof.
  induction lines as [| line rest IH]; simpl; [discriminate | ].
  destruct (test re_issue line); [exact IH | ].
  destruct (match_all re_date_word line) as [dates | ] eqn:M; [ | exact IH].
  destruct (first_accepted dates) eqn:E; [ | exact IH].
  intros H. injection H as <-.
  exact (first_accepted_shaped (date_words _ M) E).
Qed.

Lemma labelled_dob_shaped (rs : list regex) (text s : jsstring) :
  labelled_dob (seq (rs ++ [Group 1 re_date_shape])) text = Some s ->
  well_formed_dob s.
Proof.
  unfold labelled_dob.
  destruct (search (seq (rs ++ [Group 1 re_date_shape])) text) as [m | ] eqn:E;
    [ | discriminate].
  destruct (labelled_group _ _ E) as (d1 & s1 & d2 & s2 & y & D).
  apply (accepted_dob_shaped D).
Qed.

(** X12.  The date of birth that the extractor returns is never a loose
copy of what was read: it is the missing-value text, or two digits, a slash,
two digits, a slash and four digits that write a year from 1900 to 2020.
Day and month are not checked against the calendar. *)
Theorem extracted_date_is_well_formed (text : jsstring) (lines : list jsstring) :
  extractDobFromLines text lines = NOT_FOUND \/
  well_formed_dob (extractDobFromLines text lines).
Proof.
  unfold extractDobFromLines.
  destruct (labelled_dob re_dob_label text) as [s | ] eqn:E1.
  - right. revert E1. unfold re_dob_label.
    match goal with
    | |- labelled_dob (seq [?a; ?b; ?c; ?g]) _ = _ -> _ =>
        change (seq [a; b; c; g]) with (seq ([a; b; c] ++ [g]))
    end.
    apply labelled_dob_shaped.
  - destruct (labelled_dob re_dob_label_ta text) as [s | ] eqn:E2.
    + right. revert E2. unfold re_dob_label_ta.
      match goal with
      | |- labelled_dob (seq [?a; ?b; ?c; ?d; ?g]) _ = _ -> _ =>
          change (seq [a; b; c; d; g]) with (seq ([a; b; c; d] ++ [g]))
      end.
      apply labelled_dob_shaped.
    + destruct (scan_lines lines) as [s | ] eqn:E3.
      * right. exact (scan_lines_shaped _ E3).
      * left. reflexivity.
Qed.

Lemma separator_of_date (raw : jsstring) :
  In (separator_char raw) [47; 45; 46]%N.
Proof.
  unfold separator_char.
  destruct (includes raw (str "/")); [simpl; auto | ].
  destruct (includes raw (str "-")); simpl; auto.
Qed.

(** The pieces of an accepted text of the date pattern are its day, its
month and its year. *)
Lemma accepted_date_pieces (raw d1 : jsstring) (s1 : N) (d2 : jsstring)
  (s2 : N) (y s : jsstring) :
  date_shaped raw d1 s1 d2 s2 y ->
  sanitizeDob raw = Some s ->
  JsString.split raw (dob_separator raw) = [d1; d2; y].
Proof.
  intros (-> & P1 & _ & _ & P2 & _ & _ & [P3 _]).
  rewrite dob_separator_char, split_char_spec, sanitizeDob_pieces.
  set (c := separator_char (d1 ++ s1 :: d2 ++ s2 :: y)).
  assert (Hc : is_digit c = false).
  { pose proof (separator_of_date (d1 ++ s1 :: d2 ++ s2 :: y)) as Hin.
    fold c in Hin. simpl in Hin.
    destruct Hin as [<- | [<- | [<- | []]]]; reflexivity. }
  rewrite split_date by (apply not_in_digits; assumption).
  destruct (N.eqb s1 c), (N.eqb s2 c); try discriminate. reflexivity.
Qed.

(** C4.  On the texts that reach it, the sanitizer does what the claim
says.  It is private to the module and is called on captures of the date
pattern only (one or two digits, a separator, one or two digits, a
separator, four digits); for such a text [raw]: if [raw] is accepted, the
result is accepted again unchanged, [raw] splits on its separator into
exactly the three components day, month and year, the year parses to a
number from 1900 to 2020, and the result is the day and the month padded
with zeros to width two and the year, joined by slashes; a year outside
1900..2020 is rejected whatever the separators; and a text that does not
split into three components is rejected. *)
Theorem sanitizeDob_on_captured_dates (raw d1 : jsstring) (s1 : N)
  (d2 : jsstring) (s2 : N) (y : jsstring) :
  date_shaped raw d1 s1 d2 s2 y ->
  (forall s, sanitizeDob raw = Some s ->
     sanitizeDob s = Some s /\
     JsString.split raw (dob_separator raw) = [d1; d2; y] /\
     parseInt y = Some (year_of y) /\
     (1900 <= year_of y <= 2020)%Z /\
     s = padStart2 d1 ++ str "/" ++ padStart2 d2 ++ str "/" ++ y /\
     length (padStart2 d1) = 2 /\ length (padStart2 d2) = 2) /\
  ((year_of y < 1900 \/ 2020 < year_of y)%Z -> sanitizeDob raw = None) /\
  (length (JsString.split raw (dob_separator raw)) <> 3 ->
   sanitizeDob raw = None).
Proof.
  intros D. split; [ | split].
  - intros s Hs.
    split; [exact (sanitizeDob_idempotent _ Hs) | ].
    split; [exact (accepted_date_pieces D Hs) | ].
    pose proof D as (_ & P1 & L1 & _ & P2 & L2 & _ & [P3 L3]).
    split.
    { apply parseInt_digits; [exact P3 | ].
      destruct y; [discriminate L3 | discriminate]. }
    rewrite (sanitizeDob_date_shaped D) in Hs.
    destruct (N.eqb s1 s2); simpl andb in Hs; [ | discriminate Hs].
    destruct (year_in_bounds y) eqn:B; [ | discriminate Hs].
    injection Hs as <-.
    unfold year_in_bounds in B. apply andb_true_iff in B.
    destruct B as [B1 B2]. apply Z.leb_le in B1, B2.
    split; [split; assumption | ]. split; [reflexivity | ].
    split; [apply (padStart2_day P1 L1) | apply (padStart2_day P2 L2)].
  - intros Hy. rewrite (sanitizeDob_date_shaped D). unfold year_in_bounds.
    destruct (Z.leb_spec 1900 (year_of y)), (Z.leb_spec (year_of y) 2020);
      try lia; destruct (N.eqb s1 s2); reflexivity.
  - intros Hn. destruct (sanitizeDob raw) as [s | ] eqn:Hs; [ | reflexivity].
    rewrite (accepted_date_pieces D Hs) in Hn. simpl in Hn. congruence.
Qed.

Lemma sanitizeDob_on_captured_dates_witness :
  date_shaped (str "5.7.1990") (str "5") 46 (str "7") 46 (str "1990") /\
  sanitizeDob (str "5.7.1990") = Some (str "05/07/1990") /\
  sanitizeDob (str "05/07/1990") = Some (str "05/07/1990").
Proof.
  assert (D : date_shaped (str "5.7.1990") (str "5") 46 (str "7") 46 (str "1990")).
  { unfold date_shaped, digits. simpl length.
    repeat split; try reflexivity; try lia; repeat constructor. }
  assert (A : sanitizeDob (str "5.7.1990") = Some (str "05/07/1990"))
    by (vm_compute; reflexivity).
  split; [exact D | ]. split; [exact A | ].
  destruct (sanitizeDob_on_captured_dates D) as (H & _).
  destruct (H _ A) as (I & _). exact I.
Defined.

(** X13.  On a text of the date pattern the sanitizer decides by the
separators and the year alone.  Two different separators: rejected.  A year
before 1900 or after 2020: rejected.  The same separator twice and a year
within the bounds: accepted, and the result has the day and the month padded
to two digits and slashes for separators. *)
Theorem sanitizeDob_on_pattern_dates (raw d1 : jsstring) (s1 : N)
  (d2 : jsstring) (s2 : N) (y : jsstring) :
  date_shaped raw d1 s1 d2 s2 y ->
  (s1 <> s2 -> sanitizeDob raw = None) /\
  ((year_of y < 1900 \/ 2020 < year_of y)%Z -> sanitizeDob raw = None) /\
  (s1 = s2 -> (1900 <= year_of y <= 2020)%Z ->
   sanitizeDob raw = Some (padStart2 d1 ++ str "/" ++ padStart2 d2 ++ str "/" ++ y) /\
   well_formed_dob (padStart2 d1 ++ str "/" ++ padStart2 d2 ++ str "/" ++ y)).
Proof.
  intros D. rewrite (sanitizeDob_date_shaped D). split; [ | split].
  - intros Hne. destruct (N.eqb_spec s1 s2); [contradiction | reflexivity].
  - intros Hy. unfold year_in_bounds.
    destruct (Z.leb_spec 1900 (year_of y)), (Z.leb_spec (year_of y) 2020);
      try lia; destruct (N.eqb s1 s2); reflexivity.
  - intros E Hy.
    assert (B : year_in_bounds y = true).
    { unfold year_in_bounds.
      destruct (Z.leb_spec 1900 (year_of y)), (Z.leb_spec (year_of y) 2020);
        first [reflexivity | lia]. }
    split.
    + rewrite E, N.eqb_refl, B. reflexivity.
    + apply (normalised_well_formed D B).
Qed.

Lemma sanitizeDob_on_pattern_dates_witness :
  date_shaped (str "5-7-1990") (str "5") 45 (str "7") 45 (str "1990") /\
  sanitizeDob (str "5-7-1990") = Some (str "05/07/1990").
Proof.
  assert (D : date_shaped (str "5-7-1990") (str "5") 45 (str "7") 45 (str "1990")).
  { unfold date_shaped, digits. simpl length.
    repeat split; try reflexivity; try lia; repeat constructor. }
  split; [exact D | ].
  destruct (sanitizeDob_on_pattern_dates D) as (_ & _ & H).
  destruct (H eq_refl) as [E _].
  - vm_compute. split; discriminate.
  - exact E.
Defined.

Lemma scan_lines_filter (lines : list jsstring) :
  scan_lines (List.filter (fun l => negb (test re_issue l)) lines)
  = scan_lines lines.
Proof.
  induction lines as [| line rest IH]; [reflexivity | ].
  cbn [List.filter scan_lines].
  destruct (test re_issue line) eqn:E; cbn [negb]; [exact IH | ].
  cbn [scan_lines]. rewrite E, IH. reflexivity.
Qed.

(** X14.  The lines that mention the issue of the card take no part in the
search through the lines: a line in which [issue] occurs, in any mix of
upper and lower case, is passed over, so that dropping these lines from the
list changes no result. *)
Theorem lines_about_the_issue_are_skipped
  (text : jsstring) (lines : list jsstring) :
  extractDobFromLines text lines
  = extractDobFromLines text
      (List.filter (fun l => negb (test re_issue l)) lines) /\
  (forall l,
     test re_issue l = true <->
     exists w, same_folded w (str "issue") /\ occurs_in w l).
Proof.
  split.
  - unfold extractDobFromLines. rewrite scan_lines_filter. reflexivity.
  - intros l. rewrite test_true. unfold re_issue. split.
    + intros (skipped & rest & e & -> & H). apply in_run_lit_i in H.
      destruct H as (w & F & M). exists w. split; [exact F | ].
      exists skipped, (after e). destruct M as (A & _). simpl in A.
      rewrite A. reflexivity.
    + intros (w & F & pre & post & ->).
      exists pre, (w ++ post), (jump (start_at [] pre (w ++ post)) w post).
      split; [reflexivity | ]. apply in_run_lit_i. exists w.
      split; [exact F | ]. apply moves_after. reflexivity.
Qed.

End DateFacts.
(** ** Names: what [isName] accepts and what [smartTitle] returns *)

Module NameShapeFacts.

Import Chars JsString Regex Scanner Spec MatcherSpec Shapes.
Import RegexFacts ClassFacts SearchFacts ExtractFacts NameFacts.

#[local] Arguments str : simpl never.

(** The shape test of [isName], read backwards. *)
Lemma name_shape_sound (t : jsstring) :
  test re_name_shape t = true ->
  exists c w, t = c :: w /\ is_alpha c = true /\ all is_name_char w /\
              1 <= length w.
Proof.
  intros H. apply test_true in H. destruct H as (skipped & rest & e & -> & H).
  unfold re_name_shape in H. peel H. apply in_run_bol in Hm.
  destruct Hm as [-> Hb]. simpl in Hb. rewrite app_nil_r in Hb.
  assert (skipped = []) as ->.
  { destruct skipped as [| a sk]; [reflexivity | ].
    apply (f_equal (@length N)) in Hb. simpl in Hb.
    rewrite length_app in Hb. simpl in Hb. lia. }
  peel H. apply in_run_class in Hm. destruct Hm as (c & Hc & M1).
  peel H. apply in_run_rep_class in Hm. destruct Hm as (w & P & M2 & L & _).
  change (seq [Eol]) with Eol in H. apply in_run_eol in H.
  destruct H as [-> Hend].
  destruct M1 as (A1 & _). destruct M2 as (A2 & _). simpl in A1.
  exists c, w. rewrite A1, A2, Hend, app_nil_r. auto.
Qed.

Lemma words_from_nonempty (s : jsstring) :
  forall cur g, words_from cur g s <> [].
Proof.
  induction s as [| c s IH]; intros cur g; simpl; [discriminate | ].
  destruct (is_space c); [destruct g; [apply IH | discriminate] | apply IH].
Qed.

(** X15.  [isName] accepts a line only for what is left of it once the
leading non-letters and a trailing token of one or two digits are taken off:
that remainder begins with an ASCII letter and goes on with letters, white
space and periods only, has 4 to 50 code units, contains no term of the
blacklist in any letter case, and either has two or more words of which one
has three characters or more besides periods, or is a single word of six
characters or more. *)
Theorem accepted_lines_have_the_shape_of_a_name (line : jsstring) :
  isName line = true ->
  let t := stripped line in
  (exists c w, t = c :: w /\ is_alpha c = true /\ all is_name_char w) /\
  4 <= length t <= 50 /\
  ~ blacklisted t /\
  ((2 <= length (words t) /\
    exists w, In w (words t) /\ 3 <= length (without_periods w)) \/
   (exists w, words t = [w] /\ 6 <= length w)).
Proof.
  rewrite isName_stripped. cbv zeta. set (t := stripped line).
  destruct (existsb (fun b => includes (toLowerCase t) b) BLACKLIST) eqn:B;
    [discriminate | ].
  destruct (test re_name_shape t) eqn:S; [ | discriminate]. cbn [negb].
  destruct (length t <? 4) eqn:L1; [discriminate | ].
  destruct (50 <? length t) eqn:L2; [discriminate | ]. cbn [orb].
  apply Nat.ltb_ge in L1, L2. intros H.
  split.
  { destruct (name_shape_sound _ S) as (c & w & E & Hc & P & _). eauto. }
  split; [lia | ]. split.
  { intros Hb. apply blacklist_test in Hb. rewrite Hb in B. discriminate B. }
  destruct (2 <=? length (words t)) eqn:W.
  - left. apply Nat.leb_le in W. split; [exact W | ].
    apply existsb_exists in H. destruct H as (w & Hin & Hw).
    apply Nat.leb_le in Hw. eauto.
  - right. apply Nat.leb_gt in W. apply Nat.leb_le in H.
    pose proof (@words_from_nonempty t [] false) as Hne. fold (words t) in Hne.
    destruct (words t) as [| w [| w' ws]]; [congruence | | simpl in W; lia].
    exists w. split; [reflexivity | exact H].
Qed.

Lemma accepted_lines_have_the_shape_of_a_name_witness :
  isName (str "Balavisakan 14") = true /\
  stripped (str "Balavisakan 14") = str "Balavisakan" /\
  4 <= length (stripped (str "Balavisakan 14")) <= 50.
Proof.
  assert (H : isName (str "Balavisakan 14") = true) by (vm_compute; reflexivity).
  split; [exact H | ]. split; [vm_compute; reflexivity | ].
  destruct (accepted_lines_have_the_shape_of_a_name _ H) as (_ & L & _).
  exact L.
Defined.

(** *** The titled form *)

Lemma upper_word_char (c : N) :
  is_word_char c = true ->
  exists c', upper c = [c'] /\ is_word_char c' = true /\
             (is_alpha c = true -> is_upper c' = true).
Proof.
  intros H. unfold upper. destruct (is_lower c) eqn:E.
  - exists (c - 32)%N. split; [reflexivity | ].
    unfold is_word_char in *. split; [ | intros _]; char_facts.
  - exists c. split; [reflexivity | ]. split; [exact H | ].
    intros A. unfold is_alpha in A. rewrite E, orb_false_r in A. exact A.
Qed.

Lemma lower_word_char (c : N) :
  is_word_char c = true ->
  exists c', lower c = [c'] /\ is_word_char c' = true.
Proof.
  intros H. unfold lower. destruct (is_upper c) eqn:E.
  - exists (c + 32)%N. split; [reflexivity | ].
    unfold is_word_char in *. char_facts.
  - destruct (N.eqb_spec c 304) as [-> | _]; [discriminate H | ].
    destruct (N.eqb_spec c 8490) as [-> | _]; [discriminate H | ].
    exists c. split; [reflexivity | exact H].
Qed.

Lemma toUpperCase_word (w : jsstring) :
  all is_word_char w ->
  all is_word_char (toUpperCase w) /\ length (toUpperCase w) = length w.
Proof.
  induction 1 as [| c w Hc _ [IH1 IH2]]; [split; [constructor | reflexivity] | ].
  destruct (upper_word_char _ Hc) as (c' & E & Hc' & _).
  unfold toUpperCase in *. cbn [flat_map]. rewrite E. simpl.
  split; [constructor; assumption | congruence].
Qed.

Lemma toLowerCase_word (w : jsstring) :
  all is_word_char w ->
  all is_word_char (toLowerCase w) /\ length (toLowerCase w) = length w.
Proof.
  induction 1 as [| c w Hc _ [IH1 IH2]]; [split; [constructor | reflexivity] | ].
  destruct (lower_word_char _ Hc) as (c' & E & Hc').
  unfold toLowerCase in *. cbn [flat_map]. rewrite E. simpl.
  split; [constructor; assumption | congruence].
Qed.

Lemma title_token_word (w : jsstring) :
  all is_word_char w ->
  all is_word_char (title_token w) /\ length (title_token w) = length w.
Proof.
  intros P. unfold title_token.
  destruct (length (without_periods w) <=? 2); [apply toUpperCase_word; exact P | ].
  destruct w as [| c w]; [split; [constructor | reflexivity] | ].
  inversion P as [| ? ? Hc Pw]; subst.
  change (firstn 1 (c :: w)) with [c]. change (skipn 1 (c :: w)) with w.
  destruct (upper_word_char _ Hc) as (c' & E & Hc' & _).
  destruct (toLowerCase_word Pw) as [Q1 Q2].
  unfold toUpperCase. cbn [flat_map]. rewrite E. cbn [app].
  split; [constructor; assumption | cbn [length]; rewrite Q2; reflexivity].
Qed.

Lemma title_token_head (c : N) (x : jsstring) :
  is_alpha c = true -> is_word_char c = true ->
  exists c' x', title_token (c :: x) = c' :: x' /\ is_upper c' = true.
Proof.
  intros A Hc. destruct (upper_word_char _ Hc) as (c' & E & _ & U).
  unfold title_token.
  change (firstn 1 (c :: x)) with [c].
  destruct (length (without_periods (c :: x)) <=? 2);
    unfold toUpperCase; cbn [flat_map]; rewrite E; simpl; eauto.
Qed.

(** *** The words of a text *)

Lemma words_from_chars (s : jsstring) :
  forall cur g,
    all is_word_char cur ->
    Forall (fun c => is_space c = true \/ is_word_char c = true) s ->
    Forall (all is_word_char) (words_from cur g s).
Proof.
  induction s as [| c s IH]; intros cur g Pc Ps; simpl.
  - constructor; [apply all_rev; exact Pc | constructor].
  - inversion Ps as [| ? ? Hc Ps']; subst.
    destruct (is_space c) eqn:E.
    + destruct g; [apply IH; assumption | ].
      constructor; [apply all_rev; exact Pc | ].
      apply IH; [constructor | assumption].
    + apply IH; [ | assumption]. constructor; [ | exact Pc].
      destruct Hc as [Hc | Hc]; [congruence | exact Hc].
Qed.

Lemma words_from_head (s : jsstring) :
  forall cur, exists x rest, words_from cur false s = (rev cur ++ x) :: rest.
Proof.
  induction s as [| c s IH]; intros cur; simpl.
  - exists [], []. rewrite app_nil_r. reflexivity.
  - destruct (is_space c).
    + exists [], (words_from [] true s). rewrite app_nil_r. reflexivity.
    + destruct (IH (c :: cur)) as (x & rest & E). rewrite E.
      exists (c :: x), rest. simpl. rewrite <- app_assoc. reflexivity.
Qed.

Lemma join_cons (sep x y : jsstring) (rest : list jsstring) :
  join sep (x :: y :: rest) = x ++ sep ++ join sep (y :: rest).
Proof. reflexivity. Qed.

Lemma join_length_bound (s : jsstring) :
  forall cur g,
    length (join (str " ") (words_from cur g s)) <= length cur + length s.
Proof.
  induction s as [| c s IH]; intros cur g; simpl words_from.
  - simpl. rewrite length_rev. lia.
  - destruct (is_space c).
    + destruct g.
      * specialize (IH cur true). simpl length. lia.
      * specialize (IH [] true).
        pose proof (@words_from_nonempty s [] true) as Hne.
        destruct (words_from [] true s) as [| y rest]; [congruence | ].
        rewrite join_cons, !length_app, length_rev.
        change (length (str " ")) with 1. simpl length in *. lia.
    + specialize (IH (c :: cur) false). simpl length in *. lia.
Qed.

Lemma join_titled (ws : list jsstring) :
  Forall (all is_titled_char) ws -> all is_titled_char (join (str " ") ws).
Proof.
  induction 1 as [| x ws Hx Hws IH]; [constructor | ].
  destruct ws as [| y rest]; [exact Hx | ].
  rewrite join_cons. apply Forall_app. split; [exact Hx | ].
  apply Forall_app. split; [repeat constructor | exact IH].
Qed.

Lemma join_length_map (f : jsstring -> jsstring) (sep : jsstring)
  (ws : list jsstring) :
  Forall (fun w => length (f w) = length w) ws ->
  length (join sep (List.map f ws)) = length (join sep ws).
Proof.
  induction 1 as [| x ws Hx Hws IH]; [reflexivity | ].
  destruct ws as [| y rest]; [exact Hx | ].
  cbn [List.map] in *. rewrite !join_cons, !length_app, Hx, IH. reflexivity.
Qed.

Lemma word_char_titled (w : jsstring) :
  all is_word_char w -> all is_titled_char w.
Proof.
  apply Forall_impl. intros c H. unfold is_titled_char.
  unfold is_word_char in H. rewrite H. reflexivity.
Qed.

(** X16.  The titled form of a line that [isName] accepts, which is the
only use the program makes of [smartTitle]: it begins with an upper-case
ASCII letter, holds nothing but ASCII letters, periods and blanks (every run
of white space of the line has become one blank), and is no longer than the
line without its leading non-letters and its trailing digits, so at most 50
code units long. *)
Theorem titled_names_are_clean (line : jsstring) :
  isName line = true ->
  titled (smartTitle line) /\
  length (smartTitle line) <= length (stripped line) /\
  length (stripped line) <= 50.
Proof.
  intros H. rewrite smartTitle_stripped.
  rewrite isName_stripped in H. cbv zeta in H.
  set (t := stripped line) in *.
  destruct (existsb (fun b => includes (toLowerCase t) b) BLACKLIST);
    [discriminate | ].
  destruct (test re_name_shape t) eqn:S; [ | discriminate]. cbn [negb] in H.
  destruct (length t <? 4) eqn:L1; [discriminate | ].
  destruct (50 <? length t) eqn:L2; [discriminate | ]. clear H.
  apply Nat.ltb_ge in L2.
  destruct (name_shape_sound _ S) as (c & w & E & Hc & P & _).
  assert (Pt : Forall (fun x => is_space x = true \/ is_word_char x = true) t).
  { rewrite E. constructor.
    - right. unfold is_word_char. rewrite Hc. reflexivity.
    - revert P. apply Forall_impl. intros x Hx. unfold is_name_char in Hx.
      unfold is_word_char. destruct (is_space x); [left; reflexivity | right].
      destruct (is_alpha x); [reflexivity | exact Hx]. }
  assert (Pw : Forall (all is_word_char) (words t)).
  { apply words_from_chars; [constructor | exact Pt]. }
  assert (Lw : Forall (fun x => length (title_token x) = length x) (words t)).
  { revert Pw. apply Forall_impl. intros x Hx. apply (title_token_word Hx). }
  split; [ | split; [ | exact L2]].
  - assert (A : all is_titled_char
                  (join (str " ") (List.map title_token (words t)))).
    { apply join_titled. apply Forall_map. revert Pw. apply Forall_impl.
      intros x Hx. apply word_char_titled. apply (title_token_word Hx). }
    unfold words in *. rewrite E in *. simpl words_from in *.
    rewrite (alpha_not_space _ Hc) in *.
    destruct (words_from_head w [c]) as (x & rest & Ew). simpl in Ew.
    rewrite Ew in *. cbn [List.map] in *.
    inversion Pw as [| ? ? Px _]; subst.
    inversion Px as [| ? ? Wc _]; subst.
    destruct (@title_token_head c x Hc Wc) as (c' & x' & Et & U).
    rewrite Et in *.
    exists c'. destruct (List.map title_token rest) as [| y r].
    + exists x'. split; [reflexivity | ]. split; [exact U | ].
      inversion A; assumption.
    + rewrite join_cons in *. exists (x' ++ str " " ++ join (str " ") (y :: r)).
      split; [reflexivity | ]. split; [exact U | ]. inversion A; assumption.
  - rewrite (join_length_map _ _ Lw). apply (join_length_bound t [] false).
Qed.

Lemma titled_names_are_clean_witness :
  isName (str "Dr. arun   K 5") = true /\
  smartTitle (str "Dr. arun   K 5") = str "DR. Arun K" /\
  titled (smartTitle (str "Dr. arun   K 5")).
Proof.
  assert (H : isName (str "Dr. arun   K 5") = true) by (vm_compute; reflexivity).
  split; [exact H | ]. split; [vm_compute; reflexivity | ].
  destruct (titled_names_are_clean _ H) as (T & _). exact T.
Defined.

End NameShapeFacts.
(** ** The numbers and the names of a card: what the patterns capture *)

Module CaptureFacts.

Import Chars JsString Regex Scanner Spec MatcherSpec Shapes.
Import RegexFacts ClassFacts SearchFacts ExtractFacts NameFacts ClassifierFacts.

#[local] Arguments str : simpl never.

(** A match of a pattern between two word boundaries. *)
Lemma search_word_pattern (rs : list regex) (text : jsstring) (m : found) :
  search (seq (WordB :: rs ++ [WordB])) text = Some m ->
  exists pre w post,
    text = pre ++ w ++ post /\
    In (f_end m) (run (seq rs) (start_at [] pre (w ++ post))) /\
    reads (start_at [] pre (w ++ post)) w (f_end m) /\
    at_boundary pre (w ++ post) /\ at_boundary (pre ++ w) post.
Proof.
  intros H. pose proof (search_end_in _ _ H) as Hin. apply search_some in H.
  destruct H as (skipped & w & tl & Hs & _ & Hst & _ & Hw & _).
  apply in_run_seq_cons in Hin. destruct Hin as (m0 & Hm0 & Hin).
  apply in_run_wordb in Hm0. destruct Hm0 as [-> Hb].
  apply in_run_seq_app in Hin. destruct Hin as (m1 & Hm1 & Hin).
  change (seq [WordB]) with WordB in Hin. apply in_run_wordb in Hin.
  destruct Hin as [<- Hb'].
  exists skipped, w, (after (f_end m)). rewrite Hst in *.
  split; [exact Hs | ]. split; [exact Hm1 | ]. split; [exact Hw | ].
  destruct Hw as [_ B]. simpl in B. rewrite app_nil_r in B. split.
  - unfold start_at in Hb. rewrite app_nil_r in Hb. exact Hb.
  - unfold at_boundary, last_is_word. rewrite rev_app_distr, <- B. exact Hb'.
Qed.

(** X17.  The card number of a voter record is the missing-value text or
two to four upper-case ASCII letters followed by six to ten digits, copied
from a place of the two texts (the plain one, a line feed, the enhanced one)
where it stands between two word boundaries. *)
Theorem card_number_has_the_pattern (textOrig text2x : jsstring) :
  cardNo (extractVoterFields textOrig text2x) = JStr NOT_FOUND \/
  exists letters digits,
    cardNo (extractVoterFields textOrig text2x) = JStr (letters ++ digits) /\
    all is_upper letters /\ 2 <= length letters <= 4 /\
    all is_digit digits /\ 6 <= length digits <= 10 /\
    occurs_as_word (letters ++ digits) (textOrig ++ LF ++ text2x).
Proof.
  rewrite voter_fields. cbv zeta. cbn [cardNo]. unfold card_number_rule.
  destruct (search re_card (textOrig ++ LF ++ text2x)) as [m | ] eqn:E;
    [right | left; reflexivity].
  unfold re_card in E.
  change (seq [WordB; Group 1 re_card_shape; WordB])
    with (seq (WordB :: [Group 1 re_card_shape] ++ [WordB])) in E.
  apply search_word_pattern in E.
  destruct E as (pre & w & post & Ht & Hin & Hw & Hb & Hb').
  change (seq [Group 1 re_card_shape]) with (Group 1 re_card_shape) in Hin.
  apply in_run_group in Hin. destruct Hin as (e0 & He0 & He).
  apply in_run_card_shape in He0.
  destruct He0 as (letters & digits & P1 & L1 & P2 & L2 & M).
  rewrite (reads_consumed (moves_reads M)) in He.
  assert (Ew : w = letters ++ digits).
  { apply (reads_inj Hw). rewrite He. exact (moves_reads M). }
  subst w. exists letters, digits.
  rewrite (@group_str_end 0 _ _ _ He).
  repeat split; try assumption; try lia.
  exists pre, post. auto.
Qed.

Lemma in_run_gap (s e : mstate) :
  In e (run (range 0 6 space) s) ->
  exists w, all is_space w /\ length w <= 6 /\ moves s w e.
Proof.
  intros H. apply in_run_rep_class in H. destruct H as (w & P & M & _ & U).
  exists w. simpl in U. split; [exact P | split; [lia | exact M]].
Qed.

Lemma in_run_group4 (n : nat) (s e : mstate) :
  In e (run (Group n (range 4 4 digit)) s) ->
  exists g e0, digits 4 g /\ moves s g e0 /\ e = set_cap n g e0.
Proof.
  intros H. apply in_run_group in H. destruct H as (e0 & He0 & ->).
  apply in_run_digits4 in He0. destruct He0 as (g & P & L & M).
  exists g, e0. rewrite (reads_consumed (moves_reads M)).
  split; [split; assumption | split; [exact M | reflexivity]].
Qed.

(** X18.  The Aadhaar number of a record is the missing-value text or
three groups of four digits joined by single blanks.  The groups are copied
from a place of the second region where they stand between two word
boundaries, each group up to six white-space characters after the one
before; whatever white space stood between them, one blank is written. *)
Theorem aadhaar_number_is_regrouped (r1Text r2Text : jsstring) :
  aadhaar (extractAadhaarFields r1Text r2Text) = JStr NOT_FOUND \/
  exists g1 s1 g2 s2 g3,
    aadhaar (extractAadhaarFields r1Text r2Text)
    = JStr (g1 ++ str " " ++ g2 ++ str " " ++ g3) /\
    digits 4 g1 /\ digits 4 g2 /\ digits 4 g3 /\
    all is_space s1 /\ length s1 <= 6 /\
    all is_space s2 /\ length s2 <= 6 /\
    occurs_as_word (g1 ++ s1 ++ g2 ++ s2 ++ g3) r2Text.
Proof.
  rewrite aadhaar_fields. cbn [aadhaar]. unfold aadhaar_number_rule.
  destruct (search re_aadhaar r2Text) as [m | ] eqn:E;
    [right | left; reflexivity].
  unfold re_aadhaar in E.
  match type of E with
  | search (seq [WordB; ?a; ?b; ?c; ?d; ?g; WordB]) _ = _ =>
      change (seq [WordB; a; b; c; d; g; WordB])
        with (seq (WordB :: [a; b; c; d; g] ++ [WordB])) in E
  end.
  apply search_word_pattern in E.
  destruct E as (pre & w & post & Ht & Hin & Hw & Hb & Hb').
  do 4 peel Hin.
  match type of Hin with
  | In _ (run (seq [?g]) _) => change (seq [g]) with g in Hin
  end.
  apply in_run_group4 in Hm. destruct Hm as (g1 & e1 & D1 & M1 & ->).
  apply in_run_gap in Hm0. destruct Hm0 as (s1 & P1 & L1 & M2).
  apply in_run_group4 in Hm1. destruct Hm1 as (g2 & e2 & D2 & M3 & ->).
  apply in_run_gap in Hm2. destruct Hm2 as (s2 & P2 & L2 & M4).
  apply in_run_group4 in Hin. destruct Hin as (g3 & e3 & D3 & M5 & He).
  assert (R : reads (start_at [] pre (w ++ post))
                (g1 ++ s1 ++ g2 ++ s2 ++ g3) (f_end m)).
  { rewrite He.
    apply (reads_app (moves_reads M1)).
    apply (@reads_app e1 m1 _ s1 _ (moves_reads M2)).
    apply (reads_app (moves_reads M3)).
    apply (@reads_app e2 m3 _ s2 _ (moves_reads M4)).
    exact (moves_reads M5). }
  assert (Ew : w = g1 ++ s1 ++ g2 ++ s2 ++ g3) by exact (reads_inj Hw R).
  subst w.
  assert (C : caps (f_end m)
              = (3, g3) :: (2, g2) :: (1, g1) :: caps e1).
  { rewrite He. destruct M5 as (_ & _ & C5). destruct M4 as (_ & _ & C4).
    destruct M3 as (_ & _ & C3). destruct M2 as (_ & _ & C2).
    cbn [caps set_cap] in *. rewrite C5, C4, C3, C2. reflexivity. }
  exists g1, s1, g2, s2, g3.
  unfold group_str, group. rewrite C. cbn [get_cap Nat.eqb].
  split; [reflexivity | ].
  repeat (split; [assumption | ]).
  exists pre, post. auto.
Qed.

(** *** [trim] *)

Lemma trimStart_suffix (s : jsstring) :
  exists pre, s = pre ++ trimStart s.
Proof.
  induction s as [| c s [pre IH]]; [exists []; reflexivity | ]. simpl.
  destruct (is_space c); [ | exists []; reflexivity].
  exists (c :: pre). simpl. rewrite <- IH. reflexivity.
Qed.

Lemma trimStart_head (s : jsstring) :
  trimStart s = [] \/
  exists d s', trimStart s = d :: s' /\ is_space d = false.
Proof.
  induction s as [| c s IH]; [left; reflexivity | ]. simpl.
  destruct (is_space c) eqn:E; [exact IH | ]. right. eauto.
Qed.

Lemma trimStart_all (p : N -> bool) (s : jsstring) :
  all p s -> all p (trimStart s).
Proof.
  intros H. destruct (trimStart_suffix s) as [pre E]. rewrite E in H.
  apply Forall_app in H. tauto.
Qed.

Lemma trimStart_length (s : jsstring) : length (trimStart s) <= length s.
Proof.
  destruct (trimStart_suffix s) as [pre E]. rewrite E at 2.
  rewrite length_app. lia.
Qed.

Lemma trim_all (p : N -> bool) (s : jsstring) : all p s -> all p (trim s).
Proof.
  intros H. unfold trim, trimEnd. apply all_rev. apply trimStart_all.
  apply all_rev. apply trimStart_all. exact H.
Qed.

Lemma trim_length (s : jsstring) : length (trim s) <= length s.
Proof.
  unfold trim, trimEnd. rewrite length_rev.
  pose proof (trimStart_length (rev (trimStart s))) as A.
  rewrite length_rev in A. pose proof (trimStart_length s). lia.
Qed.

Lemma trim_last (s : jsstring) :
  trim s = [] \/ exists q d, trim s = q ++ [d] /\ is_space d = false.
Proof.
  unfold trim, trimEnd.
  destruct (trimStart_head (rev (trimStart s))) as [-> | (d & s' & -> & Hd)];
    [left; reflexivity | right].
  exists (rev s'), d. split; [reflexivity | exact Hd].
Qed.

Lemma trim_fixed (c d : N) (x q : jsstring) :
  is_space c = false -> is_space d = false ->
  c :: x = q ++ [d] -> trim (c :: x) = c :: x.
Proof.
  intros Hc Hd E. unfold trim, trimEnd. simpl trimStart at 2. rewrite Hc.
  rewrite E, rev_app_distr. simpl. rewrite Hd. simpl.
  rewrite rev_involutive. reflexivity.
Qed.

(** *** The father's name *)

Lemma father_char_cases (c : N) :
  is_father_char c = true -> is_space c = false -> is_alpha c = true.
Proof.
  unfold is_father_char. intros H S. rewrite S, orb_false_r in H. exact H.
Qed.

(** The noise pattern finds nothing in a text that ends with a code unit
outside its class. *)
Lemma no_trailing_noise (q : jsstring) (d : N) :
  is_father_noise d = false -> search re_father_noise (q ++ [d]) = None.
Proof.
  intros Hd. unfold search. apply search_from_none. intros skipped rest E.
  destruct (run re_father_noise (start_at [] skipped rest)) as [| e tl] eqn:R;
    [reflexivity | exfalso].
  assert (Hin : In e (run re_father_noise (start_at [] skipped rest)))
    by (rewrite R; left; reflexivity).
  unfold re_father_noise in Hin. peel Hin.
  apply in_run_rep_class in Hm. destruct Hm as (w & P & M & L & _).
  change (seq [Eol]) with Eol in Hin. apply in_run_eol in Hin.
  destruct Hin as [-> Hend]. destruct M as (A & _). simpl in A.
  rewrite Hend, app_nil_r in A. subst rest.
  destruct (exists_last (l := w)) as (w' & a & ->).
  { intros ->. simpl in L. lia. }
  rewrite app_assoc in E. apply app_inj_tail in E. destruct E as [_ ->].
  apply Forall_app in P. destruct P as [_ P].
  inversion P as [| ? ? Ha _]; subst. congruence.
Qed.

Lemma father_capture (text : jsstring) (m : found) :
  search re_father text = Some m ->
  exists c w,
    group_str 1 m = c :: w /\ is_alpha c = true /\
    all is_father_char w /\ 2 <= length w <= 30.
Proof.
  intros H. apply search_end_in in H. unfold re_father in H.
  do 9 peel H.
  match type of H with In _ (run (seq [?g]) _) => change (seq [g]) with g in H end.
  apply in_run_group in H. destruct H as (e0 & He0 & H).
  rewrite (@group_str_end 0 _ _ _ H).
  peel He0. apply in_run_class in Hm8. destruct Hm8 as (c & Hc & M1).
  match type of He0 with In _ (run (seq [?g]) _) => change (seq [g]) with g in He0 end.
  apply in_run_rep_class in He0. destruct He0 as (w & P & M2 & L & U).
  simpl in U.
  rewrite (reads_consumed (moves_reads (moves_app M1 M2))).
  exists c, w. split; [reflexivity | ]. split; [exact Hc | ].
  split; [exact P | lia].
Qed.

(** X19.  When the father's name is found after its label, the field is
the capture of the pattern with the white space trimmed off its ends, and
the removal of trailing noise that follows in the source never removes
anything: the capture holds ASCII letters and white space only, so that
after the trim it ends with a letter.  The name begins and ends with a
letter, holds letters and white space only (a line feed is white space, so
the name can run on into the next line) and has at most 31 code units. *)
Theorem labelled_father_name_is_the_trimmed_capture
  (textOrig text2x : jsstring) (fM : found) :
  search re_father (textOrig ++ LF ++ text2x) = Some fM ->
  let f := trim (group_str 1 fM) in
  fatherName (extractVoterFields textOrig text2x) = JStr f /\
  remove_first re_father_noise f = f /\
  (exists c w, f = c :: w /\ is_alpha c = true) /\
  (exists q d, f = q ++ [d] /\ is_alpha d = true) /\
  all is_father_char f /\
  length f <= 31.
Proof.
  intros E f.
  destruct (father_capture _ E) as (c & w & G & Hc & P & L).
  assert (Pf : all is_father_char f).
  { unfold f. rewrite G. apply trim_all. constructor; [ | exact P].
    unfold is_father_char. rewrite Hc. reflexivity. }
  assert (Hh : exists w', f = c :: w').
  { unfold f. rewrite G. apply trim_keeps_head. apply alpha_not_space. exact Hc. }
  assert (Hl : exists q d, f = q ++ [d] /\ is_alpha d = true).
  { destruct (trim_last (group_str 1 fM)) as [Z | (q & d & Z & Hd)];
      fold f in Z.
    - destruct Hh as [w' Hw']. congruence.
    - exists q, d. split; [exact Z | ]. apply father_char_cases; [ | exact Hd].
      rewrite Z in Pf. apply Forall_app in Pf. destruct Pf as [_ Pd].
      inversion Pd; assumption. }
  assert (Hn : remove_first re_father_noise f = f).
  { destruct Hl as (q & d & Z & Hd). unfold remove_first. rewrite Z.
    rewrite no_trailing_noise; [reflexivity | apply alpha_not_noise; exact Hd]. }
  split.
  - rewrite voter_fields. cbv zeta. cbn [fatherName]. unfold father_name_rule.
    rewrite E. fold f. rewrite Hn. reflexivity.
  - split; [exact Hn | ]. split; [destruct Hh as [w' Hw']; eauto | ].
    split; [exact Hl | ]. split; [exact Pf | ].
    unfold f. pose proof (trim_length (group_str 1 fM)) as T.
    rewrite G in T at 2. simpl in T. lia.
Qed.

Lemma labelled_father_name_is_the_trimmed_capture_witness :
  search re_father (father_text ++ LF ++ []) = Some father_match /\
  fatherName (extractVoterFields father_text [])
  = JStr (str "Soundararajan  K  " ++ LF ++ str "Sex").
Proof.
  assert (E : search re_father (father_text ++ LF ++ []) = Some father_match)
    by (vm_compute; reflexivity).
  split; [exact E | ].
  destruct (labelled_father_name_is_the_trimmed_capture father_text [] E)
    as (F & _).
  rewrite F. vm_compute. reflexivity.
Defined.

(** *** The voter's name *)

(** Iterations of a pattern whose matches all read a word of the kind [P]
and set no capture. *)
Lemma steps_words (r : regex) (P : jsstring -> Prop) :
  (forall s e, In e (run r s) -> exists w, P w /\ moves s w e) ->
  forall n s m,
    steps (run r) n s m ->
    exists ws, length ws = n /\ Forall P ws /\ moves s (concat ws) m.
Proof.
  intros Hr. induction n as [| n IH]; intros s m H; simpl in H.
  - subst m. exists []. split; [reflexivity | ]. split; [constructor | ].
    apply moves_nil. reflexivity.
  - destruct H as (s1 & Hs1 & H). destruct (Hr _ _ Hs1) as (w & Pw & M).
    destruct (IH _ _ H) as (ws & L & Pws & Ms).
    exists (w :: ws). split; [simpl; congruence | ].
    split; [constructor; assumption | ]. simpl. exact (moves_app M Ms).
Qed.

Lemma later_word_sound (s e : mstate) :
  In e (run (seq [plus space; Class is_upper; opt (Class is_lower)]) s) ->
  exists g, short_word g /\ moves s g e.
Proof.
  intros H. peel H. peel H.
  change (seq [opt (Class is_lower)]) with (Rep 0 (Some 1) (Class is_lower)) in H.
  apply in_run_rep_class in Hm. destruct Hm as (ws & P1 & M1 & L1 & _).
  apply in_run_class in Hm0. destruct Hm0 as (u & Hu & M2).
  apply in_run_rep_class in H. destruct H as (l & P3 & M3 & _ & L3).
  simpl in L3. exists (ws ++ u :: l). split.
  - exists ws, u, l. repeat split; auto.
  - apply (moves_app M1). exact (moves_app M2 M3).
Qed.

Lemma voter_name_capture (line : jsstring) (m : found) :
  search re_voter_name line = Some m ->
  exists c ls gs,
    group_str 1 m = (c :: ls) ++ concat gs /\
    is_upper c = true /\ all is_lower ls /\ 1 <= length ls /\
    1 <= length gs /\ Forall short_word gs.
Proof.
  intros H. apply search_end_in in H. unfold re_voter_name in H.
  peel H. peel H. peel H.
  match type of H with In _ (run (seq [?g]) _) => change (seq [g]) with g in H end.
  apply in_run_group in H. destruct H as (e0 & He0 & H).
  rewrite (@group_str_end 0 _ _ _ H).
  peel He0. apply in_run_class in Hm2. destruct Hm2 as (c & Hc & M1).
  peel He0. apply in_run_rep_class in Hm2. destruct Hm2 as (ls & P2 & M2 & L2 & _).
  match type of He0 with In _ (run (seq [?g]) _) => change (seq [g]) with g in He0 end.
  unfold plus in He0. apply in_run_rep in He0; [ | apply run_extends].
  destruct He0 as (m5 & j & S1 & S2 & _).
  apply (@steps_words _ _ later_word_sound) in S1.
  destruct S1 as (gs1 & G1 & Q1 & N1).
  apply psteps_steps in S2. apply (@steps_words _ _ later_word_sound) in S2.
  destruct S2 as (gs2 & G2 & Q2 & N2).
  pose proof (moves_app M1 (moves_app M2 (moves_app N1 N2))) as M.
  rewrite (reads_consumed (moves_reads M)).
  exists c, ls, (gs1 ++ gs2). rewrite concat_app.
  split; [reflexivity | ]. split; [exact Hc | ]. split; [exact P2 | ].
  split; [exact L2 | ]. split; [rewrite length_app; lia | ].
  apply Forall_app. split; assumption.
Qed.

Lemma first_voter_name_source (lines : list jsstring) (s : jsstring) :
  first_voter_name lines = Some s ->
  exists line m,
    In line lines /\ test re_father_line line = false /\
    search re_voter_name line = Some m /\ s = trim (group_str 1 m).
Proof.
  induction lines as [| line rest IH]; simpl; [discriminate | ].
  destruct (test re_father_line line) eqn:F.
  - intros H. destruct (IH H) as (l & m & Hin & R). exists l, m. tauto.
  - destruct (search re_voter_name line) as [m | ] eqn:E.
    + intros H. injection H as <-. exists line, m. auto.
    + intros H. destruct (IH H) as (l & m & Hin & R). exists l, m. tauto.
Qed.

Lemma lower_not_space (c : N) : is_lower c = true -> is_space c = false.
Proof. intros H. char_facts. Qed.

Lemma upper_not_space (c : N) : is_upper c = true -> is_space c = false.
Proof. intros H. char_facts. Qed.

(** The capture ends with a letter. *)
Lemma short_words_end (x : jsstring) (gs : list jsstring) :
  1 <= length gs -> Forall short_word gs ->
  exists q d, x ++ concat gs = q ++ [d] /\ is_space d = false.
Proof.
  intros L P. destruct (exists_last (l := gs)) as (gs' & g & ->).
  { intros ->. simpl in L. lia. }
  apply Forall_app in P. destruct P as [_ P].
  inversion P as [| ? ? (ws & u & l & -> & _ & _ & Hu & Pl & Ll) _]; subst.
  rewrite concat_app. simpl concat. rewrite app_nil_r.
  destruct l as [| a [| b l]]; [ | | simpl in Ll; lia].
  - exists (x ++ concat gs' ++ ws), u. split.
    + rewrite <- !app_assoc. reflexivity.
    + apply upper_not_space. exact Hu.
  - exists (x ++ concat gs' ++ ws ++ [u]), a. split.
    + rewrite <- !app_assoc. reflexivity.
    + apply lower_not_space. inversion Pl; assumption.
Qed.

(** X20.  The name of a voter record, when one is found, is a capitalised
first word of at least two letters followed by one or more later words, and
of each later word only the capital and at most one lower-case letter are
kept: a second word of three letters or more is cut after its second letter.
So [Name: Arun Kumar] gives [Arun Ku]. *)
Theorem voter_name_keeps_two_letters_of_later_words
  (textOrig text2x : jsstring) :
  (name (extractVoterFields textOrig text2x) = JStr NOT_FOUND \/
   exists c ls gs,
     name (extractVoterFields textOrig text2x) = JStr ((c :: ls) ++ concat gs) /\
     is_upper c = true /\ all is_lower ls /\ 1 <= length ls /\
     1 <= length gs /\ Forall short_word gs) /\
  name (extractVoterFields (str "Name: Arun Kumar") []) = JStr (str "Arun Ku").
Proof.
  split; [ | vm_compute; reflexivity].
  rewrite voter_fields. cbv zeta. cbn [name]. unfold voter_name_rule.
  destruct (first_voter_name _) as [s | ] eqn:E; [right | left; reflexivity].
  apply first_voter_name_source in E.
  destruct E as (line & m & _ & _ & E & ->).
  destruct (voter_name_capture _ E) as (c & ls & gs & G & Hc & P & L & Lg & Q).
  exists c, ls, gs. unfold or_not_found. rewrite G.
  destruct (short_words_end (c :: ls) Lg Q) as (q & d & Z & Hd).
  simpl app in *.
  rewrite (trim_fixed _ _ (upper_not_space _ Hc) Hd Z).
  repeat split; assumption.
Qed.

(** X21.  Without a labelled father's name the field is the missing-value
text unless the texts hold, after a word boundary, the letters [Soundara]
followed by one or more ASCII letters: that word is then the father's name.
No other unlabelled name is ever taken. *)
Theorem unlabelled_father_name_is_one_surname (textOrig text2x : jsstring) :
  search re_father (textOrig ++ LF ++ text2x) = None ->
  fatherName (extractVoterFields textOrig text2x) = JStr NOT_FOUND \/
  exists letters,
    fatherName (extractVoterFields textOrig text2x)
    = JStr (str "Soundara" ++ letters) /\
    all is_alpha letters /\ 1 <= length letters /\
    occurs_in (str "Soundara" ++ letters) (textOrig ++ LF ++ text2x).
Proof.
  intros E. rewrite voter_fields. cbv zeta. cbn [fatherName].
  unfold father_name_rule. rewrite E.
  destruct (search re_soundara (textOrig ++ LF ++ text2x)) as [m | ] eqn:S;
    [right | left; reflexivity].
  pose proof (search_end_in _ _ S) as Hin. apply search_some in S.
  destruct S as (skipped & w & tl & Hs & _ & Hst & _ & Hw & _).
  unfold re_soundara in Hin. peel Hin.
  apply in_run_wordb in Hm. destruct Hm as [-> _].
  match type of Hin with
  | In _ (run (seq [?g]) _) => change (seq [g]) with g in Hin
  end.
  apply in_run_group in Hin. destruct Hin as (e0 & He0 & He).
  peel He0. apply in_run_lit in Hm.
  match type of He0 with
  | In _ (run (seq [?g]) _) => change (seq [g]) with g in He0
  end.
  apply in_run_rep_class in He0. destruct He0 as (letters & P & M & L & _).
  pose proof (moves_app Hm M) as MM.
  rewrite (reads_consumed (moves_reads MM)) in He.
  assert (Ew : w = str "Soundara" ++ letters).
  { apply (reads_inj Hw). rewrite He. exact (moves_reads MM). }
  subst w. exists letters. rewrite (@group_str_end 0 _ _ _ He).
  split; [reflexivity | ]. split; [exact P | ]. split; [exact L | ].
  exists skipped, (after (f_end m)). exact Hs.
Qed.

Lemma unlabelled_father_name_is_one_surname_witness :
  search re_father (str "SOL3248432 Soundararajan" ++ LF ++ []) = None /\
  fatherName (extractVoterFields (str "SOL3248432 Soundararajan") [])
  = JStr (str "Soundararajan").
Proof.
  assert (E : search re_father (str "SOL3248432 Soundararajan" ++ LF ++ []) = None)
    by (vm_compute; reflexivity).
  split; [exact E | ].
  destruct (unlabelled_father_name_is_one_surname
              (str "SOL3248432 Soundararajan") [] E)
    as [F | (letters & F & _)].
  - vm_compute in F. discriminate F.
  - vm_compute. reflexivity.
Defined.

End CaptureFacts.
(** ** The lines of a text *)

Module LineShapeFacts.

Import Chars JsString Regex Scanner Spec MatcherSpec Shapes.
Import SearchFacts DobFacts LineFacts ExtractFacts NameFacts CaptureFacts.

#[local] Arguments str : simpl never.

Lemma trim_first (s : jsstring) :
  trim s = [] \/ exists c x, trim s = c :: x /\ is_space c = false.
Proof.
  destruct (trimStart_head s) as [Z | (d & s' & Z & Hd)].
  - left. unfold trim. rewrite Z. reflexivity.
  - right. destruct (@trim_keeps_head d s' Hd) as [w' E].
    exists d, w'. split; [ | exact Hd]. rewrite <- E.
    unfold trim. rewrite Z. simpl trimStart. rewrite Hd. reflexivity.
Qed.

Lemma trim_idempotent (s : jsstring) : trim (trim s) = trim s.
Proof.
  destruct (trim_first s) as [-> | (c & x & E & Hc)]; [reflexivity | ].
  destruct (trim_last s) as [Z | (q & d & Z & Hd)]; [congruence | ].
  rewrite E. apply (@trim_fixed c d x q Hc Hd). congruence.
Qed.

Lemma trimStart_incl (c : N) (s : jsstring) : In c (trimStart s) -> In c s.
Proof.
  intros H. destruct (trimStart_suffix s) as [pre E]. rewrite E.
  apply in_or_app. right. exact H.
Qed.

Lemma trim_incl (c : N) (s : jsstring) : In c (trim s) -> In c s.
Proof.
  unfold trim, trimEnd. intros H. apply in_rev in H.
  apply trimStart_incl in H. apply in_rev in H.
  apply trimStart_incl in H. exact H.
Qed.

(** X22.  The lines that the extractors work on.  Every line is non-empty,
has no white space at either end (trimming it again changes nothing) and
holds no line feed.  Cutting the text at line feeds, as the voter extractor
does for the date, or at line feeds with an optional carriage return before
them, as both extractors do for the names, gives the same lines. *)
Theorem lines_are_trimmed_and_nonempty (text : jsstring) :
  Forall (fun l => l <> [] /\ trim l = l /\ ~ In 10%N l)
    (lines_of (Regex.split re_newline text)) /\
  lines_of (Regex.split re_newline text) = lines_of (JsString.split text LF).
Proof.
  split; [ | apply same_lines].
  rewrite same_lines. unfold lines_of, LF. rewrite split_char_spec.
  apply Forall_forall. intros l Hl. apply filter_In in Hl.
  destruct Hl as [Hl Hn]. apply in_map_iff in Hl. destruct Hl as (p & <- & Hp).
  split; [ | split].
  - intros Z. rewrite Z in Hn. discriminate Hn.
  - apply trim_idempotent.
  - intros Hin. apply trim_incl in Hin.
    destruct (@split_char_pieces 10%N text [] (fun F => F)) as [_ A].
    rewrite Forall_forall in A. exact (A _ Hp Hin).
Qed.

End LineShapeFacts.
